(** * VTA packed conv2d: compute declaration and schedules

    A shallow embedding of [vta/python/vta/top/vta_conv2d.py]:
    - [conv2d_packed], the compute declaration of the packed convolution;
    - [schedule_conv2d_packed], its schedule, with the classifier [_traverse];
    - [_schedule_add], the schedule of the fused elementwise add.

    Python exceptions are values of [error]; a function that may raise
    returns a [result].  Mutable closures (the lists filled by [_traverse]),
    the schedule object and the configuration are threaded explicitly.
    Tensor extents are constant integers: symbolic extents are outside this
    development.  So are two refusals of the tensor library: a dtype string
    is taken to name one of its dtypes (it refuses the cast to any other
    string), and the output given to [_schedule_add] is taken to be a
    compute operation (a placeholder has no axes to unpack). *)

From Stdlib Require Import ZArith List String Ascii Bool Lia Arith.
Import ListNotations.
Open Scope string_scope.
Open Scope list_scope.
Open Scope Z_scope.

Set Implicit Arguments.
Set Warnings "-register-all".

(** ** Exceptions and the error monad *)

Inductive error : Type :=
| InvalidShapeError   (* topi.InvalidShapeError *)
| AssertionError      (* a failed [assert] *)
| ValueError          (* wrong number of values to unpack, bad argument *)
| IndexError          (* list index out of range *)
| KeyError            (* missing configuration entry *)
| TypeError           (* reduce() of an empty sequence *)
| AttributeError      (* missing attribute of an object *)
| TVMError.           (* a check of the tensor library failed *)

Inductive result (A : Type) : Type :=
| Ok (a : A)
| Raise (e : error).

Arguments Ok {A} a.
Arguments Raise {A} e.

Definition bind {A B : Type} (m : result A) (k : A -> result B) : result B :=
  match m with
  | Ok a => k a
  | Raise e => Raise e
  end.

Notation "x <- m ;; k" := (bind m (fun x => k))
  (at level 61, m at next level, right associativity).
Notation "' p <- m ;; k" := (bind m (fun x => match x with p => k end))
  (at level 61, p pattern, m at next level, right associativity).

Definition assert (b : bool) : result unit :=
  if b then Ok tt else Raise AssertionError.

Definition index {A : Type} (l : list A) (i : nat) : result A :=
  match nth_error l i with
  | Some a => Ok a
  | None => Raise IndexError
  end.

(** [l[-1]] *)
Definition index_last {A : Type} (l : list A) : result A :=
  match rev l with
  | a :: _ => Ok a
  | [] => Raise IndexError
  end.

(** ** Python helpers *)

(** [sub in s] on strings. *)
Fixpoint contains (sub s : string) : bool :=
  if String.prefix sub s then true
  else match s with
       | EmptyString => false
       | String _ s' => contains sub s'
       end.

(** numpy's [int64] scalars wrap around. *)
Definition wrap64 (z : Z) : Z := (z + 2 ^ 63) mod 2 ^ 64 - 2 ^ 63.

Definition np_mul (a b : Z) : Z := wrap64 (a * b).

(** [np.prod] of a tuple of integers: an [int64] product. *)
Definition np_prod (l : list Z) : Z := fold_left np_mul l 1.

(** ** Tensors and operations

    Every operation here has one output, so a tensor is identified with the
    operation that produces it ([t.op] and [op.output(0)] are the identity).
    [op_id] is the identity of the Python object: [same_as] compares it. *)

Inductive OpKind : Type := PlaceholderOp | ComputeOp.

Inductive Operation : Type := MkOp {
  op_id : nat;
  op_kind : OpKind;
  op_name : string;
  op_tag : string;
  dtype : string;
  shape : list Z;               (* extents of the output, one per axis *)
  reduce_extents : list Z;      (* extents of [op.reduce_axis] *)
  input_tensors : list Operation
}.

Definition Tensor : Type := Operation.

Definition same_as (a b : Operation) : bool := Nat.eqb (op_id a) (op_id b).

Definition is_placeholder (t : Tensor) : bool :=
  match op_kind t with PlaceholderOp => true | ComputeOp => false end.

Definition is_compute (t : Tensor) : bool :=
  match op_kind t with PlaceholderOp => false | ComputeOp => true end.

(** The largest identity in a graph, used to name a new object. *)
Fixpoint max_id (o : Operation) : nat :=
  Nat.max (op_id o)
    ((fix go (l : list Operation) : nat :=
        match l with
        | [] => O
        | x :: l' => Nat.max (max_id x) (go l')
        end) (input_tensors o)).

Definition fresh_id (roots : list Operation) : nat :=
  S (fold_right (fun o m => Nat.max (max_id o) m) O roots).

(** [topi.tag] *)
Definition ELEMWISE : string := "elemwise".
Definition BROADCAST : string := "broadcast".
Definition INJECTIVE : string := "injective".

Definition is_broadcast (tag : string) : bool :=
  String.eqb tag ELEMWISE || String.eqb tag BROADCAST.

(** ** The autotuning configuration

    Modelled from the spec: the configuration object of the autotuning
    collaborator is not part of the source.  It holds the declared tunables
    (in declaration order), the resolved value of each tunable and the cost
    accumulator. *)

Inductive IterVar : Type :=
| DataAxis (o : nat) (i : nat)      (* [op.axis[i]] of the operation [o] *)
| ReduceAxis (o : nat) (i : nat)    (* [op.reduce_axis[i]] *)
| SplitOuter (parent : IterVar)     (* first result of [split parent] *)
| SplitInner (parent : IterVar).    (* second result of [split parent] *)

Inductive SpaceDecl : Type :=
| DefineSplit (axis : IterVar) (num_outputs : nat)
| DefineKnob (candidates : list Z).

Inductive Entity : Type :=
| SplitEntity (size : list Z)
| OtherOptionEntity (val : Z).

Record Config : Type := MkConfig {
  space_map : list (string * SpaceDecl);
  entity_map : list (string * Entity);
  flop : Z
}.

Definition add_flop (cfg : Config) (n : Z) : Config :=
  MkConfig (space_map cfg) (entity_map cfg) (flop cfg + n).

Definition define_split (cfg : Config) (name : string) (axis : IterVar)
    (num_outputs : nat) : Config :=
  MkConfig (space_map cfg ++ [(name, DefineSplit axis num_outputs)])
           (entity_map cfg) (flop cfg).

Definition define_knob (cfg : Config) (name : string) (candidates : list Z)
    : Config :=
  MkConfig (space_map cfg ++ [(name, DefineKnob candidates)])
           (entity_map cfg) (flop cfg).

Fixpoint assoc {A : Type} (name : string) (l : list (string * A)) : option A :=
  match l with
  | [] => None
  | (k, v) :: l' => if String.eqb k name then Some v else assoc name l'
  end.

(** [cfg[name]] *)
Definition cfg_get (cfg : Config) (name : string) : result Entity :=
  match assoc name (entity_map cfg) with
  | Some e => Ok e
  | None => Raise KeyError
  end.

(** ** conv2d_packed *)

(** Modelled from the spec: [topi.nn.pad] is not part of the source.  It
    pads every axis by the given amount before and, as no [pad_after] is
    given, by the same amount after; the new operation is tagged as a pad. *)
Definition topi_nn_pad (new_id : nat) (data : Tensor) (pad_before : list Z)
    (name : string) : result Tensor :=
  if negb (Nat.eqb (List.length pad_before) (List.length (shape data)))
  then Raise ValueError
  else Ok (MkOp new_id ComputeOp name "injective,pad" (dtype data)
             (map (fun '(d, p) => d + p + p) (combine (shape data) pad_before))
             [] [data]).

(** [a // b] on the constant extents of a shape.  The operands are
    expressions of the tensor library, which folds the quotient of two
    constants and refuses a zero divisor with its own error. *)
Definition floordiv (a b : Z) : result Z :=
  if b =? 0 then Raise TVMError else Ok (a / b).

Definition pair_eqb (a b : Z * Z) : bool :=
  (fst a =? fst b) && (snd a =? snd b).

Section Conv2dPacked.

(** [vta.top.util.is_packed_layout] is not part of the source. *)
Variable is_packed_layout : string -> bool.

Definition conv2d_packed (cfg : Config) (data kernel : Tensor)
    (strides padding dilation : Z * Z) (layout out_dtype : string)
    : result (Config * Tensor) :=
  if negb (is_packed_layout layout) then Raise InvalidShapeError else
  _ <- assert (pair_eqb dilation (1, 1)) ;;
  pad_data <-
    (if negb (fst padding =? 0)
     then topi_nn_pad (fresh_id [data; kernel]) data
            [0; 0; fst padding; snd padding; 0; 0] "pad_data"
     else Ok data) ;;
  _ <- assert (Nat.eqb (List.length (shape data)) 6) ;;
  _ <- assert (Nat.eqb (List.length (shape kernel)) 6) ;;
  ph <- index (shape pad_data) 2 ;;
  kh <- index (shape kernel) 2 ;;
  qh <- floordiv (ph - kh) (fst strides) ;;
  let oheight := qh + 1 in
  pw <- index (shape pad_data) 3 ;;
  kw <- index (shape kernel) 3 ;;
  qw <- floordiv (pw - kw) (snd strides) ;;
  let owidth := qw + 1 in
  d0 <- index (shape data) 0 ;;
  k0 <- index (shape kernel) 0 ;;
  d4 <- index (shape data) 4 ;;
  k4 <- index (shape kernel) 4 ;;
  let oshape := [d0; k0; oheight; owidth; d4; k4] in
  let ishape := shape data in
  let kshape := shape kernel in
  kshape2 <- index kshape 2 ;;
  kshape3 <- index kshape 3 ;;
  ishape1 <- index ishape 1 ;;
  ishape_last <- index_last ishape ;;
  (* reduce axes, in the order given to te.sum: k_o, d_i, d_j, k_i *)
  let res := MkOp (fresh_id [pad_data; kernel]) ComputeOp "res" "conv2d_dense"
               out_dtype oshape
               [ishape1; kshape2; kshape3; ishape_last]
               [pad_data; kernel] in
  let cfg' :=
    add_flop cfg
      (np_mul (np_mul (np_mul (np_mul (np_mul 2 (np_prod oshape)) kshape2)
                              kshape3) ishape1) ishape_last) in
  Ok (cfg', res).

End Conv2dPacked.

(** ** The scheduling substrate

    Modelled from the spec: stages, the schedule and its primitives (split,
    reorder, compute_at, compute_inline, set_scope, pragma, tensorize, bind,
    cache_read, create_schedule, AutoInlineInjective) belong to the tensor
    expression library, which is not part of the source.  A stage wraps one
    operation and holds its loop-axis ordering, its memory scope, its attach
    point and the annotations bound to its axes. *)

Fixpoint itervar_eqb (a b : IterVar) : bool :=
  match a, b with
  | DataAxis o i, DataAxis o' i' => Nat.eqb o o' && Nat.eqb i i'
  | ReduceAxis o i, ReduceAxis o' i' => Nat.eqb o o' && Nat.eqb i i'
  | SplitOuter p, SplitOuter p' => itervar_eqb p p'
  | SplitInner p, SplitInner p' => itervar_eqb p p'
  | _, _ => false
  end.

Definition is_leaf (v : IterVar) (leaves : list IterVar) : bool :=
  existsb (itervar_eqb v) leaves.

Inductive AttachType : Type :=
| kGroupRoot
| kInline
| kScope (parent : nat) (axis : IterVar).

Inductive IterVarAttr : Type :=
| Pragma (name : string)
| Tensorize (intrin : string)
| Bind (thread_tag : string).

(** Modelled from the spec: a schedule stage wraps one operation node and
    holds its loop-axis ordering, its memory scope, its attach point and
    the instruction annotations bound to its axes; the splits are kept as
    well. *)
Record Stage : Type := MkStage {
  op : Operation;                       (* the operation of the stage *)
  leaf_iter_vars : list IterVar;        (* the loop nest, outermost first *)
  relations : list (IterVar * Z);       (* splits: parent axis and factor *)
  scope : string;
  attach : AttachType;
  iter_var_attrs : list (IterVar * IterVarAttr)
}.

(** Modelled from the spec: the schedule is the set of stages, kept in
    order. *)
Record Schedule : Type := MkSchedule {
  stages : list Stage;
  outputs : list nat;                   (* identities of the output ops *)
  next_id : nat                         (* identity of the next new object *)
}.

(** [op.axis] and [op.reduce_axis] of a compute operation. *)
Definition axis (o : Operation) : list IterVar :=
  map (DataAxis (op_id o)) (seq 0 (List.length (shape o))).

Definition reduce_axis (o : Operation) : list IterVar :=
  map (ReduceAxis (op_id o)) (seq 0 (List.length (reduce_extents o))).

Definition root_iter_vars (o : Operation) : list IterVar :=
  match op_kind o with
  | ComputeOp => axis o ++ reduce_axis o
  | PlaceholderOp => []
  end.

Definition new_stage (o : Operation) : Stage :=
  MkStage o (root_iter_vars o) [] "" kGroupRoot [].

Definition is_stage_of (t : Tensor) (st : Stage) : bool := same_as (op st) t.

(** [s[t]] *)
Definition get_stage (s : Schedule) (t : Tensor) : result Stage :=
  match find (is_stage_of t) (stages s) with
  | Some st => Ok st
  | None => Raise ValueError
  end.

(** Stages are mutable objects: a change of the stage of [t] is a write
    into the schedule. *)
Definition set_stage (s : Schedule) (t : Tensor) (st' : Stage) : Schedule :=
  MkSchedule
    (map (fun st => if is_stage_of t st then st' else st) (stages s))
    (outputs s) (next_id s).

Definition require_leaf (st : Stage) (v : IterVar) : result unit :=
  if is_leaf v (leaf_iter_vars st) then Ok tt else Raise TVMError.

Fixpoint replace_leaf (v : IterVar) (by_ : list IterVar) (leaves : list IterVar)
    : list IterVar :=
  match leaves with
  | [] => []
  | x :: rest =>
      if itervar_eqb v x then by_ ++ rest
      else x :: replace_leaf v by_ rest
  end.

(** Modelled from the spec: [s[t].split(parent, factor)].  The parent,
    which must be a loop of the stage, leaves the loop nest and its outer
    and inner parts take its place. *)
Definition split (s : Schedule) (t : Tensor) (parent : IterVar) (factor : Z)
    : result ((IterVar * IterVar) * Schedule) :=
  st <- get_stage s t ;;
  _ <- require_leaf st parent ;;
  let st' := MkStage (op st)
               (replace_leaf parent [SplitOuter parent; SplitInner parent]
                  (leaf_iter_vars st))
               (relations st ++ [(parent, factor)])
               (scope st) (attach st) (iter_var_attrs st) in
  Ok ((SplitOuter parent, SplitInner parent), set_stage s t st').

Fixpoint distinct (l : list IterVar) : bool :=
  match l with
  | [] => true
  | x :: rest => negb (is_leaf x rest) && distinct rest
  end.

(** The positions held by the axes of [order] receive them in the order
    given; the other positions are untouched. *)
Fixpoint reorder_leaves (order members leaves : list IterVar) : list IterVar :=
  match leaves with
  | [] => []
  | x :: rest =>
      if is_leaf x members then
        match order with
        | o :: order' => o :: reorder_leaves order' members rest
        | [] => x :: reorder_leaves [] members rest
        end
      else x :: reorder_leaves order members rest
  end.

(** Modelled from the spec: [s[t].reorder] of the given axes, which must
    be distinct loops of the stage. *)
Definition reorder (s : Schedule) (t : Tensor) (order : list IterVar)
    : result Schedule :=
  st <- get_stage s t ;;
  if negb (distinct order) then Raise TVMError else
  if negb (forallb (fun v => is_leaf v (leaf_iter_vars st)) order)
  then Raise TVMError else
  Ok (set_stage s t
        (MkStage (op st) (reorder_leaves order order (leaf_iter_vars st))
           (relations st) (scope st) (attach st) (iter_var_attrs st))).

(** Modelled from the spec: [s[t].compute_at(s[parent], axis)] sets the
    attach point, which must be a loop of the parent stage. *)
Definition compute_at (s : Schedule) (t : Tensor) (parent : Tensor)
    (axis_ : IterVar) : result Schedule :=
  st <- get_stage s t ;;
  pst <- get_stage s parent ;;
  _ <- require_leaf pst axis_ ;;
  Ok (set_stage s t
        (MkStage (op st) (leaf_iter_vars st) (relations st) (scope st)
           (kScope (op_id parent) axis_) (iter_var_attrs st))).

(** Modelled from the spec: [s[t].compute_inline()]. *)
Definition compute_inline (s : Schedule) (t : Tensor) : result Schedule :=
  st <- get_stage s t ;;
  Ok (set_stage s t
        (MkStage (op st) (leaf_iter_vars st) (relations st) (scope st)
           kInline (iter_var_attrs st))).

(** Modelled from the spec: [s[t].set_scope(scope)]. *)
Definition set_scope (s : Schedule) (t : Tensor) (sc : string)
    : result Schedule :=
  st <- get_stage s t ;;
  Ok (set_stage s t
        (MkStage (op st) (leaf_iter_vars st) (relations st) sc
           (attach st) (iter_var_attrs st))).

(** Modelled from the spec: an annotation is bound to a loop of the
    stage; [pragma], [tensorize] and [bind] are its three uses. *)
Definition annotate (s : Schedule) (t : Tensor) (v : IterVar)
    (a : IterVarAttr) : result Schedule :=
  st <- get_stage s t ;;
  _ <- require_leaf st v ;;
  Ok (set_stage s t
        (MkStage (op st) (leaf_iter_vars st) (relations st) (scope st)
           (attach st) (iter_var_attrs st ++ [(v, a)]))).

Definition pragma (s : Schedule) (t : Tensor) (v : IterVar) (name : string)
    : result Schedule := annotate s t v (Pragma name).

Definition tensorize (s : Schedule) (t : Tensor) (v : IterVar)
    (intrin : string) : result Schedule := annotate s t v (Tensorize intrin).

Definition bind_thread (s : Schedule) (t : Tensor) (v : IterVar)
    (thread_tag : string) : result Schedule := annotate s t v (Bind thread_tag).

Definition reads (o : Operation) (t : Tensor) : bool :=
  existsb (same_as t) (input_tensors o).

Definition replace_inputs (o : Operation) (old new : Tensor) : Operation :=
  MkOp (op_id o) (op_kind o) (op_name o) (op_tag o) (dtype o) (shape o)
    (reduce_extents o)
    (map (fun i => if same_as old i then new else i) (input_tensors o)).

Fixpoint insert_after (t : Tensor) (c : Stage) (l : list Stage) : list Stage :=
  match l with
  | [] => []
  | x :: rest =>
      if is_stage_of t x then x :: c :: rest
      else x :: insert_after t c rest
  end.

(** The body of a counted loop over a Python list, run on the schedule. *)
Fixpoint for_each {A : Type} (l : list A)
    (body : Schedule -> A -> result Schedule) (s : Schedule)
    : result Schedule :=
  match l with
  | [] => Ok s
  | a :: rest => s' <- body s a ;; for_each rest body s'
  end.

(** Modelled from the spec: [s.cache_read(tensor, scope, readers)], the
    insertion of a cached copy.  A new operation copies the
    tensor, every reader is rewritten to read the copy (a reader that does
    not read the tensor is an error), and the stage of the copy is placed
    after the stage of the tensor.  The rewritten reader keeps its place in
    the schedule, so it keeps its identity here. *)
Definition cache_read (s : Schedule) (tensor : Tensor) (sc : string)
    (readers : list Operation) : result (Tensor * Schedule) :=
  _ <- get_stage s tensor ;;
  let cache := MkOp (next_id s) ComputeOp (op_name tensor ++ "." ++ sc) ""
                 (dtype tensor) (shape tensor) [] [tensor] in
  s1 <- for_each readers
          (fun s0 r =>
             st <- get_stage s0 r ;;
             if negb (reads (op st) tensor) then Raise TVMError else
             Ok (set_stage s0 r
                   (MkStage (replace_inputs (op st) tensor cache)
                      (leaf_iter_vars st) (relations st) (scope st)
                      (attach st) (iter_var_attrs st)))) s ;;
  let cache_stage := MkStage cache (root_iter_vars cache) [] sc kGroupRoot [] in
  Ok (cache, MkSchedule (insert_after tensor cache_stage (stages s1))
               (outputs s1) (S (next_id s1))).

(** Modelled from the spec: the order in which [te.create_schedule] makes
    the stages.  An operation is marked as
    visited, by its identity, before its inputs are walked, and joins the
    order after them. *)
Fixpoint post_dfs (o : Operation) (acc : list nat * list Operation)
    : list nat * list Operation :=
  if existsb (Nat.eqb (op_id o)) (fst acc) then acc
  else
    let acc' :=
      (fix go (l : list Operation) (acc : list nat * list Operation)
         : list nat * list Operation :=
         match l with
         | [] => acc
         | x :: l' => go l' (post_dfs x acc)
         end) (input_tensors o) (op_id o :: fst acc, snd acc) in
    (fst acc', snd acc' ++ [o]).

Definition post_order (ops : list Operation) : list Operation :=
  snd (fold_left (fun acc o => post_dfs o acc) ops ([], [])).

(** Modelled from the spec: [te.create_schedule(ops)], one new stage per
    operation under the outputs. *)
Definition create_schedule (ops : list Operation) : Schedule :=
  MkSchedule (map new_stage (post_order ops)) (map op_id ops) (fresh_id ops).

Definition is_scheduled (st : Stage) : bool :=
  negb (match relations st, attach st with
        | [], kGroupRoot => true
        | _, _ => false
        end).

Definition IsInjective (o : Operation) : bool :=
  is_compute o && Nat.eqb (List.length (reduce_extents o)) 0.

Definition is_output (s : Schedule) (st : Stage) : bool :=
  existsb (Nat.eqb (op_id (op st))) (outputs s).

(** Modelled from the spec: [te.schedule.AutoInlineInjective(s)], the
    generic inlining of the injective operations that are not outputs. *)
Definition AutoInlineInjective (s : Schedule) : Schedule :=
  MkSchedule
    (map (fun st =>
            if negb (is_scheduled st) && IsInjective (op st)
               && negb (is_output s st)
            then MkStage (op st) (leaf_iter_vars st) (relations st) (scope st)
                   kInline (iter_var_attrs st)
            else st) (stages s))
    (outputs s) (next_id s).

(** The accelerator environment, [get_env()], is not part of the source:
    its memory scopes and instruction names are taken as given. *)
Record Env : Type := MkEnv {
  inp_scope : string;
  wgt_scope : string;
  acc_scope : string;
  alu : string;
  dma_copy : string;
  gemm : string
}.

(** Unpacking of a Python sequence into a fixed number of names. *)
Definition unpack2 {A : Type} (l : list A) : result (A * A) :=
  match l with
  | [a; b] => Ok (a, b)
  | _ => Raise ValueError
  end.

Definition unpack4 {A : Type} (l : list A) : result (A * A * A * A) :=
  match l with
  | [a; b; c; d] => Ok (a, b, c, d)
  | _ => Raise ValueError
  end.

Definition unpack6 {A : Type} (l : list A)
    : result (A * A * A * A * A * A) :=
  match l with
  | [a; b; c; d; e; f] => Ok (a, b, c, d, e, f)
  | _ => Raise ValueError
  end.

(** Modelled from the spec: [SplitEntity.apply(sch, op, axis)], the
    application of a resolved split.  One split per size after the first,
    by the product of the sizes that remain; the outer parts and the last
    inner part are returned. *)
Fixpoint apply_sizes (s : Schedule) (t : Tensor) (axis_ : IterVar)
    (rest : list Z) : result (list IterVar * Schedule) :=
  match rest with
  | [] => Ok ([axis_], s)
  | _ :: rest' =>
      '((ax0, ax1), s1) <- split s t axis_ (np_prod rest) ;;
      '(ret, s2) <- apply_sizes s1 t ax1 rest' ;;
      Ok (ax0 :: ret, s2)
  end.

Definition apply (e : Entity) (s : Schedule) (t : Tensor) (axis_ : IterVar)
    : result (list IterVar * Schedule) :=
  match e with
  | SplitEntity size => apply_sizes s t axis_ (tl size)
  | OtherOptionEntity _ => Raise AttributeError
  end.

(** [entity.val] *)
Definition val (e : Entity) : result Z :=
  match e with
  | OtherOptionEntity v => Ok v
  | SplitEntity _ => Raise AttributeError
  end.

(** ** schedule_conv2d_packed *)

(** The four lists filled by [_traverse]. *)
Record Classified : Type := MkClassified {
  const_ops : list Operation;
  ewise_inputs : list (Operation * Tensor);
  ewise_ops : list Operation;
  conv2d_res : list Operation
}.

Definition no_ops : Classified := MkClassified [] [] [] [].

Definition append_const (c : Classified) (o : Operation) : Classified :=
  MkClassified (const_ops c ++ [o]) (ewise_inputs c) (ewise_ops c)
    (conv2d_res c).

Definition append_ewise_input (c : Classified) (p : Operation * Tensor)
    : Classified :=
  MkClassified (const_ops c) (ewise_inputs c ++ [p]) (ewise_ops c)
    (conv2d_res c).

Definition append_ewise (c : Classified) (o : Operation) : Classified :=
  MkClassified (const_ops c) (ewise_inputs c) (ewise_ops c ++ [o])
    (conv2d_res c).

Definition append_conv (c : Classified) (o : Operation) : Classified :=
  MkClassified (const_ops c) (ewise_inputs c) (ewise_ops c)
    (conv2d_res c ++ [o]).

(** [not op.axis] *)
Definition no_axis (o : Operation) : bool :=
  match axis o with [] => true | _ :: _ => false end.

Definition conv2d_tag : string := "conv2d_dense".

(** The classifier of [schedule_conv2d_packed].  [output] is [output.op] of
    the enclosing function; the lists are threaded through the calls. *)
Fixpoint _traverse (output : Operation) (o : Operation) (c : Classified)
    : result Classified :=
  if is_broadcast (op_tag o) then
    let c1 :=
      if negb (same_as o output) then
        if no_axis o then append_const c o else append_ewise c o
      else c in
    (fix inputs (l : list Tensor) (c : Classified) : result Classified :=
       match l with
       | [] => Ok c
       | tensor :: l' =>
           if is_placeholder tensor
           then inputs l' (append_ewise_input c (o, tensor))
           else c' <- _traverse output tensor c ;; inputs l' c'
       end) (input_tensors o) c1
  else
    _ <- assert (String.eqb (op_tag o) conv2d_tag) ;;
    Ok (append_conv c o).

Section Schedules.

Variable env : Env.

(** Lines 103-111: the declaration of the tunables. *)
Definition space_definition (cfg : Config) (s : Schedule)
    (conv2d_stage : Tensor) : result Config :=
  st <- get_stage s conv2d_stage ;;
  '(b, c_o, x_i, x_j, _, _) <- unpack6 (axis (op st)) ;;
  '(c_i, _, _, _) <- unpack4 (reduce_axis (op st)) ;;
  let cfg := define_split cfg "tile_b" b 2 in
  let cfg := define_split cfg "tile_h" x_i 2 in
  let cfg := define_split cfg "tile_w" x_j 2 in
  let cfg := define_split cfg "tile_ci" c_i 2 in
  let cfg := define_split cfg "tile_co" c_o 2 in
  let cfg := define_knob cfg "oc_nthread" [1; 2] in
  let cfg := define_knob cfg "h_nthread" [1; 2] in
  Ok cfg.

(** [s[t].op.axis[0]] *)
Definition first_axis (s : Schedule) (t : Tensor) : result IterVar :=
  st <- get_stage s t ;;
  index (axis (op st)) 0.

(** The loop that caches the placeholders read by elementwise ops. *)
Fixpoint cache_read_inputs (l : list (Operation * Tensor)) (s : Schedule)
    : result (list Tensor * Schedule) :=
  match l with
  | [] => Ok ([], s)
  | (consumer, tensor) :: l' =>
      '(c, s1) <- cache_read s tensor (acc_scope env) [consumer] ;;
      '(cs, s2) <- cache_read_inputs l' s1 ;;
      Ok (c :: cs, s2)
  end.

(** Lines 114-145: memory scopes and cached copies. *)
Definition setup_scopes (s : Schedule) (conv2d_stage : Tensor)
    (c : Classified)
    : result (Tensor * Tensor * list Tensor * Schedule) :=
  '(data, kernel) <- unpack2 (input_tensors conv2d_stage) ;;
  '(data, pad_data) <-
    (if is_compute data && contains "pad" (op_tag data)
     then temp <- index (input_tensors data) 0 ;; Ok (temp, Some data)
     else Ok (data, None)) ;;
  (* setup pad *)
  '(cdata, s) <-
    match pad_data with
    | Some pad_data =>
        s <- set_scope s pad_data (inp_scope env) ;; Ok (pad_data, s)
    | None => cache_read s data (inp_scope env) [conv2d_stage]
    end ;;
  '(ckernel, s) <- cache_read s kernel (wgt_scope env) [conv2d_stage] ;;
  s <- set_scope s conv2d_stage (acc_scope env) ;;
  (* cache read input *)
  '(cache_read_ewise, s) <- cache_read_inputs (ewise_inputs c) s ;;
  (* set ewise scope *)
  s <- for_each (ewise_ops c)
         (fun s o =>
            s <- set_scope s o (acc_scope env) ;;
            a <- first_axis s o ;;
            pragma s o a (alu env)) s ;;
  s <- for_each (const_ops c) compute_inline s ;;
  Ok (cdata, ckernel, cache_read_ewise, s).

(** The axes of the output stage that the later steps use. *)
Record Tiles : Type := MkTiles {
  t_bo : IterVar; t_co0 : IterVar; t_co1 : IterVar;
  t_i0 : IterVar; t_i1 : IterVar;
  t_j0 : IterVar; t_j1 : IterVar;
  t_bi : IterVar; t_ci : IterVar
}.

Definition store_pt (t : Tiles) : IterVar := t_j0 t.

(** Lines 148-153: tiling of the output stage. *)
Definition tile (cfg : Config) (s : Schedule) (output : Tensor)
    : result (Tiles * Schedule) :=
  st <- get_stage s output ;;
  '(x_bo, x_co, x_i, x_j, x_bi, x_ci) <- unpack6 (axis (op st)) ;;
  e <- cfg_get cfg "tile_co" ;;
  '(r, s) <- apply e s output x_co ;;
  '(x_co0, x_co1) <- unpack2 r ;;
  e <- cfg_get cfg "tile_h" ;;
  '(r, s) <- apply e s output x_i ;;
  '(x_i0, x_i1) <- unpack2 r ;;
  e <- cfg_get cfg "tile_w" ;;
  '(r, s) <- apply e s output x_j ;;
  '(x_j0, x_j1) <- unpack2 r ;;
  s <- reorder s output
         [x_bo; x_i0; x_co0; x_j0; x_co1; x_i1; x_j1; x_bi; x_ci] ;;
  Ok (MkTiles x_bo x_co0 x_co1 x_i0 x_i1 x_j0 x_j1 x_bi x_ci, s).

(** Lines 155-162: the attach points. *)
Definition set_compute_scopes (s : Schedule) (output conv2d_stage : Tensor)
    (c : Classified) (cache_read_ewise : list Tensor) (t : Tiles)
    : result Schedule :=
  s <- compute_at s conv2d_stage output (store_pt t) ;;
  s <- for_each (ewise_ops c)
         (fun s o => compute_at s o output (store_pt t)) s ;;
  for_each cache_read_ewise
    (fun s tensor =>
       s <- compute_at s tensor output (store_pt t) ;;
       a <- first_axis s tensor ;;
       pragma s tensor a (dma_copy env)) s.

(** One virtual-threading block (lines 165-168 and 171-174). *)
Definition virtual_thread (cfg : Config) (knob : string) (s : Schedule)
    (output : Tensor) (outer x_bo : IterVar) : result Schedule :=
  e <- cfg_get cfg knob ;;
  n <- val e ;;
  if n >? 1 then
    '((_, v_t), s) <- split s output outer n ;;
    s <- reorder s output [v_t; x_bo] ;;
    bind_thread s output v_t "cthread"
  else Ok s.

(** Lines 176-182: the loop nest of the convolution stage. *)
Definition stage_reduction (cfg : Config) (s : Schedule)
    (conv2d_stage cdata ckernel : Tensor)
    : result (IterVar * IterVar * Schedule) :=
  st <- get_stage s conv2d_stage ;;
  '(x_bo, x_co, x_i, x_j, x_bi, x_ci) <- unpack6 (axis (op st)) ;;
  '(k_o, d_i, d_j, k_i) <- unpack4 (reduce_axis (op st)) ;;
  s <- reorder s conv2d_stage
         [x_bo; k_o; x_j; d_j; d_i; x_co; x_i; x_bi; x_ci; k_i] ;;
  e <- cfg_get cfg "tile_ci" ;;
  '(r, s) <- apply e s conv2d_stage k_o ;;
  '(k_o, _) <- unpack2 r ;;
  s <- compute_at s cdata conv2d_stage k_o ;;
  s <- compute_at s ckernel conv2d_stage k_o ;;
  Ok (k_o, x_bi, s).

(** Lines 184-188: the accelerator instructions. *)
Definition use_vta_instructions (s : Schedule)
    (output conv2d_stage cdata ckernel : Tensor) (x_bi x_co1 : IterVar)
    : result Schedule :=
  a <- first_axis s cdata ;;
  s <- pragma s cdata a (dma_copy env) ;;
  a <- first_axis s ckernel ;;
  s <- pragma s ckernel a (dma_copy env) ;;
  s <- tensorize s conv2d_stage x_bi (gemm env) ;;
  pragma s output x_co1 (dma_copy env).

Definition schedule_conv2d_packed (cfg : Config) (outs : list Tensor)
    : result (Config * Schedule) :=
  _ <- assert (Nat.eqb (List.length outs) 1) ;;
  output <- index outs 0 ;;
  in0 <- index (input_tensors output) 0 ;;
  _ <- assert (contains "int" (dtype in0)) ;;
  c <- _traverse output output no_ops ;;
  _ <- assert (Nat.eqb (List.length (conv2d_res c)) 1) ;;
  conv2d_stage <- index (conv2d_res c) 0 ;;
  let s := create_schedule [output] in
  cfg <- space_definition cfg s conv2d_stage ;;
  '(cdata, ckernel, cache_read_ewise, s) <- setup_scopes s conv2d_stage c ;;
  '(t, s) <- tile cfg s output ;;
  s <- set_compute_scopes s output conv2d_stage c cache_read_ewise t ;;
  s <- virtual_thread cfg "oc_nthread" s output (t_co0 t) (t_bo t) ;;
  s <- virtual_thread cfg "h_nthread" s output (t_i0 t) (t_bo t) ;;
  '(k_o, x_bi, s) <- stage_reduction cfg s conv2d_stage cdata ckernel ;;
  s <- use_vta_instructions s output conv2d_stage cdata ckernel x_bi
         (t_co1 t) ;;
  Ok (cfg, s).

End Schedules.

(** ** _schedule_add *)

(** [range(lo, hi)] *)
Definition range (lo hi : Z) : list Z :=
  map (fun k => lo + Z.of_nat k) (seq 0 (Z.to_nat (hi - lo))).

Fixpoint insert_sorted (x : Z) (l : list Z) : list Z :=
  match l with
  | [] => [x]
  | y :: l' => if x <=? y then x :: y :: l' else y :: insert_sorted x l'
  end.

(** [sorted(l)] *)
Definition sorted (l : list Z) : list Z := fold_right insert_sorted [] l.

(** [set(l)], as the list of its elements *)
Definition set_of (l : list Z) : list Z := nodup Z.eq_dec l.

(** The local function [factors]; [int(n**0.5)] is the integer square root
    and [reduce] of an empty sequence is a [TypeError]. *)
Definition factors (n : Z) : result (list Z) :=
  match filter (fun i => n mod i =? 0) (range 1 (Z.sqrt n + 1)) with
  | [] => Raise TypeError
  | is_ => Ok (sorted (set_of (flat_map (fun i => [i; n / i]) is_)))
  end.

(** The loop [while f > ceiling: del fs[-1]; f = fs[-1]].  The list is held
    with its last element first: [f] is the current factor and [below] the
    elements that remain under it. *)
Fixpoint pop_while_above (ceiling : Z) (f : Z) (below : list Z) : result Z :=
  if f >? ceiling then
    match below with
    | [] => Raise IndexError
    | f' :: below' => pop_while_above ceiling f' below'
    end
  else Ok f.

(** [f = fs[-1]] followed by the loop. *)
Definition select_factor (ceiling : Z) (fs : list Z) : result Z :=
  match rev fs with
  | [] => Raise IndexError
  | f :: below => pop_while_above ceiling f below
  end.

(** [v.dom.extent] of an axis of the operation [o] *)
Definition dom_extent (o : Operation) (v : IterVar) : result Z :=
  match v with
  | DataAxis _ i => index (shape o) i
  | ReduceAxis _ i => index (reduce_extents o) i
  | _ => Raise AttributeError
  end.

(** The three lists filled by the classifier of [_schedule_add]. *)
Record AddClassified : Type := MkAddClassified {
  add_ewise_inputs : list (Operation * Tensor);
  add_ewise_ops : list Operation;
  add_const_ops : list Operation
}.

Definition is_cast_op (o : Operation) : bool := String.eqb (op_name o) "T_cast".

Fixpoint _traverse_add (output : Operation) (o : Operation)
    (c : AddClassified) : AddClassified :=
  if is_broadcast (op_tag o) then
    let c1 :=
      if negb (same_as o output) then
        if no_axis o
        then MkAddClassified (add_ewise_inputs c) (add_ewise_ops c)
               (add_const_ops c ++ [o])
        else if negb (is_cast_op o)
        then MkAddClassified (add_ewise_inputs c) (add_ewise_ops c ++ [o])
               (add_const_ops c)
        else c
      else c in
    (fix inputs (l : list Tensor) (c : AddClassified) : AddClassified :=
       match l with
       | [] => c
       | tensor :: l' =>
           if is_placeholder tensor
           then inputs l'
                  (MkAddClassified (add_ewise_inputs c ++ [(o, tensor)])
                     (add_ewise_ops c) (add_const_ops c))
           else if is_cast_op tensor && negb (same_as o output)
           then inputs l'
                  (MkAddClassified (add_ewise_inputs c ++ [(o, tensor)])
                     (add_ewise_ops c) (add_const_ops c))
           else inputs l' (_traverse_add output tensor c)
       end) (input_tensors o) c1
  else
    (fix inputs (l : list Tensor) (c : AddClassified) : AddClassified :=
       match l with
       | [] => c
       | tensor :: l' =>
           if negb (is_placeholder tensor) && negb (is_cast_op tensor)
           then inputs l' (_traverse_add output tensor c)
           else inputs l' c
       end) (input_tensors o) c.

Section ScheduleAdd.

Variable env : Env.

(** The loop over the cached inputs of [_schedule_add]. *)
Fixpoint add_cache_reads (l : list (Operation * Tensor)) (s : Schedule)
    : result (list Tensor * Schedule) :=
  match l with
  | [] => Ok ([], s)
  | (consumer, tensor) :: l' =>
      '(c, s1) <- cache_read s tensor (acc_scope env) [consumer] ;;
      '(cs, s2) <- add_cache_reads l' s1 ;;
      Ok (c :: cs, s2)
  end.

(** Lines 211-289: the branch taken for an integral output. *)
Definition schedule_add_int (s : Schedule) (output : Tensor)
    : result Schedule :=
  let c := _traverse_add output output (MkAddClassified [] [] []) in
  st <- get_stage s output ;;
  '(x_bo, x_co, x_i, x_j, x_bi, x_ci) <- unpack6 (axis (op st)) ;;
  x_co_max <- dom_extent (op st) x_bo ;;
  x_i_max <- dom_extent (op st) x_i ;;
  x_j_max <- dom_extent (op st) x_j ;;
  '((x_co0, x_co1), s) <- split s output x_co 1 ;;
  i_factors <- factors x_i_max ;;
  i_factor <- select_factor 28 i_factors ;;
  j_factors <- factors x_j_max ;;
  j_factor <- select_factor 14 j_factors ;;
  '((x_i0, x_i1), s) <- split s output x_i i_factor ;;
  '((x_j0, x_j1), s) <- split s output x_j j_factor ;;
  s <- reorder s output
         [x_bo; x_i0; x_co0; x_j0; x_co1; x_i1; x_j1; x_bi; x_ci] ;;
  let store_pt := x_j0 in
  s <- for_each (add_ewise_ops c)
         (fun s eo =>
            s <- set_scope s eo (acc_scope env) ;;
            a <- first_axis s eo ;;
            s <- pragma s eo a (alu env) ;;
            compute_at s eo output store_pt) s ;;
  (* cache read input *)
  '(cache_read_ewise, s) <- add_cache_reads (add_ewise_inputs c) s ;;
  s <- for_each cache_read_ewise
         (fun s tensor =>
            a <- first_axis s tensor ;;
            s <- pragma s tensor a (dma_copy env) ;;
            compute_at s tensor output store_pt) s ;;
  s <- for_each (add_const_ops c) compute_inline s ;;
  pragma s output x_co1 (dma_copy env).

Definition _schedule_add (outs : list Tensor) : result Schedule :=
  _ <- assert (Nat.eqb (List.length outs) 1) ;;
  output <- index outs 0 ;;
  let s := create_schedule outs in
  let s := AutoInlineInjective s in
  (* only put the int-related ops to vta *)
  if contains "int" (dtype output)
  then schedule_add_int s output
  else Ok s.

End ScheduleAdd.

(** * Specification-side definitions and example inputs *)

(** The number of elements of a tensor of the given shape. *)
Definition volume (sh : list Z) : Z := fold_right Z.mul 1 sh.

Definition int64_range (z : Z) : Prop := - 2 ^ 63 <= z < 2 ^ 63.

(** The reduce axes of a convolution, in the order given to [te.sum]. *)
Definition k_o (conv : Operation) : IterVar := ReduceAxis (op_id conv) 0.
Definition d_i (conv : Operation) : IterVar := ReduceAxis (op_id conv) 1.
Definition d_j (conv : Operation) : IterVar := ReduceAxis (op_id conv) 2.
Definition k_i (conv : Operation) : IterVar := ReduceAxis (op_id conv) 3.

(** ** Example inputs *)

Definition placeholder (i : nat) (name : string) (dt : string) (sh : list Z)
    : Tensor :=
  MkOp i PlaceholderOp name "" dt sh [] [].

Definition any_layout (_ : string) : bool := true.

Definition ex_cfg : Config :=
  MkConfig []
    [("tile_b", SplitEntity [-1; 1]); ("tile_h", SplitEntity [-1; 8]);
     ("tile_w", SplitEntity [-1; 4]); ("tile_ci", SplitEntity [-1; 2]);
     ("tile_co", SplitEntity [-1; 2]);
     ("oc_nthread", OtherOptionEntity 2); ("h_nthread", OtherOptionEntity 1)]
    0.

Definition ex_env : Env :=
  MkEnv "local.inp_buffer" "local.wgt_buffer" "local.acc_buffer"
    "alu" "dma_copy" "gemm".

Definition ex_data : Tensor := placeholder 0 "data" "int8" [1; 4; 16; 16; 1; 16].
Definition ex_kernel : Tensor :=
  placeholder 1 "kernel" "int8" [4; 4; 3; 3; 16; 16].

(** The padded activation and the convolution built by [conv2d_packed] from
    [ex_data] and [ex_kernel] with stride (1,1) and padding (1,1). *)
Definition ex_pad : Tensor :=
  MkOp 2 ComputeOp "pad_data" "injective,pad" "int8" [1; 4; 18; 18; 1; 16] []
    [ex_data].

Definition ex_conv : Tensor :=
  MkOp 3 ComputeOp "res" "conv2d_dense" "int32" [1; 4; 16; 16; 1; 16]
    [4; 3; 3; 16] [ex_pad; ex_kernel].

(** [d] is the largest positive divisor of [n] that does not exceed
    [ceiling]. *)
Definition largest_divisor_upto (ceiling n d : Z) : Prop :=
  1 <= d <= ceiling /\ (d | n) /\
  forall d', 1 <= d' -> (d' | n) -> d' <= ceiling -> d' <= d.

(** [ascending l]: every element is at most the elements after it. *)
Fixpoint ascending (l : list Z) : Prop :=
  match l with
  | [] => True
  | x :: l' => (forall y, In y l' -> x <= y) /\ ascending l'
  end.

(** [descending l]: every element is at least the elements after it. *)
Fixpoint descending (l : list Z) : Prop :=
  match l with
  | [] => True
  | x :: l' => (forall y, In y l' -> y <= x) /\ descending l'
  end.

(** ** The classifier, seen from outside *)

(** The operations on which [_traverse] is called, in call order, when it
    starts at [o]: the operation itself and, under a broadcast operation,
    the calls made for each input that is not a placeholder.  A node reached
    along two paths occurs twice. *)
Fixpoint calls (o : Operation) : list Operation :=
  o :: (if is_broadcast (op_tag o)
        then flat_map (fun t => if is_placeholder t then [] else calls t)
               (input_tensors o)
        else []).

(** The (consumer, placeholder) pairs met by these calls. *)
Fixpoint leaf_reads (o : Operation) : list (Operation * Tensor) :=
  if is_broadcast (op_tag o)
  then flat_map (fun t => if is_placeholder t then [(o, t)] else leaf_reads t)
         (input_tensors o)
  else [].

(** Reachability from the output along inputs of broadcast operations,
    placeholders excluded. *)
Inductive reached (root : Operation) : Operation -> Prop :=
| reached_root : reached root root
| reached_input : forall o t,
    reached root o ->
    is_broadcast (op_tag o) = true ->
    In t (input_tensors o) ->
    is_placeholder t = false ->
    reached root t.

Definition is_const_fold (output o : Operation) : bool :=
  is_broadcast (op_tag o) && negb (same_as o output) && no_axis o.

Definition is_elementwise (output o : Operation) : bool :=
  is_broadcast (op_tag o) && negb (same_as o output) && negb (no_axis o).

Definition is_conv_call (o : Operation) : bool := negb (is_broadcast (op_tag o)).

(** A call on [o] passes the tag assertion. *)
Definition tag_ok (o : Operation) : bool :=
  is_broadcast (op_tag o) || String.eqb (op_tag o) conv2d_tag.

(** The lists after the calls [cs], with the pairs [prs] recorded. *)
Definition classified_by (output : Operation) (c : Classified)
    (cs : list Operation) (prs : list (Operation * Tensor)) : Classified :=
  MkClassified (const_ops c ++ filter (is_const_fold output) cs)
    (ewise_inputs c ++ prs)
    (ewise_ops c ++ filter (is_elementwise output) cs)
    (conv2d_res c ++ filter is_conv_call cs).

(** All the operations appended by the classifier. *)
Definition appended (c : Classified) : list Operation :=
  const_ops c ++ ewise_ops c ++ conv2d_res c.

(** How many operations of a list have the identity [i]. *)
Definition count_id (i : nat) (l : list Operation) : nat :=
  count_occ Nat.eq_dec (map op_id l) i.

(** A graph with a shared node: [ex_relu] is read by [ex_mid] and by
    [ex_shared_out]. *)
Definition ex_bias : Tensor := placeholder 4 "bias" "int32" [1; 4; 1; 1; 1; 16].

Definition ex_relu : Tensor :=
  MkOp 5 ComputeOp "T_relu" "elemwise" "int32" [1; 4; 1; 1; 1; 16] []
    [ex_bias].

Definition ex_mid : Tensor :=
  MkOp 6 ComputeOp "T_add" "broadcast" "int32" [1; 4; 16; 16; 1; 16] []
    [ex_conv; ex_relu].

Definition ex_shared_out : Tensor :=
  MkOp 7 ComputeOp "T_add" "broadcast" "int32" [1; 4; 16; 16; 1; 16] []
    [ex_mid; ex_relu].

(** A graph without sharing: the convolution, a bias add and a cast. *)
Definition ex_add : Tensor :=
  MkOp 5 ComputeOp "T_add" "broadcast" "int32" [1; 4; 16; 16; 1; 16] []
    [ex_conv; ex_bias].

Definition ex_out : Tensor :=
  MkOp 6 ComputeOp "T_cast" "elemwise" "int8" [1; 4; 16; 16; 1; 16] []
    [ex_add].

(** The lists that the classifier builds for [ex_out]. *)
Definition ex_classified : Classified :=
  MkClassified [] [(ex_add, ex_bias)] [ex_add] [ex_conv].

(** A graph without any convolution. *)
Definition ex_no_conv : Tensor :=
  MkOp 5 ComputeOp "T_add" "broadcast" "int32" [1; 4; 16; 16; 1; 16] []
    [ex_data; ex_bias].

(** A fused add of two float tensors. *)
Definition ex_fa : Tensor := placeholder 0 "a" "float32" [1; 4; 56; 56; 1; 16].
Definition ex_fb : Tensor := placeholder 1 "b" "float32" [1; 4; 56; 56; 1; 16].
Definition ex_float_add : Tensor :=
  MkOp 2 ComputeOp "T_add" "broadcast" "float32" [1; 4; 56; 56; 1; 16] []
    [ex_fa; ex_fb].

(** A stage that no scheduling primitive has touched, inlining apart. *)
Definition untouched (st : Stage) : Prop :=
  leaf_iter_vars st = root_iter_vars (op st) /\
  relations st = [] /\
  scope st = "" /\
  iter_var_attrs st = [] /\
  (attach st = kGroupRoot \/ attach st = kInline).

(** ** Stages under the scheduling primitives *)

(** The identity under which a stage is found in the schedule. *)
Definition key (st : Stage) : nat := op_id (op st).

Definition stage_keys (s : Schedule) : list nat := map key (stages s).

(** A property of stages that only looks at the operation, the loop nest
    and the splits: it survives a change of scope, attach point or
    annotation. *)
Definition frame_stable (P : Stage -> Prop) : Prop :=
  forall st sc a attrs,
    P st ->
    P (MkStage (op st) (leaf_iter_vars st) (relations st) sc a attrs).

(** The loop nest of the stage is the one it was created with. *)
Definition pristine (st : Stage) : Prop :=
  leaf_iter_vars st = root_iter_vars (op st) /\ relations st = [].

(** [s'] has the stages of [s], in the same order and under the same
    identities, and only scopes, attach points and annotations differ. *)
Definition frame_step (s s' : Schedule) : Prop :=
  stage_keys s' = stage_keys s /\
  (forall P, frame_stable P -> Forall P (stages s) -> Forall P (stages s')) /\
  next_id s' = next_id s /\
  (forall x st,
      get_stage s x = Ok st ->
      exists st',
        get_stage s' x = Ok st' /\
        op st' = op st /\
        leaf_iter_vars st' = leaf_iter_vars st /\
        relations st' = relations st).

(** The stage of [x] in [s] is attached to the stage of [parent] at the
    axis [a]. *)
Definition attached_at (s : Schedule) (x parent : Operation) (a : IterVar)
    : Prop :=
  exists st, get_stage s x = Ok st /\ attach st = kScope (op_id parent) a.

(** ** The loop nests of the two schedules *)

(** The axes of the tiled output stage. *)
Definition outer_batch (output : Operation) : IterVar :=
  DataAxis (op_id output) 0.
Definition outer_channel (output : Operation) : IterVar :=
  SplitOuter (DataAxis (op_id output) 1).
Definition inner_channel (output : Operation) : IterVar :=
  SplitInner (DataAxis (op_id output) 1).
Definition outer_height (output : Operation) : IterVar :=
  SplitOuter (DataAxis (op_id output) 2).
Definition inner_height (output : Operation) : IterVar :=
  SplitInner (DataAxis (op_id output) 2).
Definition outer_width (output : Operation) : IterVar :=
  SplitOuter (DataAxis (op_id output) 3).
Definition inner_width (output : Operation) : IterVar :=
  SplitInner (DataAxis (op_id output) 3).
Definition inner_batch_block (output : Operation) : IterVar :=
  DataAxis (op_id output) 4.
Definition inner_channel_block (output : Operation) : IterVar :=
  DataAxis (op_id output) 5.

Definition output_tiles (output : Operation) : Tiles :=
  MkTiles (outer_batch output) (outer_channel output) (inner_channel output)
    (outer_height output) (inner_height output)
    (outer_width output) (inner_width output)
    (inner_batch_block output) (inner_channel_block output).

Definition tiled_order (output : Operation) : list IterVar :=
  [outer_batch output; outer_height output; outer_channel output;
   outer_width output; inner_channel output; inner_height output;
   inner_width output; inner_batch_block output; inner_channel_block output].

(** The stage of the output after tiling: the nine axes in order, then the
    reduce axes of the output operation, if it has any. *)
Definition tiled_stage (output : Operation) (st : Stage) (f_co f_h f_w : Z)
    : Stage :=
  MkStage (op st) (tiled_order output ++ reduce_axis (op st))
    [(DataAxis (op_id output) 1, f_co); (DataAxis (op_id output) 2, f_h);
     (DataAxis (op_id output) 3, f_w)]
    (scope st) (attach st) (iter_var_attrs st).

(** ** The steps of a successful [schedule_conv2d_packed] *)

(** The values that the steps of [schedule_conv2d_packed] produce. *)
Record Trace : Type := MkTrace {
  tr_output : Operation;
  tr_classified : Classified;
  tr_conv : Tensor;                      (* conv2d_stage *)
  tr_cdata : Tensor;
  tr_ckernel : Tensor;
  tr_cache_read_ewise : list Tensor;
  tr_scoped : Schedule;                  (* after line 145 *)
  tr_tiles : Tiles;
  tr_tiled : Schedule;                   (* after line 153 *)
  tr_attached : Schedule;                (* after line 162 *)
  tr_oc_threaded : Schedule;             (* after line 168 *)
  tr_threaded : Schedule;                (* after line 174 *)
  tr_k_o : IterVar;
  tr_x_bi : IterVar;
  tr_reduced : Schedule                  (* after line 182 *)
}.

(** [tr] records the run of [schedule_conv2d_packed env cfg outs] that
    returns the configuration [cfg'] and the schedule [s]. *)
Definition is_trace (env : Env) (cfg : Config) (outs : list Tensor)
    (cfg' : Config) (s : Schedule) (tr : Trace) : Prop :=
  outs = [tr_output tr] /\
  _traverse (tr_output tr) (tr_output tr) no_ops = Ok (tr_classified tr) /\
  conv2d_res (tr_classified tr) = [tr_conv tr] /\
  space_definition cfg (create_schedule [tr_output tr]) (tr_conv tr)
  = Ok cfg' /\
  setup_scopes env (create_schedule [tr_output tr]) (tr_conv tr)
    (tr_classified tr)
  = Ok (tr_cdata tr, tr_ckernel tr, tr_cache_read_ewise tr, tr_scoped tr) /\
  tile cfg' (tr_scoped tr) (tr_output tr) = Ok (tr_tiles tr, tr_tiled tr) /\
  set_compute_scopes env (tr_tiled tr) (tr_output tr) (tr_conv tr)
    (tr_classified tr) (tr_cache_read_ewise tr) (tr_tiles tr)
  = Ok (tr_attached tr) /\
  virtual_thread cfg' "oc_nthread" (tr_attached tr) (tr_output tr)
    (t_co0 (tr_tiles tr)) (t_bo (tr_tiles tr))
  = Ok (tr_oc_threaded tr) /\
  virtual_thread cfg' "h_nthread" (tr_oc_threaded tr) (tr_output tr)
    (t_i0 (tr_tiles tr)) (t_bo (tr_tiles tr))
  = Ok (tr_threaded tr) /\
  stage_reduction cfg' (tr_threaded tr) (tr_conv tr) (tr_cdata tr)
    (tr_ckernel tr)
  = Ok (tr_k_o tr, tr_x_bi tr, tr_reduced tr) /\
  use_vta_instructions env (tr_reduced tr) (tr_output tr) (tr_conv tr)
    (tr_cdata tr) (tr_ckernel tr) (tr_x_bi tr) (t_co1 (tr_tiles tr))
  = Ok s.

(** The run of [schedule_conv2d_packed] on [ex_out]. *)
Definition ex_run : Config * Schedule :=
  Eval vm_compute in
    match schedule_conv2d_packed ex_env ex_cfg [ex_out] with
    | Ok r => r
    | Raise _ => (ex_cfg, create_schedule [])
    end.

(** What is known of a stage once the output is tiled: a stage other than
    the output stage still has the loop nest it was created with, and the
    width axis of the output is no longer a loop of the output stage. *)
Definition after_tile (oid : nat) (st : Stage) : Prop :=
  (key st <> oid -> pristine st) /\
  (key st = oid -> is_leaf (DataAxis oid 3) (leaf_iter_vars st) = false).

(** The loop nest of the convolution stage after reduction staging. *)
Definition reduction_order (conv : Operation) : list IterVar :=
  [DataAxis (op_id conv) 0;
   SplitOuter (k_o conv); SplitInner (k_o conv);
   DataAxis (op_id conv) 3; d_j conv; d_i conv;
   DataAxis (op_id conv) 1; DataAxis (op_id conv) 2;
   DataAxis (op_id conv) 4; DataAxis (op_id conv) 5;
   k_i conv].

(** The tunables declared by [schedule_conv2d_packed], in order. *)
Definition declared_space (conv : Operation) : list (string * SpaceDecl) :=
  [("tile_b", DefineSplit (DataAxis (op_id conv) 0) 2);
   ("tile_h", DefineSplit (DataAxis (op_id conv) 2) 2);
   ("tile_w", DefineSplit (DataAxis (op_id conv) 3) 2);
   ("tile_ci", DefineSplit (k_o conv) 2);
   ("tile_co", DefineSplit (DataAxis (op_id conv) 1) 2);
   ("oc_nthread", DefineKnob [1; 2]);
   ("h_nthread", DefineKnob [1; 2])].

(** The stage of [conv] has the loop nest of reduction staging, with the
    one split of [k_o] by [f]. *)
Definition reduction_staged (conv : Operation) (f : Z) (st : Stage) : Prop :=
  key st = op_id conv ->
  leaf_iter_vars st = reduction_order conv /\
  relations st = [(k_o conv, f)].

(** The loop nest and the splits of the stage of [x] in [s]. *)
Definition loops_at (s : Schedule) (x : Operation) (leaves : list IterVar)
    (splits : list (IterVar * Z)) : Prop :=
  exists st,
    get_stage s x = Ok st /\ leaf_iter_vars st = leaves /\
    relations st = splits.


(** A fused add of two integer tensors. *)
Definition ex_ia : Tensor := placeholder 0 "a" "int32" [1; 4; 56; 56; 1; 16].
Definition ex_ib : Tensor := placeholder 1 "b" "int32" [1; 4; 56; 56; 1; 16].
Definition ex_int_add : Tensor :=
  MkOp 2 ComputeOp "T_add" "broadcast" "int32" [1; 4; 56; 56; 1; 16] []
    [ex_ia; ex_ib].

Definition ex_add_run : Schedule :=
  Eval vm_compute in
    match _schedule_add ex_env [ex_int_add] with
    | Ok s => s
    | Raise _ => create_schedule []
    end.

(** What one call of [post_dfs] adds: operations that were not visited
    before, with identities bounded by the bound. *)
Definition dfs_adds (bound : nat) (acc acc' : list nat * list Operation)
    : Prop :=
  (forall k, In k (fst acc) -> In k (fst acc')) /\
  exists new,
    snd acc' = snd acc ++ new /\
    Forall (fun x => ~ In (op_id x) (fst acc) /\ (op_id x <= bound)%nat) new.


(** Every stage is older than the next object to be created. *)
Definition fresh (s : Schedule) : Prop :=
  Forall (fun k => (k < next_id s)%nat) (stage_keys s).

(** Two operations that differ at most in their input tensors. *)
Definition same_signature (o o' : Operation) : Prop :=
  op_id o' = op_id o /\ op_kind o' = op_kind o /\
  shape o' = shape o /\ reduce_extents o' = reduce_extents o.

(** Every stage of [s] is found in [s'] under the same identity, with the
    same loop nest and splits, around the same operation up to its
    inputs. *)
Definition keeps_loops (s s' : Schedule) : Prop :=
  forall x st,
    get_stage s x = Ok st ->
    exists st',
      get_stage s' x = Ok st' /\
      same_signature (op st) (op st') /\
      leaf_iter_vars st' = leaf_iter_vars st /\
      relations st' = relations st.

(** [s'] has the stages of [s] under the same identities, with the same
    loop nests and splits. *)
Definition loop_step (s s' : Schedule) : Prop :=
  stage_keys s' = stage_keys s /\
  next_id s' = next_id s /\
  keeps_loops s s'.

(** [s'] may have new stages, made for new objects. *)
Definition grow_step (s s' : Schedule) : Prop :=
  fresh s -> fresh s' /\ keeps_loops s s'.

(** Induction over an operation and, nested, over its input tensors. *)
Section OperationInduction.

Variable P : Operation -> Prop.
Hypothesis step : forall o, Forall P (input_tensors o) -> P o.

Fixpoint Operation_nested_ind (o : Operation) : P o :=
  step o
    ((fix inputs (l : list Operation) : Forall P l :=
        match l with
        | [] => Forall_nil P
        | x :: l' => Forall_cons x (Operation_nested_ind x) (inputs l')
        end) (input_tensors o)).

End OperationInduction.

(** * Further specification-side definitions *)

(** A kernel of another input-channel blocking. *)
Definition ex_kernel_narrow : Tensor :=
  placeholder 1 "kernel" "int8" [4; 2; 3; 3; 16; 8].

(** [n] has no divisor other than 1 and itself. *)
Definition no_proper_divisor (n : Z) : Prop :=
  forall d, 1 <= d -> (d | n) -> d = 1 \/ d = n.

(** A fused add over an empty height axis. *)
Definition ex_empty_add : Tensor :=
  MkOp 2 ComputeOp "T_add" "broadcast" "int32" [1; 4; 0; 56; 1; 16] []
    [placeholder 0 "a" "int32" [1; 4; 0; 56; 1; 16];
     placeholder 1 "b" "int32" [1; 4; 0; 56; 1; 16]].

(** A fused add of height 29 and width 7. *)
Definition ex_odd_add : Tensor :=
  MkOp 2 ComputeOp "T_add" "broadcast" "int32" [1; 4; 29; 7; 1; 16] []
    [placeholder 0 "a" "int32" [1; 4; 29; 7; 1; 16];
     placeholder 1 "b" "int32" [1; 4; 29; 7; 1; 16]].

Definition ex_odd_add_run : Schedule :=
  Eval vm_compute in
    match _schedule_add ex_env [ex_odd_add] with
    | Ok s => s
    | Raise _ => create_schedule []
    end.

(** ** The classifier of [_schedule_add], seen from outside *)

(** An operation that [_schedule_add] stages on the accelerator: tagged
    broadcast or elementwise, not the output, with iteration axes, and not
    a cast. *)
Definition staged_op (output o : Operation) : Prop :=
  is_broadcast (op_tag o) = true /\ same_as o output = false /\
  no_axis o = false /\ is_cast_op o = false.

(** An operation that [_schedule_add] inlines as a constant. *)
Definition folded_op (output o : Operation) : Prop :=
  is_broadcast (op_tag o) = true /\ same_as o output = false /\
  no_axis o = true.

(** A (consumer, tensor) pair that [_schedule_add] caches: the consumer is
    tagged broadcast or elementwise and reads the tensor, which is a
    placeholder or, under a consumer other than the output, a cast. *)
Definition cached_read (output : Operation) (p : Operation * Tensor) : Prop :=
  is_broadcast (op_tag (fst p)) = true /\
  In (snd p) (input_tensors (fst p)) /\
  (is_placeholder (snd p) = true \/
   (is_compute (snd p) = true /\ is_cast_op (snd p) = true /\
    same_as (fst p) output = false)).

Definition add_lists_ok (output : Operation) (c : AddClassified) : Prop :=
  Forall (staged_op output) (add_ewise_ops c) /\
  Forall (folded_op output) (add_const_ops c) /\
  Forall (cached_read output) (add_ewise_inputs c).

(** A fused add whose operands are a cast and a scaled cast. *)
Definition ex_cast_a : Tensor :=
  MkOp 2 ComputeOp "T_cast" "elemwise" "int32" [1; 4; 56; 56; 1; 16] []
    [placeholder 0 "a" "int8" [1; 4; 56; 56; 1; 16]].

Definition ex_cast_b : Tensor :=
  MkOp 3 ComputeOp "T_cast" "elemwise" "int32" [1; 4; 56; 56; 1; 16] []
    [placeholder 1 "b" "int8" [1; 4; 56; 56; 1; 16]].

Definition ex_scaled : Tensor :=
  MkOp 5 ComputeOp "T_multiply" "broadcast" "int32" [1; 4; 56; 56; 1; 16] []
    [ex_cast_b; MkOp 4 ComputeOp "scale" "broadcast" "int32" [] [] []].

Definition ex_cast_add : Tensor :=
  MkOp 6 ComputeOp "T_add" "broadcast" "int32" [1; 4; 56; 56; 1; 16] []
    [ex_cast_a; ex_scaled].

(** ** Configurations *)

(** The configuration [cfg] with the tunable [name] resolved to [e]. *)
Definition with_entity (cfg : Config) (name : string) (e : Entity) : Config :=
  MkConfig (space_map cfg) ((name, e) :: entity_map cfg) (flop cfg).

(** The configuration [cfg] with the tunable [name] left unresolved. *)
Definition without_entity (cfg : Config) (name : string) : Config :=
  MkConfig (space_map cfg)
    (filter (fun p => negb (String.eqb (fst p) name)) (entity_map cfg))
    (flop cfg).

(** The schedule of a result, without the configuration. *)
Definition schedule_of (r : result (Config * Schedule)) : result Schedule :=
  '(_, s) <- r ;; Ok s.

(** Two configurations that resolve every tunable other than [name] alike. *)
Definition agree_off (name : string) (cfg1 cfg2 : Config) : Prop :=
  forall n, n <> name -> cfg_get cfg1 n = cfg_get cfg2 n.

(** ** Facts about one stage of a schedule *)

(** The stage found for [x] in [s] satisfies [P]. *)
Definition stage_at (s : Schedule) (x : Operation) (P : Stage -> Prop) : Prop :=
  exists st, get_stage s x = Ok st /\ P st.

(** Properties of a stage that do not depend on one of its fields. *)
Definition ignores_op (P : Stage -> Prop) : Prop :=
  forall st o',
    P st ->
    P (MkStage o' (leaf_iter_vars st) (relations st) (scope st) (attach st)
         (iter_var_attrs st)).

Definition ignores_loops (P : Stage -> Prop) : Prop :=
  forall st l r,
    P st -> P (MkStage (op st) l r (scope st) (attach st) (iter_var_attrs st)).

Definition ignores_scope (P : Stage -> Prop) : Prop :=
  forall st sc,
    P st ->
    P (MkStage (op st) (leaf_iter_vars st) (relations st) sc (attach st)
         (iter_var_attrs st)).

Definition ignores_attach (P : Stage -> Prop) : Prop :=
  forall st a,
    P st ->
    P (MkStage (op st) (leaf_iter_vars st) (relations st) (scope st) a
         (iter_var_attrs st)).

(** Properties of a stage that survive a new annotation. *)
Definition grows_with_attrs (P : Stage -> Prop) : Prop :=
  forall st a,
    P st ->
    P (MkStage (op st) (leaf_iter_vars st) (relations st) (scope st)
         (attach st) (iter_var_attrs st ++ [a])).

(** Properties that the steps after the memory scopes cannot undo. *)
Definition settled (P : Stage -> Prop) : Prop :=
  ignores_loops P /\ ignores_attach P /\ grows_with_attrs P.

(** The stage carries the annotation [a] on the axis [v]. *)
Definition annotated (v : IterVar) (a : IterVarAttr) (st : Stage) : Prop :=
  In (v, a) (iter_var_attrs st).

Definition scoped (sc : string) (st : Stage) : Prop := scope st = sc.

Definition has_loops (leaves : list IterVar) (splits : list (IterVar * Z))
    (st : Stage) : Prop :=
  leaf_iter_vars st = leaves /\ relations st = splits.

(** ** The loop nest of the output stage under virtual threading *)

(** The thread axes made by the two virtual-threading blocks. *)
Definition channel_thread (output : Operation) : IterVar :=
  SplitInner (outer_channel output).
Definition height_thread (output : Operation) : IterVar :=
  SplitInner (outer_height output).

(** The loops of the output stage at the end of the schedule, by whether
    the output-channel knob and the height knob exceed 1. *)
Definition threaded_order (output : Operation) (oc h : bool) : list IterVar :=
  match oc, h with
  | false, false => tiled_order output
  | true, false =>
      [channel_thread output; outer_height output;
       SplitOuter (outer_channel output); outer_batch output;
       outer_width output; inner_channel output; inner_height output;
       inner_width output; inner_batch_block output;
       inner_channel_block output]
  | false, true =>
      [height_thread output; SplitOuter (outer_height output);
       outer_batch output; outer_channel output;
       outer_width output; inner_channel output; inner_height output;
       inner_width output; inner_batch_block output;
       inner_channel_block output]
  | true, true =>
      [channel_thread output; SplitOuter (outer_height output);
       height_thread output; SplitOuter (outer_channel output);
       outer_batch output;
       outer_width output; inner_channel output; inner_height output;
       inner_width output; inner_batch_block output;
       inner_channel_block output]
  end.

(** The splits of the output stage: the three tiles, then one split per
    virtual-threading block that is taken. *)
Definition threaded_splits (output : Operation) (f_co f_h f_w n_oc n_h : Z)
    : list (IterVar * Z) :=
  [(DataAxis (op_id output) 1, f_co); (DataAxis (op_id output) 2, f_h);
   (DataAxis (op_id output) 3, f_w)]
  ++ (if n_oc >? 1 then [(outer_channel output, n_oc)] else [])
  ++ (if n_h >? 1 then [(outer_height output, n_h)] else []).

(** ** The operations recorded by the classifier of [_schedule_add] *)




(** The stage is attached to the stage of [parent] at the axis [a]. *)
Definition attached (parent : Operation) (a : IterVar) (st : Stage) : Prop :=
  attach st = kScope (op_id parent) a.


(** A fused add of rank 4. *)
Definition ex_flat_add : Tensor :=
  MkOp 2 ComputeOp "T_add" "broadcast" "int32" [1; 64; 56; 56] []
    [placeholder 0 "a" "int32" [1; 64; 56; 56];
     placeholder 1 "b" "int32" [1; 64; 56; 56]].

(** * Properties *)

Unset Implicit Arguments.

(** ** Generic facts *)

Lemma bind_Ok {A B : Type} (m : result A) (k : A -> result B) (b : B) :
  bind m k = Ok b -> exists a, m = Ok a /\ k a = Ok b.
Proof.
  destruct m as [a|e]; simpl; intros H; [eauto | discriminate].
Qed.

Lemma assert_Ok (b : bool) (u : unit) : assert b = Ok u -> b = true.
Proof. destruct b; simpl; [reflexivity | discriminate]. Qed.

(** Inversion of a successful chain of binds, one step at a time. *)
Ltac inv_bind H :=
  let a := fresh "a" in
  let Ha := fresh "Ha" in
  apply bind_Ok in H; destruct H as [a [Ha H]].

Tactic Notation "bind_inv" hyp(H) "as" simple_intropattern(x) ident(Hx) :=
  apply bind_Ok in H; destruct H as [x [Hx H]].

(** ** int64 products *)

Lemma wrap64_mod (z : Z) : wrap64 z mod 2 ^ 64 = z mod 2 ^ 64.
Proof.
  unfold wrap64.
  rewrite Zminus_mod, Zmod_mod, <- Zminus_mod.
  replace (z + 2 ^ 63 - 2 ^ 63) with z by lia. reflexivity.
Qed.

Lemma wrap64_congr (a b : Z) :
  a mod 2 ^ 64 = b mod 2 ^ 64 -> wrap64 a = wrap64 b.
Proof.
  intros H. unfold wrap64.
  rewrite (Zplus_mod a), (Zplus_mod b), H. reflexivity.
Qed.

Lemma np_mul_wrap_l (a b : Z) : np_mul (wrap64 a) b = wrap64 (a * b).
Proof.
  unfold np_mul. apply wrap64_congr.
  rewrite Zmult_mod, wrap64_mod, <- Zmult_mod. reflexivity.
Qed.

Lemma np_mul_wrap_r (a b : Z) : np_mul a (wrap64 b) = wrap64 (a * b).
Proof.
  unfold np_mul. apply wrap64_congr.
  rewrite Zmult_mod, wrap64_mod, <- Zmult_mod. reflexivity.
Qed.

Lemma wrap64_id (z : Z) : int64_range z -> wrap64 z = z.
Proof.
  unfold int64_range, wrap64. intros H.
  rewrite Z.mod_small by lia. lia.
Qed.

Lemma fold_np_mul (l : list Z) (a : Z) :
  fold_left np_mul l (wrap64 a) = wrap64 (a * volume l).
Proof.
  revert a. induction l as [|x l IH]; intros a; simpl.
  - f_equal. lia.
  - rewrite np_mul_wrap_l, IH. f_equal. lia.
Qed.

Lemma np_prod_volume (l : list Z) : np_prod l = wrap64 (volume l).
Proof.
  unfold np_prod. change 1 with (wrap64 1) at 1.
  rewrite fold_np_mul. f_equal. lia.
Qed.

(** ** conv2d_packed *)

Lemma conv2d_packed_run (ipl : string -> bool) cfg data kernel layout out_dtype
    sh sw ph pw b ci h w bi cii ko kci kh kw koi kii :
  ipl layout = true ->
  shape data = [b; ci; h; w; bi; cii] ->
  shape kernel = [ko; kci; kh; kw; koi; kii] ->
  sh <> 0 -> sw <> 0 ->
  let pad_data :=
    if negb (ph =? 0)
    then MkOp (fresh_id [data; kernel]) ComputeOp "pad_data" "injective,pad"
           (dtype data) [b; ci; h + ph + ph; w + pw + pw; bi; cii] [] [data]
    else data in
  let eh := if negb (ph =? 0) then h + ph + ph else h in
  let ew := if negb (ph =? 0) then w + pw + pw else w in
  let oshape := [b; ko; (eh - kh) / sh + 1; (ew - kw) / sw + 1; bi; koi] in
  conv2d_packed ipl cfg data kernel (sh, sw) (ph, pw) (1, 1) layout out_dtype
  = Ok (add_flop cfg
          (np_mul (np_mul (np_mul (np_mul (np_mul 2 (np_prod oshape)) kh) kw)
                     ci) cii),
        MkOp (fresh_id [pad_data; kernel]) ComputeOp "res" "conv2d_dense"
          out_dtype oshape [ci; kh; kw; cii] [pad_data; kernel]).
Proof.
  intros Hl Hd Hk Hsh Hsw. unfold conv2d_packed. rewrite Hl. simpl.
  unfold topi_nn_pad, floordiv, index_last. rewrite Hd, Hk.
  destruct (ph =? 0) eqn:Hp; simpl;
    rewrite ?Hd, ?Hk; simpl;
    destruct (sh =? 0) eqn:E1; try lia;
    destruct (sw =? 0) eqn:E2; try lia; 
    simpl; rewrite ?Hd; simpl; try reflexivity.
  all: replace (h + ph + ph) with (h + ph + ph) by lia.
  all: rewrite ?Z.add_0_r; reflexivity.
Qed.

Lemma conv2d_packed_zero_stride (ipl : string -> bool) cfg data kernel layout
    out_dtype sh sw ph pw b ci h w bi cii ko kci kh kw koi kii :
  ipl layout = true ->
  shape data = [b; ci; h; w; bi; cii] ->
  shape kernel = [ko; kci; kh; kw; koi; kii] ->
  sh = 0 \/ sw = 0 ->
  conv2d_packed ipl cfg data kernel (sh, sw) (ph, pw) (1, 1) layout out_dtype
  = Raise TVMError.
Proof.
  intros Hl Hd Hk Hs. unfold conv2d_packed. rewrite Hl. simpl.
  unfold topi_nn_pad, floordiv. rewrite Hd, Hk.
  destruct (ph =? 0) eqn:Hp; simpl; rewrite ?Hd, ?Hk; simpl;
    destruct (sh =? 0) eqn:E1; simpl; try reflexivity;
    destruct (sw =? 0) eqn:E2; simpl; try reflexivity;
    apply Z.eqb_neq in E1, E2; lia.
Qed.

(** The shape of whatever [conv2d_packed] returns: the spatial extents are
    taken from the tensor that is convolved, which is padded only when the
    height padding is non-zero. *)
Lemma conv2d_packed_Ok_shape (ipl : string -> bool) cfg data kernel layout
    out_dtype dil sh sw ph pw b ci h w bi cii ko kci kh kw koi kii cfg' res :
  shape data = [b; ci; h; w; bi; cii] ->
  shape kernel = [ko; kci; kh; kw; koi; kii] ->
  conv2d_packed ipl cfg data kernel (sh, sw) (ph, pw) dil layout out_dtype
  = Ok (cfg', res) ->
  shape res
  = [b; ko;
     ((if negb (ph =? 0) then h + ph + ph else h) - kh) / sh + 1;
     ((if negb (ph =? 0) then w + pw + pw else w) - kw) / sw + 1;
     bi; koi].
Proof.
  intros Hd Hk Hrun.
  assert (Hl : ipl layout = true).
  { unfold conv2d_packed in Hrun. destruct (ipl layout); [reflexivity|].
    discriminate. }
  assert (Hdil : dil = (1, 1)).
  { unfold conv2d_packed in Hrun. rewrite Hl in Hrun. simpl in Hrun.
    inv_bind Hrun. apply assert_Ok in Ha.
    destruct dil as [d1 d2]. unfold pair_eqb in Ha. simpl in Ha.
    apply andb_prop in Ha. destruct Ha as [H1 H2].
    apply Z.eqb_eq in H1, H2. subst. reflexivity. }
  subst dil.
  assert (Hs : sh <> 0 /\ sw <> 0).
  { destruct (Z.eq_dec sh 0) as [E1|E1]; [|destruct (Z.eq_dec sw 0) as [E2|E2]];
      [| |split; assumption]; exfalso;
      rewrite (conv2d_packed_zero_stride ipl cfg data kernel layout out_dtype
                 sh sw ph pw b ci h w bi cii ko kci kh kw koi kii
                 Hl Hd Hk) in Hrun by tauto; discriminate. }
  destruct Hs as [Hsh Hsw].
  rewrite (conv2d_packed_run ipl cfg data kernel layout out_dtype
             sh sw ph pw b ci h w bi cii ko kci kh kw koi kii
             Hl Hd Hk Hsh Hsw) in Hrun.
  cbv zeta in Hrun. injection Hrun as _ <-. reflexivity.
Qed.

(** C1: the output of [conv2d_packed] does not have the extents
    floor((in + 2*pad - k) / stride) + 1 at every padding pair.  Whatever the
    call returns has the shape [activation_outer_batch, kernel_outer_channel,
    out_h, out_w, activation_inner_batch, kernel_inner_channel], and its
    spatial extents follow that formula when the height padding is non-zero
    or the width padding is zero.  With no height padding the guard on
    [padding[0]] skips the pad, both extents are floor((in - k) / stride) + 1,
    and the width differs from the formula as soon as twice the width padding
    reaches a positive stride.  For the activation [1,4,16,16,1,16], the
    kernel [4,4,3,3,16,16], strides (1,1) and padding (0,1) the call returns
    a tensor of shape [1,4,14,14,1,16] where the formula gives width 16. *)
Theorem conv2d_packed_output_shape :
  (forall (ipl : string -> bool) cfg data kernel layout out_dtype dil
          sh sw ph pw b ci h w bi cii ko kci kh kw koi kii cfg' res,
      shape data = [b; ci; h; w; bi; cii] ->
      shape kernel = [ko; kci; kh; kw; koi; kii] ->
      conv2d_packed ipl cfg data kernel (sh, sw) (ph, pw) dil layout out_dtype
      = Ok (cfg', res) ->
      (ph <> 0 \/ pw = 0 ->
       shape res = [b; ko; (h + 2 * ph - kh) / sh + 1;
                    (w + 2 * pw - kw) / sw + 1; bi; koi]) /\
      (ph = 0 ->
       shape res = [b; ko; (h - kh) / sh + 1; (w - kw) / sw + 1; bi; koi]) /\
      (ph = 0 -> 0 < sw -> sw <= 2 * pw ->
       shape res <> [b; ko; (h + 2 * ph - kh) / sh + 1;
                     (w + 2 * pw - kw) / sw + 1; bi; koi])) /\
  (exists cfg' res,
      conv2d_packed any_layout ex_cfg ex_data ex_kernel (1, 1) (0, 1) (1, 1)
        "NCHW1n16c" "int32" = Ok (cfg', res) /\
      shape res = [1; 4; 14; 14; 1; 16] /\
      shape res <> [1; 4; (16 + 2 * 0 - 3) / 1 + 1; (16 + 2 * 1 - 3) / 1 + 1;
                    1; 16]).
Proof.
  split.
  - intros ipl cfg data kernel layout out_dtype dil sh sw ph pw
           b ci h w bi cii ko kci kh kw koi kii cfg' res Hd Hk Hrun.
    pose proof (conv2d_packed_Ok_shape ipl cfg data kernel layout out_dtype
                  dil sh sw ph pw b ci h w bi cii ko kci kh kw koi kii
                  cfg' res Hd Hk Hrun) as Hshape.
    rewrite Hshape. clear Hshape Hrun.
    split; [|split].
    + intros Hp. destruct (ph =? 0) eqn:E; cbn [negb].
      * apply Z.eqb_eq in E. destruct Hp as [Hp|Hp]; [contradiction|].
        subst ph pw. rewrite !Z.mul_0_r, !Z.add_0_r. reflexivity.
      * replace (h + 2 * ph) with (h + ph + ph) by lia.
        replace (w + 2 * pw) with (w + pw + pw) by lia. reflexivity.
    + intros ->. reflexivity.
    + intros -> Hsw Hpw E. cbn [Z.eqb negb] in E.
      assert (Hw : (w - kw) / sw + 1 = (w + 2 * pw - kw) / sw + 1).
      { change ((w - kw) / sw + 1)
          with (nth 3 [b; ko; (h - kh) / sh + 1; (w - kw) / sw + 1; bi; koi]
                  0).
        rewrite E. reflexivity. }
      assert (Hle : (w - kw + 1 * sw) / sw <= (w + 2 * pw - kw) / sw)
        by (apply Z.div_le_mono; lia).
      rewrite Z.div_add in Hle by lia. lia.
  - eexists _, _. split; [vm_compute; reflexivity|].
    split; [reflexivity|]. vm_compute. discriminate.
Qed.

Lemma conv2d_packed_output_shape_witness :
  shape (snd (add_flop ex_cfg 18874368, ex_conv))
  = [1; 4; (16 + 2 * 1 - 3) / 1 + 1; (16 + 2 * 1 - 3) / 1 + 1; 1; 16].
Proof.
  refine (proj1 (proj1 conv2d_packed_output_shape any_layout ex_cfg ex_data
                   ex_kernel "NCHW1n16c" "int32" (1, 1) 1 1 1 1
                   1 4 16 16 1 16 4 4 3 3 16 16
                   (add_flop ex_cfg 18874368) ex_conv _ _ _) _).
  - reflexivity.
  - reflexivity.
  - vm_compute. reflexivity.
  - left. discriminate.
Defined.

(** C2, at the failing input: with the padding pair (0, 1) the guard on the
    height padding alone skips the pad node, so the width is not padded: the
    convolution reads the activation itself and the output width is 14
    where a padded width would give 16. *)
Theorem conv2d_packed_width_padding_dropped :
  exists cfg' res,
    conv2d_packed any_layout ex_cfg ex_data ex_kernel (1, 1) (0, 1) (1, 1)
      "NCHW1n16c" "int32" = Ok (cfg', res) /\
    input_tensors res = [ex_data; ex_kernel] /\
    shape res = [1; 4; 14; 14; 1; 16] /\
    (16 + 2 * 1 - 3) / 1 + 1 = 16.
Proof.
  eexists _, _. split; [vm_compute; reflexivity|].
  repeat split.
Qed.

(** C3, as stated, fails on its own example: the count recorded for the
    activation [1,4,16,16,1,16] and the kernel [4,4,3,3,16,16] is not
    226,492,416. *)
Lemma conv2d_packed_flop_example_refuted :
  ~ (exists cfg' res,
       conv2d_packed any_layout ex_cfg ex_data ex_kernel (1, 1) (1, 1) (1, 1)
         "NCHW1n16c" "int32" = Ok (cfg', res) /\
       flop cfg' = flop ex_cfg + 226492416).
Proof.
  intros [cfg' [res [H Hf]]].
  vm_compute in H. injection H as <- _. vm_compute in Hf. discriminate.
Qed.

(** C3, amended: a successful [conv2d_packed] adds to the cost accumulator
    exactly 2 * output_volume * kernel_height * kernel_width *
    input_outer_channel * input_inner_channel, provided that count fits the
    signed 64-bit integer it is computed in; for the activation
    [1,4,16,16,1,16], kernel [4,4,3,3,16,16], stride (1,1), padding (1,1) the
    recorded count is 18,874,368 and the output shape is
    [1,4,16,16,1,16]. *)
Theorem conv2d_packed_flop :
  (forall (ipl : string -> bool) cfg data kernel strides padding dilation
          layout out_dtype cfg' res b ci h w bi cii ko kci kh kw koi kii,
      conv2d_packed ipl cfg data kernel strides padding dilation layout
        out_dtype = Ok (cfg', res) ->
      shape data = [b; ci; h; w; bi; cii] ->
      shape kernel = [ko; kci; kh; kw; koi; kii] ->
      int64_range (2 * volume (shape res) * kh * kw * ci * cii) ->
      flop cfg' = flop cfg + 2 * volume (shape res) * kh * kw * ci * cii) /\
  (exists cfg' res,
      conv2d_packed any_layout ex_cfg ex_data ex_kernel (1, 1) (1, 1) (1, 1)
        "NCHW1n16c" "int32" = Ok (cfg', res) /\
      flop cfg' = flop ex_cfg + 18874368 /\
      shape res = [1; 4; 16; 16; 1; 16]).
Proof.
  split.
  - intros ipl cfg data kernel [sh sw] [ph pw] dil layout out_dtype cfg' res
           b ci h w bi cii ko kci kh kw koi kii Hrun Hd Hk Hrange.
    assert (Hl : ipl layout = true).
    { unfold conv2d_packed in Hrun. destruct (ipl layout); [reflexivity|].
      discriminate. }
    assert (Hdil : dil = (1, 1)).
    { unfold conv2d_packed in Hrun. rewrite Hl in Hrun. simpl in Hrun.
      inv_bind Hrun. apply assert_Ok in Ha.
      destruct dil as [d1 d2]. unfold pair_eqb in Ha. simpl in Ha.
      apply andb_prop in Ha. destruct Ha as [H1 H2].
      apply Z.eqb_eq in H1, H2. subst. reflexivity. }
    subst dil.
    assert (Hs : sh <> 0 /\ sw <> 0).
    { destruct (Z.eq_dec sh 0) as [E1|E1]; [|destruct (Z.eq_dec sw 0) as [E2|E2]];
        [| |split; assumption]; exfalso;
        rewrite (conv2d_packed_zero_stride ipl cfg data kernel layout out_dtype
                   sh sw ph pw b ci h w bi cii ko kci kh kw koi kii
                   Hl Hd Hk) in Hrun by tauto; discriminate. }
    destruct Hs as [Hsh Hsw].
    rewrite (conv2d_packed_run ipl cfg data kernel layout out_dtype
               sh sw ph pw b ci h w bi cii ko kci kh kw koi kii
               Hl Hd Hk Hsh Hsw) in Hrun.
    cbv zeta in Hrun. injection Hrun as <- <-.
    cbn [shape] in Hrange |- *. unfold add_flop. cbn [flop]. f_equal.
    rewrite np_prod_volume, np_mul_wrap_r, !np_mul_wrap_l.
    apply wrap64_id. exact Hrange.
  - eexists _, _. split; [vm_compute; reflexivity|]. split; reflexivity.
Qed.

Lemma conv2d_packed_flop_witness :
  int64_range (2 * volume (shape ex_conv) * 3 * 3 * 4 * 16) /\
  flop (add_flop ex_cfg 18874368)
  = flop ex_cfg + 2 * volume (shape ex_conv) * 3 * 3 * 4 * 16.
Proof.
  split.
  - unfold int64_range. vm_compute. split; [discriminate | reflexivity].
  - apply (proj1 conv2d_packed_flop any_layout ex_cfg ex_data ex_kernel
             (1, 1) (1, 1) (1, 1) "NCHW1n16c" "int32"
             (add_flop ex_cfg 18874368) ex_conv
             1 4 16 16 1 16 4 4 3 3 16 16).
    + vm_compute. reflexivity.
    + reflexivity.
    + reflexivity.
    + unfold int64_range. vm_compute. split; [discriminate | reflexivity].
Defined.

(** ** The tile factors of [_schedule_add] *)

Lemma In_range (lo hi x : Z) : In x (range lo hi) <-> lo <= x < hi.
Proof.
  unfold range. rewrite in_map_iff. split.
  - intros [k [<- Hk]]. apply in_seq in Hk. lia.
  - intros H. exists (Z.to_nat (x - lo)). split; [lia|].
    apply in_seq. lia.
Qed.

Lemma In_insert_sorted (x y : Z) (l : list Z) :
  In y (insert_sorted x l) <-> y = x \/ In y l.
Proof.
  induction l as [|z l IH]; simpl.
  - intuition.
  - destruct (x <=? z); simpl; [intuition|]. rewrite IH. intuition.
Qed.

Lemma In_sorted (y : Z) (l : list Z) : In y (sorted l) <-> In y l.
Proof.
  unfold sorted. induction l as [|x l IH]; simpl; [tauto|].
  rewrite In_insert_sorted, IH. intuition.
Qed.

Lemma insert_sorted_ascending (x : Z) (l : list Z) :
  ascending l -> ascending (insert_sorted x l).
Proof.
  induction l as [|z l IH]; simpl; intros H.
  - split; [intros y []|exact I].
  - destruct H as [Hz Hl]. destruct (x <=? z) eqn:E.
    + apply Z.leb_le in E. simpl. split; [|split; assumption].
      intros y [<-|Hy]; [assumption|]. specialize (Hz y Hy). lia.
    + apply Z.leb_gt in E. simpl. split; [|apply IH; assumption].
      intros y Hy. apply In_insert_sorted in Hy.
      destruct Hy as [->|Hy]; [lia|apply Hz; assumption].
Qed.

Lemma sorted_ascending (l : list Z) : ascending (sorted l).
Proof.
  unfold sorted. induction l as [|x l IH]; simpl; [exact I|].
  apply insert_sorted_ascending. exact IH.
Qed.

Lemma descending_snoc (l : list Z) (x : Z) :
  descending l -> (forall y, In y l -> x <= y) -> descending (l ++ [x]).
Proof.
  induction l as [|z l IH]; simpl; intros Hd Hx.
  - split; [intros y []|exact I].
  - destruct Hd as [Hz Hl]. split.
    + intros y Hy. apply in_app_or in Hy. destruct Hy as [Hy|[<-|[]]].
      * apply Hz; assumption.
      * apply Hx. left. reflexivity.
    + apply IH; [assumption|]. intros y Hy. apply Hx. right. assumption.
Qed.

Lemma ascending_rev (l : list Z) : ascending l -> descending (rev l).
Proof.
  induction l as [|x l IH]; simpl; intros H; [exact I|].
  destruct H as [Hx Hl]. apply descending_snoc; [apply IH; assumption|].
  intros y Hy. apply in_rev in Hy. apply Hx; assumption.
Qed.

Lemma pop_while_above_spec (ceiling : Z) (below : list Z) :
  forall f,
    descending (f :: below) ->
    (exists x, In x (f :: below) /\ x <= ceiling) ->
    exists m, pop_while_above ceiling f below = Ok m /\
              In m (f :: below) /\ m <= ceiling /\
              forall x, In x (f :: below) -> x <= ceiling -> x <= m.
Proof.
  induction below as [|g below IH]; intros f Hd [x [Hx Hxc]].
  - simpl. destruct Hx as [<-|[]].
    destruct (f >? ceiling) eqn:E; [lia|].
    exists f. repeat split; [left; reflexivity|lia|].
    intros y [<-|[]] _. lia.
  - simpl. destruct (f >? ceiling) eqn:E.
    + destruct Hd as [Hf Hd].
      destruct (IH g Hd) as [m [Hm [Hin [Hmc Hmax]]]].
      { destruct Hx as [<-|Hx]; [lia|]. exists x. split; assumption. }
      exists m. split; [exact Hm|]. split; [right; exact Hin|].
      split; [exact Hmc|]. intros y [<-|Hy] Hyc; [lia|].
      apply Hmax; assumption.
    + exists f. split; [reflexivity|]. split; [left; reflexivity|].
      split; [lia|]. destruct Hd as [Hf _].
      intros y [<-|Hy] _; [lia|apply Hf; assumption].
Qed.

Lemma select_factor_spec (ceiling : Z) (fs : list Z) :
  ascending fs ->
  (exists x, In x fs /\ x <= ceiling) ->
  exists m, select_factor ceiling fs = Ok m /\ In m fs /\ m <= ceiling /\
            forall x, In x fs -> x <= ceiling -> x <= m.
Proof.
  intros Ha [x [Hx Hxc]]. unfold select_factor.
  pose proof (ascending_rev fs Ha) as Hd.
  assert (Hin : forall y, In y fs <-> In y (rev fs))
    by (intros y; apply in_rev).
  destruct (rev fs) as [|f below] eqn:E.
  - apply Hin in Hx. destruct Hx.
  - destruct (pop_while_above_spec ceiling below f Hd) as [m [Hm [Hi [Hc Hmax]]]].
    { exists x. split; [apply Hin; assumption|assumption]. }
    exists m. split; [exact Hm|]. split; [apply Hin; exact Hi|].
    split; [exact Hc|]. intros y Hy. apply Hmax. apply Hin. exact Hy.
Qed.

Lemma sqrt_ge_1 (n : Z) : 1 <= n -> 1 <= Z.sqrt n.
Proof.
  intros Hn. assert (0 < Z.sqrt n) by (apply Z.sqrt_pos; lia). lia.
Qed.

Lemma divisor_pairs (n d : Z) :
  1 <= n ->
  (1 <= d /\ (d | n)) <->
  (exists i, In i (filter (fun i => n mod i =? 0) (range 1 (Z.sqrt n + 1)))
             /\ (d = i \/ d = n / i)).
Proof.
  intros Hn.
  pose proof (Z.sqrt_spec n ltac:(lia)) as Hs. cbv zeta in Hs.
  assert (Hs1 : 1 <= Z.sqrt n) by (apply sqrt_ge_1; exact Hn).
  split.
  - intros [Hd [q Hq]].
    assert (Hqpos : 1 <= q) by nia.
    destruct (Z_le_gt_dec d (Z.sqrt n)) as [Hle|Hgt].
    + exists d. split; [|left; reflexivity].
      apply filter_In. split; [apply In_range; lia|].
      apply Z.eqb_eq. subst n. apply Z.mod_mul. lia.
    + exists q. split.
      * apply filter_In. split.
        -- apply In_range. split; [lia|].
           destruct (Z_le_gt_dec q (Z.sqrt n)); [lia|nia].
        -- apply Z.eqb_eq. subst n. replace (q * d) with (d * q) by lia.
           apply Z.mod_mul. lia.
      * right. subst n. replace (q * d) with (d * q) by lia.
        symmetry. apply Z.div_mul. lia.
  - intros [i [Hi Hd]]. apply filter_In in Hi. destruct Hi as [Hr Hm].
    apply In_range in Hr. apply Z.eqb_eq in Hm.
    apply Z.mod_divide in Hm; [|lia]. destruct Hm as [q Hq].
    assert (Hqpos : 1 <= q) by nia.
    destruct Hd as [->| ->].
    + split; [lia|]. exists q. exact Hq.
    + subst n. rewrite Z.div_mul by lia. split; [lia|].
      exists i. apply Z.mul_comm.
Qed.

Lemma factors_spec (n : Z) :
  1 <= n ->
  exists fs, factors n = Ok fs /\ ascending fs /\
             forall d, In d fs <-> (1 <= d /\ (d | n)).
Proof.
  intros Hn. unfold factors.
  assert (H1 : In 1 (filter (fun i => n mod i =? 0) (range 1 (Z.sqrt n + 1)))).
  { apply filter_In. split.
    - apply In_range. pose proof (sqrt_ge_1 n Hn). lia.
    - rewrite Z.mod_1_r. reflexivity. }
  destruct (filter (fun i => n mod i =? 0) (range 1 (Z.sqrt n + 1)))
    as [|i0 is_] eqn:E; [destruct H1|].
  eexists. split; [reflexivity|]. split; [apply sorted_ascending|].
  intros d. rewrite In_sorted. unfold set_of. rewrite nodup_In.
  rewrite (divisor_pairs n d Hn), E, in_flat_map.
  split.
  - intros [i [Hi Hd]]. exists i. split; [exact Hi|].
    simpl in Hd. destruct Hd as [<-|[<-|[]]]; [left|right]; reflexivity.
  - intros [i [Hi Hd]]. exists i. split; [exact Hi|].
    simpl. destruct Hd as [->| ->]; [left|right; left]; reflexivity.
Qed.

(** The factor chosen for an extent [n] under a ceiling: the largest
    divisor of [n] that does not exceed the ceiling. *)
Lemma tile_factor_largest_divisor (ceiling n : Z) :
  1 <= n -> 1 <= ceiling ->
  exists fs f, factors n = Ok fs /\ select_factor ceiling fs = Ok f /\
               largest_divisor_upto ceiling n f.
Proof.
  intros Hn Hc.
  destruct (factors_spec n Hn) as [fs [Hfs [Hasc Hin]]].
  destruct (select_factor_spec ceiling fs Hasc) as [m [Hm [Hi [Hmc Hmax]]]].
  { exists 1. split; [|lia]. apply Hin. split; [lia|apply Z.divide_1_l]. }
  exists fs, m. split; [exact Hfs|]. split; [exact Hm|].
  apply Hin in Hi. destruct Hi as [Hm1 Hdiv].
  repeat split; try assumption.
  intros d' Hd1 Hdd Hdc. apply Hmax; [|exact Hdc]. apply Hin. split; assumption.
Qed.

(** ** The classifier *)

Lemma classified_by_nil (output : Operation) (c : Classified) :
  classified_by output c [] [] = c.
Proof.
  destruct c. unfold classified_by. simpl. rewrite !app_nil_r. reflexivity.
Qed.

Lemma classified_by_app (output : Operation) (c : Classified)
    (cs1 cs2 : list Operation) (p1 p2 : list (Operation * Tensor)) :
  classified_by output (classified_by output c cs1 p1) cs2 p2
  = classified_by output c (cs1 ++ cs2) (p1 ++ p2).
Proof.
  unfold classified_by. simpl. rewrite !filter_app, !app_assoc. reflexivity.
Qed.

Lemma traverse_first_step (output o : Operation) (c : Classified) :
  is_broadcast (op_tag o) = true ->
  (if negb (same_as o output)
   then if no_axis o then append_const c o else append_ewise c o
   else c)
  = classified_by output c [o] [].
Proof.
  intros Hb. destruct c as [co ei eo cv].
  unfold classified_by, append_const, append_ewise.
  cbn [filter const_ops ewise_inputs ewise_ops conv2d_res].
  unfold is_const_fold, is_elementwise, is_conv_call. rewrite Hb.
  cbn [andb negb].
  destruct (same_as o output); cbn [negb andb].
  - rewrite !app_nil_r. reflexivity.
  - destruct (no_axis o); cbn [negb]; rewrite !app_nil_r; reflexivity.
Qed.

Lemma traverse_inputs (output o : Operation) (l : list Tensor) :
  Forall
    (fun t => forall c,
       _traverse output t c
       = if forallb tag_ok (calls t)
         then Ok (classified_by output c (calls t) (leaf_reads t))
         else Raise AssertionError) l ->
  forall c,
    (fix inputs (l : list Tensor) (c : Classified) : result Classified :=
       match l with
       | [] => Ok c
       | tensor :: l' =>
           if is_placeholder tensor
           then inputs l' (append_ewise_input c (o, tensor))
           else c' <- _traverse output tensor c ;; inputs l' c'
       end) l c
    = if forallb tag_ok
           (flat_map (fun t => if is_placeholder t then [] else calls t) l)
      then Ok (classified_by output c
                 (flat_map (fun t => if is_placeholder t then [] else calls t) l)
                 (flat_map (fun t => if is_placeholder t then [(o, t)]
                                     else leaf_reads t) l))
      else Raise AssertionError.
Proof.
  induction l as [|t l IHl]; intros IH c.
  - cbn [flat_map forallb]. rewrite classified_by_nil. reflexivity.
  - inversion IH as [|? ? Ht Hl]; subst.
    cbn [flat_map]. destruct (is_placeholder t) eqn:Hp.
    + rewrite (IHl Hl). cbn [app].
      destruct (forallb tag_ok _); [|reflexivity].
      f_equal.
      replace (append_ewise_input c (o, t))
        with (classified_by output c [] [(o, t)]).
      * rewrite classified_by_app. reflexivity.
      * destruct c. unfold classified_by, append_ewise_input. simpl.
        rewrite !app_nil_r. reflexivity.
    + rewrite Ht, forallb_app.
      destruct (forallb tag_ok (calls t)); cbn [bind andb]; [|reflexivity].
      rewrite (IHl Hl).
      destruct (forallb tag_ok _); [|reflexivity].
      rewrite classified_by_app. reflexivity.
Qed.

(** The classifier either fails on a tag or appends, in call order, the
    calls that fall in each category. *)
Lemma traverse_eq (output : Operation) :
  forall o c,
    _traverse output o c
    = if forallb tag_ok (calls o)
      then Ok (classified_by output c (calls o) (leaf_reads o))
      else Raise AssertionError.
Proof.
  intros o. induction o as [o IH] using Operation_nested_ind. intros c.
  destruct o as [id kind name tag dt sh red ins].
  cbn [_traverse calls leaf_reads forallb op_tag input_tensors].
  unfold tag_ok at 1. cbn [op_tag].
  cbn [input_tensors] in IH.
  set (o := MkOp id kind name tag dt sh red ins) in *.
  destruct (is_broadcast tag) eqn:Hb.
  - cbn [orb andb].
    rewrite (traverse_first_step output o c Hb).
    rewrite (traverse_inputs output o ins IH).
    destruct (forallb tag_ok _); [|reflexivity].
    rewrite classified_by_app. reflexivity.
  - cbn [orb]. unfold assert.
    destruct (String.eqb tag conv2d_tag) eqn:Ht; cbn [bind andb].
    + destruct c as [co ei eo cv].
      unfold classified_by, append_conv.
      cbn [filter const_ops ewise_inputs ewise_ops conv2d_res].
      unfold is_const_fold, is_elementwise, is_conv_call.
      replace (op_tag o) with tag by reflexivity. rewrite Hb. cbn [andb negb].
      rewrite !app_nil_r. reflexivity.
    + reflexivity.
Qed.

Lemma calls_head (o : Operation) : In o (calls o).
Proof. destruct o; simpl; left; reflexivity. Qed.

Lemma In_calls_inv (o x : Operation) :
  In x (calls o) ->
  x = o \/
  (is_broadcast (op_tag o) = true /\
   exists t, In t (input_tensors o) /\ is_placeholder t = false /\
             In x (calls t)).
Proof.
  destruct o as [id kind name tag dt sh red ins].
  cbn [calls op_tag input_tensors]. intros [<-|H]; [left; reflexivity|].
  right. destruct (is_broadcast tag); [|destruct H].
  split; [reflexivity|]. apply in_flat_map in H. destruct H as [t [Ht Hx]].
  exists t. destruct (is_placeholder t); [destruct Hx|]. auto.
Qed.

Lemma In_calls_input (o t x : Operation) :
  is_broadcast (op_tag o) = true ->
  In t (input_tensors o) -> is_placeholder t = false ->
  In x (calls t) -> In x (calls o).
Proof.
  destruct o as [id kind name tag dt sh red ins].
  cbn [calls op_tag input_tensors]. intros Hb Ht Hp Hx. right. rewrite Hb.
  apply in_flat_map. exists t. rewrite Hp. auto.
Qed.

Lemma calls_trans (x : Operation) :
  forall y z, In y (calls x) -> In z (calls y) -> In z (calls x).
Proof.
  induction x as [x IH] using Operation_nested_ind. intros y z Hy Hz.
  apply In_calls_inv in Hy. destruct Hy as [->|[Hb [t [Ht [Hp Hy]]]]].
  - exact Hz.
  - apply (In_calls_input x t z Hb Ht Hp).
    rewrite Forall_forall in IH. apply (IH t Ht y z Hy Hz).
Qed.

Lemma reached_calls (root x : Operation) :
  reached root x <-> In x (calls root).
Proof.
  split.
  - induction 1 as [|o t Hr IH Hb Ht Hp].
    + apply calls_head.
    + apply (calls_trans root o t IH).
      apply (In_calls_input o t t Hb Ht Hp). apply calls_head.
  - revert x. induction root as [root IH] using Operation_nested_ind.
    intros x Hx. apply In_calls_inv in Hx.
    destruct Hx as [->|[Hb [t [Ht [Hp Hx]]]]]; [apply reached_root|].
    rewrite Forall_forall in IH. specialize (IH t Ht x Hx).
    assert (Hrt : reached root t)
      by (apply (@reached_input root root t (reached_root root) Hb Ht Hp)).
    clear - IH Hrt. induction IH as [|o t' Hr IH' Hb Ht Hp].
    + exact Hrt.
    + apply (@reached_input root o t' IH' Hb Ht Hp).
Qed.

Lemma traverse_Ok (output o : Operation) (c c' : Classified) :
  _traverse output o c = Ok c' ->
  forallb tag_ok (calls o) = true /\
  c' = classified_by output c (calls o) (leaf_reads o).
Proof.
  rewrite traverse_eq. destruct (forallb tag_ok (calls o)); intros H.
  - injection H as <-. auto.
  - discriminate.
Qed.

Lemma traverse_bad_tag (output o : Operation) (c : Classified) (x : Operation) :
  In x (calls o) -> is_broadcast (op_tag x) = false ->
  op_tag x <> conv2d_tag ->
  _traverse output o c = Raise AssertionError.
Proof.
  intros Hx Hb Ht. rewrite traverse_eq.
  destruct (forallb tag_ok (calls o)) eqn:E; [|reflexivity].
  rewrite forallb_forall in E. specialize (E x Hx).
  unfold tag_ok in E. rewrite Hb in E. cbn [orb] in E.
  apply String.eqb_eq in E. contradiction.
Qed.

(** The first steps of [schedule_conv2d_packed], up to the assertion on the
    number of convolutions. *)
Lemma schedule_conv2d_packed_prefix (env : Env) (cfg : Config)
    (output in0 : Operation) (rest : list Operation) :
  input_tensors output = in0 :: rest ->
  contains "int" (dtype in0) = true ->
  schedule_conv2d_packed env cfg [output]
  = (c <- _traverse output output no_ops ;;
     _ <- assert (Nat.eqb (List.length (conv2d_res c)) 1) ;;
     conv2d_stage <- index (conv2d_res c) 0 ;;
     let s := create_schedule [output] in
     cfg <- space_definition cfg s conv2d_stage ;;
     '(cdata, ckernel, cache_read_ewise, s) <-
        setup_scopes env s conv2d_stage c ;;
     '(t, s) <- tile cfg s output ;;
     s <- set_compute_scopes env s output conv2d_stage c cache_read_ewise t ;;
     s <- virtual_thread cfg "oc_nthread" s output (t_co0 t) (t_bo t) ;;
     s <- virtual_thread cfg "h_nthread" s output (t_i0 t) (t_bo t) ;;
     '(k_o, x_bi, s) <- stage_reduction cfg s conv2d_stage cdata ckernel ;;
     s <- use_vta_instructions env s output conv2d_stage cdata ckernel x_bi
            (t_co1 t) ;;
     Ok (cfg, s)).
Proof.
  intros Hin Hint. unfold schedule_conv2d_packed.
  change (assert (Nat.eqb (List.length [output]) 1)) with (Ok tt).
  change (index [output] 0) with (Ok output).
  cbn [bind]. rewrite Hin.
  change (index (in0 :: rest) 0) with (Ok in0).
  cbn [bind]. rewrite Hint. reflexivity.
Qed.

(** C4: the classifier puts every reached broadcast-tagged operation other
    than the output in exactly one of the constant-fold list (no iteration
    axes) and the elementwise list (some iteration axes); every reached
    operation without a broadcast tag must carry the convolution tag, or the
    traversal and the schedule fail on an assertion; and the schedule fails
    on an assertion whenever the number of convolutions found is not one. *)
Theorem classifier_partition_and_failure :
  forall (env : Env) (cfg : Config) (output : Operation),
    (forall c,
        _traverse output output no_ops = Ok c ->
        (forall o,
            reached output o -> is_broadcast (op_tag o) = true ->
            same_as o output = false ->
            (no_axis o = true /\ In o (const_ops c) /\
             ~ In o (ewise_ops c) /\ ~ In o (conv2d_res c)) \/
            (no_axis o = false /\ In o (ewise_ops c) /\
             ~ In o (const_ops c) /\ ~ In o (conv2d_res c))) /\
        (forall o,
            reached output o -> is_broadcast (op_tag o) = false ->
            op_tag o = conv2d_tag /\ In o (conv2d_res c))) /\
    (forall o,
        reached output o -> is_broadcast (op_tag o) = false ->
        op_tag o <> conv2d_tag ->
        _traverse output output no_ops = Raise AssertionError /\
        forall in0 rest,
          input_tensors output = in0 :: rest ->
          contains "int" (dtype in0) = true ->
          schedule_conv2d_packed env cfg [output] = Raise AssertionError) /\
    (forall c in0 rest,
        input_tensors output = in0 :: rest ->
        contains "int" (dtype in0) = true ->
        _traverse output output no_ops = Ok c ->
        List.length (conv2d_res c) <> 1%nat ->
        schedule_conv2d_packed env cfg [output] = Raise AssertionError).
Proof.
  intros env cfg output. split; [|split].
  - intros c Hc. apply traverse_Ok in Hc. destruct Hc as [Hok ->].
    unfold classified_by, no_ops.
    cbn [const_ops ewise_ops conv2d_res app]. split.
    + intros o Hr Hb Hs. apply reached_calls in Hr.
      destruct (no_axis o) eqn:Hax; [left|right].
      * split; [reflexivity|]. split.
        -- apply filter_In. split; [exact Hr|].
           unfold is_const_fold. rewrite Hb, Hs, Hax. reflexivity.
        -- split; intros H; apply filter_In in H; destruct H as [_ H].
           ++ unfold is_elementwise in H. rewrite Hb, Hs, Hax in H.
              discriminate.
           ++ unfold is_conv_call in H. rewrite Hb in H. discriminate.
      * split; [reflexivity|]. split.
        -- apply filter_In. split; [exact Hr|].
           unfold is_elementwise. rewrite Hb, Hs, Hax. reflexivity.
        -- split; intros H; apply filter_In in H; destruct H as [_ H].
           ++ unfold is_const_fold in H. rewrite Hb, Hs, Hax in H.
              discriminate.
           ++ unfold is_conv_call in H. rewrite Hb in H. discriminate.
    + intros o Hr Hb. apply reached_calls in Hr.
      rewrite forallb_forall in Hok. specialize (Hok o Hr).
      unfold tag_ok in Hok. rewrite Hb in Hok. cbn [orb] in Hok.
      apply String.eqb_eq in Hok. split; [exact Hok|].
      apply filter_In. split; [exact Hr|].
      unfold is_conv_call. rewrite Hb. reflexivity.
  - intros o Hr Hb Ht. apply reached_calls in Hr.
    pose proof (traverse_bad_tag output output no_ops o Hr Hb Ht) as Hfail.
    split; [exact Hfail|]. intros in0 rest Hin Hint.
    rewrite (schedule_conv2d_packed_prefix env cfg output in0 rest Hin Hint).
    rewrite Hfail. reflexivity.
  - intros c in0 rest Hin Hint Hc Hlen.
    rewrite (schedule_conv2d_packed_prefix env cfg output in0 rest Hin Hint).
    rewrite Hc. cbn [bind].
    destruct (Nat.eqb (List.length (conv2d_res c)) 1) eqn:E.
    + apply Nat.eqb_eq in E. contradiction.
    + reflexivity.
Qed.

Lemma classifier_partition_and_failure_witness :
  ((no_axis ex_add = true /\ In ex_add (const_ops ex_classified) /\
    ~ In ex_add (ewise_ops ex_classified) /\
    ~ In ex_add (conv2d_res ex_classified)) \/
   (no_axis ex_add = false /\ In ex_add (ewise_ops ex_classified) /\
    ~ In ex_add (const_ops ex_classified) /\
    ~ In ex_add (conv2d_res ex_classified))) /\
  schedule_conv2d_packed ex_env ex_cfg [ex_no_conv] = Raise AssertionError.
Proof.
  split.
  - apply (proj1 (proj1 (classifier_partition_and_failure ex_env ex_cfg ex_out)
                    ex_classified eq_refl) ex_add).
    + apply (@reached_input ex_out ex_out ex_add (reached_root ex_out)).
      * reflexivity.
      * left. reflexivity.
      * reflexivity.
    + reflexivity.
    + reflexivity.
  - apply (proj2 (proj2 (classifier_partition_and_failure ex_env ex_cfg
                           ex_no_conv))
             (MkClassified [] [(ex_no_conv, ex_data); (ex_no_conv, ex_bias)]
                [] [])
             ex_data [ex_bias]).
    + reflexivity.
    + reflexivity.
    + reflexivity.
    + simpl. discriminate.
Defined.

Lemma count_id_app (i : nat) (l1 l2 : list Operation) :
  count_id i (l1 ++ l2) = (count_id i l1 + count_id i l2)%nat.
Proof. unfold count_id. rewrite map_app. apply count_occ_app. Qed.

Lemma count_id_cons (i : nat) (x : Operation) (l : list Operation) :
  count_id i (x :: l)
  = ((if Nat.eqb (op_id x) i then 1 else 0) + count_id i l)%nat.
Proof.
  unfold count_id. cbn [map count_occ].
  destruct (Nat.eq_dec (op_id x) i) as [E|E].
  - apply Nat.eqb_eq in E. rewrite E. reflexivity.
  - apply Nat.eqb_neq in E. rewrite E. reflexivity.
Qed.

(** Each call appends its operation to exactly one list, except a call on
    a broadcast-tagged output, which appends nothing. *)
Lemma count_id_categories (output : Operation) (i : nat) (l : list Operation) :
  (count_id i (filter (is_const_fold output) l)
   + count_id i (filter (is_elementwise output) l)
   + count_id i (filter is_conv_call l))%nat
  = count_id i
      (filter (fun x => negb (is_broadcast (op_tag x) && same_as x output)) l).
Proof.
  induction l as [|x l IH]; [reflexivity|].
  cbn [filter]. unfold is_const_fold, is_elementwise, is_conv_call.
  destruct (is_broadcast (op_tag x)), (same_as x output), (no_axis x);
    cbn [andb negb]; rewrite ?count_id_cons;
    unfold is_const_fold, is_elementwise, is_conv_call in IH; lia.
Qed.

Lemma count_id_filter_le (p : Operation -> bool) (i : nat) (l : list Operation) :
  (count_id i (filter p l) <= count_id i l)%nat.
Proof.
  induction l as [|x l IH]; [apply le_n|].
  cbn [filter]. destruct (p x); rewrite ?count_id_cons; lia.
Qed.

Lemma count_id_filter_other (output : Operation) (i : nat) (l : list Operation) :
  i <> op_id output ->
  count_id i
    (filter (fun x => negb (is_broadcast (op_tag x) && same_as x output)) l)
  = count_id i l.
Proof.
  intros Hi. induction l as [|x l IH]; [reflexivity|].
  cbn [filter]. unfold same_as at 1.
  destruct (Nat.eqb (op_id x) (op_id output)) eqn:E.
  - apply Nat.eqb_eq in E.
    assert (Hx : Nat.eqb (op_id x) i = false)
      by (apply Nat.eqb_neq; congruence).
    destruct (is_broadcast (op_tag x)); cbn [andb negb];
      rewrite ?count_id_cons, ?Hx, IH; reflexivity.
  - rewrite andb_false_r. cbn [negb]. rewrite !count_id_cons, IH. reflexivity.
Qed.

Lemma count_id_appended (output : Operation) (c : Classified) (i : nat) :
  _traverse output output no_ops = Ok c ->
  count_id i (appended c)
  = count_id i
      (filter (fun x => negb (is_broadcast (op_tag x) && same_as x output))
         (calls output)).
Proof.
  intros Hc. apply traverse_Ok in Hc. destruct Hc as [_ ->].
  unfold appended, classified_by, no_ops.
  cbn [const_ops ewise_ops conv2d_res app].
  rewrite !count_id_app, <- count_id_categories. lia.
Qed.

(** C5, as stated, fails: [ex_relu] is read by the two distinct consumers
    [ex_mid] and [ex_shared_out], the traversal succeeds, and [ex_relu] is
    appended to the elementwise list twice. *)
Lemma classifier_shared_node_appended_twice :
  In ex_relu (input_tensors ex_mid) /\
  In ex_relu (input_tensors ex_shared_out) /\
  same_as ex_mid ex_shared_out = false /\
  exists c,
    _traverse ex_shared_out ex_shared_out no_ops = Ok c /\
    ewise_ops c = [ex_mid; ex_relu; ex_relu] /\
    count_id (op_id ex_relu) (ewise_ops c) = 2%nat.
Proof.
  split; [right; left; reflexivity|].
  split; [right; left; reflexivity|].
  split; [reflexivity|].
  eexists. split; [vm_compute; reflexivity|].
  split; reflexivity.
Qed.

(** On that graph the pair ([ex_relu], [ex_bias]) is recorded twice as
    well, and the second cached copy asked for it is refused: the schedule
    fails. *)
Lemma shared_node_schedule_fails :
  schedule_conv2d_packed ex_env ex_cfg [ex_shared_out] = Raise TVMError.
Proof. vm_compute. reflexivity. Qed.

(** C5, amended: the traversal keeps no record of the nodes it has seen.
    It calls itself once per path from the output through broadcast-tagged
    operations, and every call on an operation other than the output appends
    it once: an operation is appended as many times as it is visited.  When
    no visited node is shared (the visited nodes have pairwise distinct
    identities), every operation is appended at most once. *)
Theorem classifier_appends_once_per_visit :
  forall (output : Operation) (c : Classified),
    _traverse output output no_ops = Ok c ->
    (forall i, i <> op_id output ->
               count_id i (appended c) = count_id i (calls output)) /\
    (NoDup (map op_id (calls output)) -> NoDup (map op_id (appended c))).
Proof.
  intros output c Hc. split.
  - intros i Hi. rewrite (count_id_appended output c i Hc).
    apply count_id_filter_other. exact Hi.
  - intros Hnd. apply (NoDup_count_occ Nat.eq_dec). intros i.
    rewrite (NoDup_count_occ Nat.eq_dec) in Hnd. specialize (Hnd i).
    fold (count_id i (appended c)). fold (count_id i (calls output)) in Hnd.
    rewrite (count_id_appended output c i Hc).
    pose proof (count_id_filter_le
                  (fun x => negb (is_broadcast (op_tag x) && same_as x output))
                  i (calls output)).
    lia.
Qed.

Lemma classifier_appends_once_per_visit_witness :
  (forall i, i <> op_id ex_out ->
             count_id i (appended ex_classified) = count_id i (calls ex_out)) /\
  (NoDup (map op_id (calls ex_out)) ->
   NoDup (map op_id (appended ex_classified))).
Proof.
  apply (classifier_appends_once_per_visit ex_out ex_classified).
  reflexivity.
Defined.

(** ** The early exits *)

(** C9: for an output whose dtype is not integral, [_schedule_add] returns
    the schedule as created and inlined by [AutoInlineInjective]: its stages
    are those of the operations of the graph (no cached copy), and no stage
    has a split or reordered axis, a memory scope or an annotation. *)
Theorem schedule_add_non_integral :
  forall (env : Env) (output : Operation),
    contains "int" (dtype output) = false ->
    _schedule_add env [output]
    = Ok (AutoInlineInjective (create_schedule [output])) /\
    map op (stages (AutoInlineInjective (create_schedule [output])))
    = post_order [output] /\
    Forall untouched (stages (AutoInlineInjective (create_schedule [output]))).
Proof.
  intros env output Hint. split; [|split].
  - unfold _schedule_add.
    change (assert (Nat.eqb (List.length [output]) 1)) with (Ok tt).
    change (index [output] 0) with (Ok output).
    cbn [bind]. rewrite Hint. reflexivity.
  - unfold AutoInlineInjective, create_schedule. cbn [stages].
    rewrite !map_map. rewrite <- (map_id (post_order [output])) at 2.
    apply map_ext. intros o.
    destruct (negb (is_scheduled (new_stage o)) && IsInjective (op (new_stage o))
              && negb _); reflexivity.
  - unfold AutoInlineInjective, create_schedule. cbn [stages].
    rewrite map_map. apply Forall_forall. intros st Hst.
    apply in_map_iff in Hst. destruct Hst as [o [<- _]].
    destruct (negb (is_scheduled (new_stage o)) && IsInjective (op (new_stage o))
              && negb _); unfold untouched, new_stage; cbn; auto 6.
Qed.

Lemma schedule_add_non_integral_witness :
  _schedule_add ex_env [ex_float_add]
  = Ok (AutoInlineInjective (create_schedule [ex_float_add])) /\
  map op (stages (AutoInlineInjective (create_schedule [ex_float_add])))
  = post_order [ex_float_add] /\
  Forall untouched (stages (AutoInlineInjective (create_schedule [ex_float_add]))).
Proof.
  apply (schedule_add_non_integral ex_env ex_float_add). reflexivity.
Defined.

(** C10: before any traversal or staging, [schedule_conv2d_packed] asserts
    that the dtype of the first input tensor of the output operation
    contains "int"; when it does not, the call fails on that assertion
    and returns no schedule. *)
Theorem schedule_conv2d_packed_requires_int_input :
  forall (env : Env) (cfg : Config) (output in0 : Operation)
         (rest : list Operation),
    input_tensors output = in0 :: rest ->
    contains "int" (dtype in0) = false ->
    schedule_conv2d_packed env cfg [output] = Raise AssertionError.
Proof.
  intros env cfg output in0 rest Hin Hint. unfold schedule_conv2d_packed.
  change (assert (Nat.eqb (List.length [output]) 1)) with (Ok tt).
  change (index [output] 0) with (Ok output).
  cbn [bind]. rewrite Hin.
  change (index (in0 :: rest) 0) with (Ok in0).
  cbn [bind]. rewrite Hint. reflexivity.
Qed.

Lemma schedule_conv2d_packed_requires_int_input_witness :
  schedule_conv2d_packed ex_env ex_cfg [ex_float_add] = Raise AssertionError.
Proof.
  apply (schedule_conv2d_packed_requires_int_input ex_env ex_cfg ex_float_add
           ex_fa [ex_fb]); reflexivity.
Defined.

(** ** Stages under the scheduling primitives *)

Lemma get_stage_Ok (s : Schedule) (t : Operation) (st : Stage) :
  get_stage s t = Ok st -> In st (stages s) /\ key st = op_id t.
Proof.
  unfold get_stage. destruct (find (is_stage_of t) (stages s)) eqn:E;
    [|discriminate].
  intros H. injection H as <-. apply find_some in E. destruct E as [Hin Hk].
  split; [exact Hin|]. unfold is_stage_of, same_as in Hk.
  apply Nat.eqb_eq in Hk. exact Hk.
Qed.

Lemma get_stage_keys (s : Schedule) (t : Operation) :
  In (op_id t) (stage_keys s) -> exists st, get_stage s t = Ok st.
Proof.
  unfold stage_keys, get_stage. intros H. apply in_map_iff in H.
  destruct H as [st [Hk Hin]].
  destruct (find (is_stage_of t) (stages s)) eqn:E; [eauto|].
  exfalso. pose proof (find_none _ _ E st Hin) as Hn.
  unfold is_stage_of, same_as in Hn. apply Nat.eqb_neq in Hn.
  unfold key in Hk. contradiction.
Qed.

Lemma get_stage_In_keys (s : Schedule) (t : Operation) (st : Stage) :
  get_stage s t = Ok st -> In (op_id t) (stage_keys s).
Proof.
  intros H. apply get_stage_Ok in H. destruct H as [Hin Hk].
  unfold stage_keys. apply in_map_iff. exists st. auto.
Qed.

Lemma set_stage_Forall (P : Stage -> Prop) (s : Schedule) (t : Operation)
    (st' : Stage) :
  Forall P (stages s) -> P st' -> Forall P (stages (set_stage s t st')).
Proof.
  intros HF Hst. unfold set_stage. cbn [stages].
  apply Forall_forall. intros x Hx. apply in_map_iff in Hx.
  destruct Hx as [y [<- Hy]].
  destruct (is_stage_of t y); [exact Hst|].
  rewrite Forall_forall in HF. apply HF. exact Hy.
Qed.

(** The same, when the new stage is computed from the stage it replaces. *)
Lemma set_stage_Forall_upd (P : Stage -> Prop) (s : Schedule) (t : Operation)
    (st st' : Stage) :
  Forall P (stages s) ->
  get_stage s t = Ok st ->
  (P st -> P st') ->
  Forall P (stages (set_stage s t st')).
Proof.
  intros HF Hg Hst. apply set_stage_Forall; [exact HF|].
  apply Hst. apply get_stage_Ok in Hg. destruct Hg as [Hin _].
  rewrite Forall_forall in HF. apply HF. exact Hin.
Qed.

Lemma set_stage_keys (s : Schedule) (t : Operation) (st' : Stage) :
  key st' = op_id t ->
  stage_keys (set_stage s t st') = stage_keys s.
Proof.
  intros Hk. unfold stage_keys, set_stage. cbn [stages]. rewrite map_map.
  apply map_ext. intros y. unfold is_stage_of, same_as.
  destruct (Nat.eqb (op_id (op y)) (op_id t)) eqn:E; [|reflexivity].
  apply Nat.eqb_eq in E. unfold key in *. congruence.
Qed.

(** What a successful primitive did. *)

Lemma split_inv (s s' : Schedule) (t : Operation) (p : IterVar) (f : Z)
    (r : IterVar * IterVar) :
  split s t p f = Ok (r, s') ->
  exists st,
    get_stage s t = Ok st /\
    is_leaf p (leaf_iter_vars st) = true /\
    r = (SplitOuter p, SplitInner p) /\
    s' = set_stage s t
           (MkStage (op st)
              (replace_leaf p [SplitOuter p; SplitInner p] (leaf_iter_vars st))
              (relations st ++ [(p, f)]) (scope st) (attach st)
              (iter_var_attrs st)).
Proof.
  unfold split, require_leaf. intros H. inv_bind H.
  destruct (is_leaf p (leaf_iter_vars a)) eqn:E; cbn [bind] in H;
    [|discriminate].
  injection H as <- <-. exists a. auto.
Qed.

Lemma reorder_inv (s s' : Schedule) (t : Operation) (order : list IterVar) :
  reorder s t order = Ok s' ->
  exists st,
    get_stage s t = Ok st /\
    distinct order = true /\
    forallb (fun v => is_leaf v (leaf_iter_vars st)) order = true /\
    s' = set_stage s t
           (MkStage (op st) (reorder_leaves order order (leaf_iter_vars st))
              (relations st) (scope st) (attach st) (iter_var_attrs st)).
Proof.
  unfold reorder. intros H. inv_bind H.
  destruct (distinct order); cbn [negb] in H; [|discriminate].
  destruct (forallb _ order) eqn:E; cbn [negb] in H; [|discriminate].
  injection H as <-. exists a. auto.
Qed.

Lemma compute_at_inv (s s' : Schedule) (t parent : Operation) (a : IterVar) :
  compute_at s t parent a = Ok s' ->
  exists st pst,
    get_stage s t = Ok st /\
    get_stage s parent = Ok pst /\
    is_leaf a (leaf_iter_vars pst) = true /\
    s' = set_stage s t
           (MkStage (op st) (leaf_iter_vars st) (relations st) (scope st)
              (kScope (op_id parent) a) (iter_var_attrs st)).
Proof.
  unfold compute_at, require_leaf. intros H. inv_bind H. inv_bind H.
  destruct (is_leaf a (leaf_iter_vars a1)) eqn:E; cbn [bind] in H;
    [|discriminate].
  injection H as <-. exists a0, a1. auto.
Qed.

Lemma compute_inline_inv (s s' : Schedule) (t : Operation) :
  compute_inline s t = Ok s' ->
  exists st,
    get_stage s t = Ok st /\
    s' = set_stage s t
           (MkStage (op st) (leaf_iter_vars st) (relations st) (scope st)
              kInline (iter_var_attrs st)).
Proof.
  unfold compute_inline. intros H. inv_bind H.
  injection H as <-. exists a. auto.
Qed.

Lemma set_scope_inv (s s' : Schedule) (t : Operation) (sc : string) :
  set_scope s t sc = Ok s' ->
  exists st,
    get_stage s t = Ok st /\
    s' = set_stage s t
           (MkStage (op st) (leaf_iter_vars st) (relations st) sc
              (attach st) (iter_var_attrs st)).
Proof.
  unfold set_scope. intros H. inv_bind H.
  injection H as <-. exists a. auto.
Qed.

Lemma annotate_inv (s s' : Schedule) (t : Operation) (v : IterVar)
    (x : IterVarAttr) :
  annotate s t v x = Ok s' ->
  exists st,
    get_stage s t = Ok st /\
    is_leaf v (leaf_iter_vars st) = true /\
    s' = set_stage s t
           (MkStage (op st) (leaf_iter_vars st) (relations st) (scope st)
              (attach st) (iter_var_attrs st ++ [(v, x)])).
Proof.
  unfold annotate, require_leaf. intros H. inv_bind H.
  destruct (is_leaf v (leaf_iter_vars a)) eqn:E; cbn [bind] in H;
    [|discriminate].
  injection H as <-. exists a. auto.
Qed.

Lemma find_map_key (x t : Operation) (st' : Stage) (l : list Stage) :
  key st' = op_id t ->
  find (is_stage_of x) (map (fun st => if is_stage_of t st then st' else st) l)
  = option_map (fun st => if is_stage_of t st then st' else st)
      (find (is_stage_of x) l).
Proof.
  intros Hk. induction l as [|y l IH]; [reflexivity|].
  cbn [map find].
  assert (Hy : is_stage_of x (if is_stage_of t y then st' else y)
               = is_stage_of x y).
  { destruct (is_stage_of t y) eqn:E; [|reflexivity].
    unfold is_stage_of, same_as in *. apply Nat.eqb_eq in E.
    unfold key in Hk. rewrite Hk, E. reflexivity. }
  rewrite Hy. destruct (is_stage_of x y); [reflexivity|exact IH].
Qed.

Lemma get_stage_set_stage (s : Schedule) (t x : Operation) (st' : Stage) :
  key st' = op_id t ->
  get_stage (set_stage s t st') x
  = match get_stage s x with
    | Ok st => Ok (if is_stage_of t st then st' else st)
    | Raise e => Raise e
    end.
Proof.
  intros Hk. unfold get_stage, set_stage. cbn [stages].
  rewrite (find_map_key x t st' (stages s) Hk).
  destruct (find (is_stage_of x) (stages s)); reflexivity.
Qed.

Lemma get_stage_set_stage_same (s : Schedule) (t : Operation) (st st' : Stage) :
  key st' = op_id t ->
  get_stage s t = Ok st ->
  get_stage (set_stage s t st') t = Ok st'.
Proof.
  intros Hk Hg. rewrite (get_stage_set_stage s t t st' Hk), Hg.
  apply get_stage_Ok in Hg. destruct Hg as [_ Hkey].
  unfold is_stage_of, same_as. unfold key in Hkey. rewrite Hkey, Nat.eqb_refl.
  reflexivity.
Qed.

Lemma set_stage_twice (s : Schedule) (t : Operation) (st1 st2 : Stage) :
  key st1 = op_id t ->
  set_stage (set_stage s t st1) t st2 = set_stage s t st2.
Proof.
  intros Hk. unfold set_stage. cbn [stages outputs next_id]. f_equal.
  rewrite map_map. apply map_ext. intros y.
  destruct (is_stage_of t y) eqn:E; [|rewrite E; reflexivity].
  unfold is_stage_of, same_as. unfold key in Hk. rewrite Hk, Nat.eqb_refl.
  reflexivity.
Qed.

Lemma find_same_test {A : Type} (p q : A -> bool) (l : list A) :
  (forall y, p y = q y) -> find p l = find q l.
Proof.
  intros H. induction l as [|y l IH]; [reflexivity|].
  cbn [find]. rewrite H, IH. reflexivity.
Qed.

Lemma frame_step_refl (s : Schedule) : frame_step s s.
Proof.
  split; [reflexivity|]. split; [auto|]. split; [reflexivity|].
  intros x st H. exists st. auto.
Qed.

Lemma frame_step_trans (s1 s2 s3 : Schedule) :
  frame_step s1 s2 -> frame_step s2 s3 -> frame_step s1 s3.
Proof.
  intros [K1 [F1 [N1 L1]]] [K2 [F2 [N2 L2]]].
  split; [congruence|]. split; [|split; [congruence|]].
  - intros P HP H. apply (F2 P HP). apply (F1 P HP). exact H.
  - intros x st H. destruct (L1 x st H) as [st2 [H2 [Ho2 [Hl2 Hr2]]]].
    destruct (L2 x st2 H2) as [st3 [H3 [Ho3 [Hl3 Hr3]]]].
    exists st3. split; [exact H3|]. repeat split; congruence.
Qed.

Lemma get_stage_same_key (s : Schedule) (x t : Operation) (sx st : Stage) :
  get_stage s x = Ok sx -> get_stage s t = Ok st ->
  is_stage_of t sx = true -> sx = st.
Proof.
  intros Hx Hg E. unfold get_stage in Hg, Hx.
  assert (Hf : find (is_stage_of x) (stages s)
               = find (is_stage_of t) (stages s)).
  { apply find_same_test. intros y.
    destruct (find (is_stage_of x) (stages s)) as [sx'|] eqn:Ef;
      [|discriminate].
    injection Hx as <-. apply find_some in Ef. destruct Ef as [_ Hkx].
    unfold is_stage_of, same_as in *.
    apply Nat.eqb_eq in E, Hkx. rewrite <- Hkx, E. reflexivity. }
  rewrite Hf in Hx. destruct (find (is_stage_of t) (stages s));
    [|discriminate]. congruence.
Qed.

Lemma set_stage_frame_step (s : Schedule) (t : Operation) (st : Stage)
    (sc : string) (a : AttachType) (attrs : list (IterVar * IterVarAttr)) :
  get_stage s t = Ok st ->
  frame_step s
    (set_stage s t
       (MkStage (op st) (leaf_iter_vars st) (relations st) sc a attrs)).
Proof.
  intros Hg. pose proof (get_stage_Ok s t st Hg) as [_ Hk].
  split; [|split; [|split]].
  - apply set_stage_keys. exact Hk.
  - intros P HP HF. apply (set_stage_Forall_upd P s t st _ HF Hg).
    apply HP.
  - reflexivity.
  - intros x sx Hx. rewrite get_stage_set_stage by exact Hk. rewrite Hx.
    destruct (is_stage_of t sx) eqn:E.
    + rewrite (get_stage_same_key s x t sx st Hx Hg E).
      eexists. split; [reflexivity|]. repeat split; reflexivity.
    + exists sx. auto.
Qed.

Lemma compute_at_frame (s s' : Schedule) (t parent : Operation) (a : IterVar) :
  compute_at s t parent a = Ok s' -> frame_step s s'.
Proof.
  intros H. apply compute_at_inv in H.
  destruct H as [st [pst [Hg [_ [_ ->]]]]].
  apply set_stage_frame_step. exact Hg.
Qed.

Lemma compute_inline_frame (s s' : Schedule) (t : Operation) :
  compute_inline s t = Ok s' -> frame_step s s'.
Proof.
  intros H. apply compute_inline_inv in H. destruct H as [st [Hg ->]].
  apply set_stage_frame_step. exact Hg.
Qed.

Lemma set_scope_frame (s s' : Schedule) (t : Operation) (sc : string) :
  set_scope s t sc = Ok s' -> frame_step s s'.
Proof.
  intros H. apply set_scope_inv in H. destruct H as [st [Hg ->]].
  apply set_stage_frame_step. exact Hg.
Qed.

Lemma annotate_frame (s s' : Schedule) (t : Operation) (v : IterVar)
    (x : IterVarAttr) :
  annotate s t v x = Ok s' -> frame_step s s'.
Proof.
  intros H. apply annotate_inv in H. destruct H as [st [Hg [_ ->]]].
  apply set_stage_frame_step. exact Hg.
Qed.

Lemma for_each_rel {A : Type} (R : Schedule -> Schedule -> Prop)
    (body : Schedule -> A -> result Schedule) (l : list A) :
  (forall s, R s s) ->
  (forall s1 s2 s3, R s1 s2 -> R s2 s3 -> R s1 s3) ->
  (forall s a s', In a l -> body s a = Ok s' -> R s s') ->
  forall s s', for_each l body s = Ok s' -> R s s'.
Proof.
  intros Hrefl Htrans. induction l as [|a l IH]; intros Hbody s s' H.
  - injection H as <-. apply Hrefl.
  - cbn [for_each] in H. inv_bind H.
    apply (Htrans s a0 s').
    + apply (Hbody s a a0); [left; reflexivity|exact Ha].
    + apply IH; [|exact H]. intros s1 b s2 Hb. apply Hbody. right. exact Hb.
Qed.

Lemma for_each_frame {A : Type} (body : Schedule -> A -> result Schedule)
    (l : list A) :
  (forall s a s', body s a = Ok s' -> frame_step s s') ->
  forall s s', for_each l body s = Ok s' -> frame_step s s'.
Proof.
  intros Hbody. apply for_each_rel.
  - apply frame_step_refl.
  - apply frame_step_trans.
  - intros s a s' _. apply Hbody.
Qed.

(** ** Loop nests before tiling *)

Lemma pristine_frame_stable : frame_stable pristine.
Proof. intros st sc a attrs H. exact H. Qed.

Lemma create_schedule_pristine (ops : list Operation) :
  Forall pristine (stages (create_schedule ops)).
Proof.
  unfold create_schedule. cbn [stages]. apply Forall_forall.
  intros st Hst. apply in_map_iff in Hst. destruct Hst as [o [<- _]].
  split; reflexivity.
Qed.

Lemma insert_after_Forall (P : Stage -> Prop) (t : Operation) (c : Stage)
    (l : list Stage) :
  Forall P l -> P c -> Forall P (insert_after t c l).
Proof.
  intros HF Hc. induction HF as [|x l Hx HF IH]; cbn [insert_after].
  - constructor.
  - destruct (is_stage_of t x); repeat constructor; assumption.
Qed.

Lemma cache_read_pristine (s s' : Schedule) (tensor c : Operation)
    (sc : string) (readers : list Operation) :
  cache_read s tensor sc readers = Ok (c, s') ->
  Forall pristine (stages s) -> Forall pristine (stages s').
Proof.
  unfold cache_read. intros H HF. inv_bind H. inv_bind H.
  injection H as <- <-. cbn [stages].
  apply insert_after_Forall; [|split; reflexivity].
  revert HF.
  eapply (for_each_rel
            (fun s1 s2 => Forall pristine (stages s1) ->
                          Forall pristine (stages s2)));
    [auto | auto | | exact Ha0].
  intros s0 r s1 _ Hr HF0. inv_bind Hr.
  destruct (reads (op a1) tensor); cbn [negb] in Hr; [|discriminate].
  injection Hr as <-.
  apply (set_stage_Forall_upd pristine s0 r a1 _ HF0 Ha1).
  intros [Hl Hr]. split; assumption.
Qed.

Lemma frame_step_pristine (s s' : Schedule) :
  frame_step s s' -> Forall pristine (stages s) -> Forall pristine (stages s').
Proof. intros [_ [H _]]. apply H. apply pristine_frame_stable. Qed.

Lemma cache_read_inputs_pristine (env : Env) (l : list (Operation * Tensor)) :
  forall s cs s',
    cache_read_inputs env l s = Ok (cs, s') ->
    Forall pristine (stages s) -> Forall pristine (stages s').
Proof.
  induction l as [|[consumer tensor] l IH]; intros s cs s' H HF.
  - injection H as <- <-. exact HF.
  - cbn [cache_read_inputs] in H. inv_bind H. destruct a as [c s1].
    inv_bind H. destruct a as [cs' s2]. injection H as <- <-.
    apply (IH s1 cs' s2 Ha0).
    apply (cache_read_pristine s s1 tensor c _ _ Ha HF).
Qed.

Lemma ewise_scope_frame (env : Env) (s s' : Schedule) (o : Operation) :
  (s1 <- set_scope s o (acc_scope env) ;;
   a <- first_axis s1 o ;;
   pragma s1 o a (alu env)) = Ok s' ->
  frame_step s s'.
Proof.
  intros H. inv_bind H. inv_bind H.
  apply (frame_step_trans s a s').
  - apply (set_scope_frame s a o _ Ha).
  - apply (annotate_frame a s' o a0 _ H).
Qed.

Lemma setup_scopes_pristine (env : Env) (s s' : Schedule)
    (conv2d_stage cdata ckernel : Operation) (c : Classified)
    (cre : list Operation) :
  setup_scopes env s conv2d_stage c = Ok (cdata, ckernel, cre, s') ->
  Forall pristine (stages s) -> Forall pristine (stages s').
Proof.
  unfold setup_scopes. intros H HF.
  bind_inv H as [data kernel] Hun.
  bind_inv H as [data' pad_data] Hpad.
  bind_inv H as [cdata0 s1] Hcd.
  bind_inv H as [ckernel0 s2] Hck.
  bind_inv H as s3 Hsc.
  bind_inv H as [cre0 s4] Hcre.
  bind_inv H as s5 Hew.
  bind_inv H as s6 Hco.
  injection H as <- <- <- <-.
  assert (H1 : Forall pristine (stages s1)).
  { destruct pad_data as [pd|].
    - bind_inv Hcd as sp Hsp. injection Hcd as <- <-.
      apply (frame_step_pristine s sp); [|exact HF].
      apply (set_scope_frame s sp pd _ Hsp).
    - apply (cache_read_pristine s s1 data' cdata0 _ _ Hcd HF). }
  assert (H2 : Forall pristine (stages s2))
    by (apply (cache_read_pristine s1 s2 kernel ckernel0 _ _ Hck H1)).
  assert (H3 : Forall pristine (stages s3))
    by (apply (frame_step_pristine s2 s3 (set_scope_frame s2 s3 _ _ Hsc) H2)).
  assert (H4 : Forall pristine (stages s4))
    by (apply (cache_read_inputs_pristine env _ s3 cre0 s4 Hcre H3)).
  assert (H5 : Forall pristine (stages s5)).
  { apply (frame_step_pristine s4 s5); [|exact H4].
    eapply for_each_frame; [|exact Hew].
    intros s0 o s0' Hb. apply (ewise_scope_frame env s0 s0' o Hb). }
  apply (frame_step_pristine s5 s6); [|exact H5].
  eapply for_each_frame; [|exact Hco].
  intros s0 o s0' Hb. apply (compute_inline_frame s0 s0' o Hb).
Qed.

(** ** Tiling of the output stage *)

Lemma apply_sizes_length (rest : list Z) :
  forall s t x r s',
    apply_sizes s t x rest = Ok (r, s') ->
    List.length r = S (List.length rest).
Proof.
  induction rest as [|f rest IH]; intros s t x r s' H.
  - injection H as <- <-. reflexivity.
  - cbn [apply_sizes] in H. bind_inv H as [[ax0 ax1] s1] Hs.
    bind_inv H as [ret s2] Hr. injection H as <- <-.
    cbn [List.length]. f_equal. apply (IH s1 t ax1 ret s2 Hr).
Qed.

Lemma apply_unpack2 (e : Entity) (s s' : Schedule) (t : Operation)
    (x a b : IterVar) (r : list IterVar) :
  apply e s t x = Ok (r, s') ->
  unpack2 r = Ok (a, b) ->
  exists sz f,
    e = SplitEntity [sz; f] /\ split s t x (np_prod [f]) = Ok ((a, b), s').
Proof.
  intros H Hu. destruct e as [size|v]; [|discriminate].
  cbn [apply] in H.
  assert (Hlen : List.length r = 2%nat)
    by (destruct r as [|? [|? [|? ?]]]; try discriminate; reflexivity).
  pose proof (apply_sizes_length (tl size) s t x r s' H) as Hl.
  rewrite Hlen in Hl.
  destruct size as [|sz [|f [|g rest]]]; try discriminate.
  exists sz, f. split; [reflexivity|].
  cbn [tl apply_sizes] in H. bind_inv H as [[ax0 ax1] s1] Hs.
  cbn [bind] in H. injection H as <- <-.
  cbn [unpack2] in Hu. injection Hu as <- <-. exact Hs.
Qed.

Lemma reorder_leaves_nonmembers (order members l : list IterVar) :
  Forall (fun x => is_leaf x members = false) l ->
  reorder_leaves order members l = l.
Proof.
  intros H. revert order. induction H as [|x l Hx _ IH]; intros order.
  - reflexivity.
  - cbn [reorder_leaves]. rewrite Hx, IH. reflexivity.
Qed.

Lemma unpack6_axis (o : Operation) (a b c d e f : IterVar) :
  unpack6 (axis o) = Ok (a, b, c, d, e, f) ->
  List.length (shape o) = 6%nat /\
  a = DataAxis (op_id o) 0 /\ b = DataAxis (op_id o) 1 /\
  c = DataAxis (op_id o) 2 /\ d = DataAxis (op_id o) 3 /\
  e = DataAxis (op_id o) 4 /\ f = DataAxis (op_id o) 5.
Proof.
  unfold axis.
  destruct (shape o) as [|? [|? [|? [|? [|? [|? [|? ?]]]]]]];
    cbn; try discriminate.
  intros H. injection H as <- <- <- <- <- <-. repeat split.
Qed.

Lemma unpack4_reduce_axis (o : Operation) (a b c d : IterVar) :
  unpack4 (reduce_axis o) = Ok (a, b, c, d) ->
  List.length (reduce_extents o) = 4%nat /\
  a = ReduceAxis (op_id o) 0 /\ b = ReduceAxis (op_id o) 1 /\
  c = ReduceAxis (op_id o) 2 /\ d = ReduceAxis (op_id o) 3.
Proof.
  unfold reduce_axis.
  destruct (reduce_extents o) as [|? [|? [|? [|? [|? ?]]]]];
    cbn; try discriminate.
  intros H. injection H as <- <- <- <-. repeat split.
Qed.

Lemma axis_six (o : Operation) :
  List.length (shape o) = 6%nat ->
  axis o = [DataAxis (op_id o) 0; DataAxis (op_id o) 1; DataAxis (op_id o) 2;
            DataAxis (op_id o) 3; DataAxis (op_id o) 4; DataAxis (op_id o) 5].
Proof.
  intros H. unfold axis. rewrite H. reflexivity.
Qed.

Lemma reduce_axis_not_data (o : Operation) (members : list IterVar) :
  Forall (fun v => match v with ReduceAxis _ _ => False | _ => True end)
    members ->
  Forall (fun x => is_leaf x members = false) (reduce_axis o).
Proof.
  intros Hm. apply Forall_forall. intros x Hx. unfold reduce_axis in Hx.
  apply in_map_iff in Hx. destruct Hx as [k [<- _]].
  induction Hm as [|v l Hv _ IH]; [reflexivity|].
  cbn [is_leaf existsb]. destruct v; try contradiction; cbn [itervar_eqb orb];
    exact IH.
Qed.

Lemma is_leaf_root_compute (st : Stage) (v : IterVar) :
  pristine st -> is_leaf v (leaf_iter_vars st) = true ->
  op_kind (op st) = ComputeOp /\
  leaf_iter_vars st = axis (op st) ++ reduce_axis (op st).
Proof.
  intros [Hl _] Hv. rewrite Hl in *. unfold root_iter_vars in *.
  destruct (op_kind (op st)); [discriminate|]. auto.
Qed.

(** Simplification of axis comparisons under a symbolic identity. *)
Ltac axes_simpl :=
  repeat first
    [ rewrite Nat.eqb_refl
    | progress cbn [replace_leaf reorder_leaves is_leaf existsb
                    itervar_eqb Nat.eqb andb orb app] ].

Lemma tile_inv (cfg : Config) (s s' : Schedule) (output : Operation)
    (t : Tiles) :
  tile cfg s output = Ok (t, s') ->
  Forall pristine (stages s) ->
  exists st f_co f_h f_w,
    get_stage s output = Ok st /\
    List.length (shape (op st)) = 6%nat /\
    t = output_tiles output /\
    s' = set_stage s output (tiled_stage output st f_co f_h f_w).
Proof.
  unfold tile. intros H HF.
  bind_inv H as st Hst.
  bind_inv H as [[[[[x_bo x_co] x_i] x_j] x_bi] x_ci] Hax.
  bind_inv H as e1 He1. bind_inv H as [r1 s1] Hr1.
  bind_inv H as [x_co0 x_co1] Hu1.
  bind_inv H as e2 He2. bind_inv H as [r2 s2] Hr2.
  bind_inv H as [x_i0 x_i1] Hu2.
  bind_inv H as e3 He3. bind_inv H as [r3 s3] Hr3.
  bind_inv H as [x_j0 x_j1] Hu3.
  bind_inv H as s4 Hre. injection H as <- <-.
  pose proof (get_stage_Ok s output st Hst) as [Hin Hkey].
  unfold key in Hkey.
  assert (Hp : pristine st) by (rewrite Forall_forall in HF; apply HF, Hin).
  apply unpack6_axis in Hax.
  destruct Hax as [Hlen [-> [-> [-> [-> [-> ->]]]]]]. rewrite Hkey in *.
  destruct (apply_unpack2 e1 s s1 output _ _ _ r1 Hr1 Hu1) as [z1 [f1 [_ Hs1]]].
  destruct (apply_unpack2 e2 s1 s2 output _ _ _ r2 Hr2 Hu2) as [z2 [f2 [_ Hs2]]].
  destruct (apply_unpack2 e3 s2 s3 output _ _ _ r3 Hr3 Hu3) as [z3 [f3 [_ Hs3]]].
  clear Hr1 Hr2 Hr3 Hu1 Hu2 Hu3 He1 He2 He3.
  (* first split *)
  apply split_inv in Hs1. destruct Hs1 as [st0 [Hg0 [Hleaf [E1 ->]]]].
  rewrite Hst in Hg0. injection Hg0 as <-. injection E1 as -> ->.
  destruct (is_leaf_root_compute st _ Hp Hleaf) as [Hkind Hleaves].
  destruct Hp as [_ Hrel].
  rewrite Hleaves, Hrel, (axis_six (op st) Hlen), Hkey in *.
  (* second split *)
  apply split_inv in Hs2. destruct Hs2 as [st1 [Hg1 [_ [E2 ->]]]].
  rewrite get_stage_set_stage_same with (st := st) in Hg1
    by (first [exact Hkey | exact Hst]).
  injection Hg1 as <-. injection E2 as -> ->.
  rewrite set_stage_twice in Hs3 by exact Hkey.
  cbn [op leaf_iter_vars relations scope attach iter_var_attrs] in *.
  (* third split *)
  apply split_inv in Hs3. destruct Hs3 as [st2 [Hg2 [_ [E3 ->]]]].
  rewrite get_stage_set_stage_same with (st := st) in Hg2
    by (first [exact Hkey | exact Hst]).
  injection Hg2 as <-. injection E3 as -> ->.
  rewrite set_stage_twice in Hre by exact Hkey.
  cbn [op leaf_iter_vars relations scope attach iter_var_attrs] in *.
  (* reorder *)
  apply reorder_inv in Hre. destruct Hre as [st3 [Hg3 [_ [_ ->]]]].
  rewrite get_stage_set_stage_same with (st := st) in Hg3
    by (first [exact Hkey | exact Hst]).
  injection Hg3 as <-.
  rewrite set_stage_twice by exact Hkey.
  cbn [op leaf_iter_vars relations scope attach iter_var_attrs].
  exists st, (np_prod [f1]), (np_prod [f2]), (np_prod [f3]).
  split; [exact Hst|]. split; [exact Hlen|]. split; [reflexivity|].
  f_equal. unfold tiled_stage. f_equal.
  axes_simpl.
  rewrite reorder_leaves_nonmembers; [reflexivity|].
  apply reduce_axis_not_data. repeat constructor.
Qed.

(** ** The steps of a successful schedule *)

Lemma schedule_conv2d_packed_trace (env : Env) (cfg cfg' : Config)
    (outs : list Operation) (s : Schedule) :
  schedule_conv2d_packed env cfg outs = Ok (cfg', s) ->
  exists tr, is_trace env cfg outs cfg' s tr.
Proof.
  unfold schedule_conv2d_packed. intros H.
  bind_inv H as u Hlen. apply assert_Ok in Hlen. apply Nat.eqb_eq in Hlen.
  destruct outs as [|output [|? ?]]; try discriminate. clear Hlen.
  bind_inv H as o Ho. injection Ho as <-.
  bind_inv H as in0 Hin0. bind_inv H as u1 Hint.
  bind_inv H as c Hc. bind_inv H as u2 Hone.
  apply assert_Ok in Hone. apply Nat.eqb_eq in Hone.
  bind_inv H as conv Hconv.
  destruct (conv2d_res c) as [|conv0 [|? ?]] eqn:Hres; try discriminate.
  injection Hconv as <-.
  cbv zeta in H.
  bind_inv H as cfg1 Hspace.
  bind_inv H as [[[cdata ckernel] cre] s1] Hsetup.
  bind_inv H as [t s2] Htile.
  bind_inv H as s3 Hatt.
  bind_inv H as s4 Hoc.
  bind_inv H as s5 Hh.
  bind_inv H as [[ko xbi] s6] Hred.
  bind_inv H as s7 Hvta.
  injection H as <- <-.
  exists (MkTrace output c conv0 cdata ckernel cre s1 t s2 s3 s4 s5 ko xbi s6).
  unfold is_trace.
  cbn [tr_output tr_classified tr_conv tr_cdata tr_ckernel
       tr_cache_read_ewise tr_scoped tr_tiles tr_tiled tr_attached
       tr_oc_threaded tr_threaded tr_k_o tr_x_bi tr_reduced].
  rewrite Hres. repeat split; assumption.
Qed.

(** ** Attach points *)

Lemma attached_at_set_stage (s : Schedule) (t x parent : Operation)
    (a : IterVar) (st st' : Stage) :
  get_stage s t = Ok st ->
  key st' = op_id t ->
  (attach st = kScope (op_id parent) a -> attach st' = kScope (op_id parent) a) ->
  attached_at s x parent a ->
  attached_at (set_stage s t st') x parent a.
Proof.
  intros Hg Hk Hat [sx [Hx Hax]]. unfold attached_at.
  rewrite (get_stage_set_stage s t x st' Hk), Hx.
  destruct (is_stage_of t sx) eqn:E.
  - exists st'. split; [reflexivity|]. apply Hat.
    rewrite <- (get_stage_same_key s x t sx st Hx Hg E). exact Hax.
  - exists sx. auto.
Qed.

Lemma attached_at_compute_at (s s' : Schedule) (t parent x : Operation)
    (a : IterVar) :
  compute_at s t parent a = Ok s' ->
  attached_at s' t parent a /\
  (attached_at s x parent a -> attached_at s' x parent a).
Proof.
  intros H. apply compute_at_inv in H.
  destruct H as [st [pst [Hg [_ [_ ->]]]]].
  pose proof (get_stage_Ok s t st Hg) as [_ Hk].
  split.
  - eexists. split;
      [apply get_stage_set_stage_same with (st := st);
         [exact Hk | exact Hg]
      | reflexivity].
  - apply attached_at_set_stage with (st := st);
      [exact Hg | exact Hk | auto].
Qed.

Lemma attached_at_annotate (s s' : Schedule) (t x parent : Operation)
    (v a : IterVar) (ann : IterVarAttr) :
  annotate s t v ann = Ok s' ->
  attached_at s x parent a -> attached_at s' x parent a.
Proof.
  intros H. apply annotate_inv in H. destruct H as [st [Hg [_ ->]]].
  pose proof (get_stage_Ok s t st Hg) as [_ Hk].
  apply attached_at_set_stage with (st := st); [exact Hg | exact Hk | auto].
Qed.

Lemma for_each_attach (parent : Operation) (a : IterVar)
    (body : Schedule -> Operation -> result Schedule) (l : list Operation) :
  (forall s o s', body s o = Ok s' ->
                  attached_at s' o parent a /\
                  forall x, attached_at s x parent a ->
                            attached_at s' x parent a) ->
  forall s s',
    for_each l body s = Ok s' ->
    (forall x, attached_at s x parent a -> attached_at s' x parent a) /\
    (forall o, In o l -> attached_at s' o parent a).
Proof.
  intros Hbody. induction l as [|o l IH]; intros s s' H.
  - injection H as <-. split; [auto|intros o []].
  - cbn [for_each] in H. bind_inv H as s1 Hb.
    destruct (Hbody s o s1 Hb) as [Ho Hkeep].
    destruct (IH s1 s' H) as [Hkeep' Hl].
    split; [auto|]. intros o' [<-|Hin]; auto.
Qed.

Lemma set_compute_scopes_attached (env : Env) (s s' : Schedule)
    (output conv : Operation) (c : Classified) (cre : list Operation)
    (t : Tiles) :
  set_compute_scopes env s output conv c cre t = Ok s' ->
  forall x, x = conv \/ In x (ewise_ops c) \/ In x cre ->
            attached_at s' x output (store_pt t).
Proof.
  unfold set_compute_scopes. intros H.
  bind_inv H as s1 Hconv. bind_inv H as s2 Hew.
  destruct (attached_at_compute_at s s1 conv output conv _ Hconv) as [Hc _].
  destruct (for_each_attach output (store_pt t) _ (ewise_ops c)
              (fun s0 o s0' Hb =>
                 conj (proj1 (attached_at_compute_at s0 s0' o output o _ Hb))
                      (fun x => proj2 (attached_at_compute_at s0 s0' o output
                                         x _ Hb)))
              s1 s2 Hew) as [Hk2 He2].
  assert (Hbody : forall s0 o s0',
             (sa <- compute_at s0 o output (store_pt t) ;;
              ax <- first_axis sa o ;;
              pragma sa o ax (dma_copy env)) = Ok s0' ->
             attached_at s0' o output (store_pt t) /\
             forall x, attached_at s0 x output (store_pt t) ->
                       attached_at s0' x output (store_pt t)).
  { intros s0 o s0' Hb. bind_inv Hb as sa Hca. bind_inv Hb as ax Hax.
    destruct (attached_at_compute_at s0 sa o output o _ Hca) as [Ho _].
    split.
    - apply (attached_at_annotate sa s0' o o output ax _ _ Hb Ho).
    - intros x Hx.
      apply (attached_at_annotate sa s0' o x output ax _ _ Hb).
      apply (attached_at_compute_at s0 sa o output x _ Hca). exact Hx. }
  destruct (for_each_attach output (store_pt t) _ cre Hbody s2 s' H)
    as [Hk3 He3].
  intros x [->|[Hx|Hx]]; auto.
Qed.

(** ** Loop nests after tiling *)

Lemma after_tile_frame_stable (oid : nat) : frame_stable (after_tile oid).
Proof. intros st sc a attrs H. exact H. Qed.

Lemma is_leaf_app (v : IterVar) (l1 l2 : list IterVar) :
  is_leaf v (l1 ++ l2) = is_leaf v l1 || is_leaf v l2.
Proof. unfold is_leaf. apply existsb_app. Qed.

Lemma data_axis_not_reduce (o : Operation) (k i : nat) :
  is_leaf (DataAxis k i) (reduce_axis o) = false.
Proof.
  unfold reduce_axis, is_leaf.
  induction (seq 0 (List.length (reduce_extents o))) as [|j l IH];
    [reflexivity|exact IH].
Qed.

Lemma is_leaf_replace_leaf (v p : IterVar) (by_ l : list IterVar) :
  is_leaf v l = false -> is_leaf v by_ = false ->
  is_leaf v (replace_leaf p by_ l) = false.
Proof.
  intros Hl Hb. induction l as [|x l IH]; [reflexivity|].
  cbn [is_leaf existsb] in Hl. apply orb_false_elim in Hl.
  destruct Hl as [Hx Hl]. cbn [replace_leaf].
  destruct (itervar_eqb p x).
  - rewrite is_leaf_app. fold (is_leaf v l) in Hl. rewrite Hb, Hl. reflexivity.
  - cbn [is_leaf existsb]. rewrite Hx. apply IH. exact Hl.
Qed.

Lemma is_leaf_reorder_leaves (v : IterVar) (members l : list IterVar) :
  forall order,
    is_leaf v l = false -> is_leaf v order = false ->
    is_leaf v (reorder_leaves order members l) = false.
Proof.
  induction l as [|x l IH]; intros order Hl Ho; [reflexivity|].
  cbn [is_leaf existsb] in Hl. apply orb_false_elim in Hl.
  destruct Hl as [Hx Hl]. fold (is_leaf v l) in Hl. cbn [reorder_leaves].
  destruct (is_leaf x members).
  - destruct order as [|o order'].
    + cbn [is_leaf existsb]. rewrite Hx. apply (IH [] Hl Ho).
    + cbn [is_leaf existsb] in Ho. apply orb_false_elim in Ho.
      destruct Ho as [Ho1 Ho2]. cbn [is_leaf existsb]. rewrite Ho1.
      apply (IH order' Hl Ho2).
  - cbn [is_leaf existsb]. rewrite Hx. apply (IH order Hl Ho).
Qed.

Lemma tiled_after_tile (s : Schedule) (output : Operation) (st : Stage)
    (f_co f_h f_w : Z) :
  key st = op_id output ->
  Forall pristine (stages s) ->
  Forall (after_tile (op_id output))
    (stages (set_stage s output (tiled_stage output st f_co f_h f_w))).
Proof.
  intros Hkey HF. unfold set_stage. cbn [stages]. apply Forall_forall.
  intros x Hx. apply in_map_iff in Hx. destruct Hx as [y [<- Hy]].
  destruct (is_stage_of output y) eqn:E.
  - split.
    + intros Hne. exfalso. apply Hne. exact Hkey.
    + intros _. cbn [leaf_iter_vars tiled_stage]. rewrite is_leaf_app.
      rewrite data_axis_not_reduce. unfold tiled_order, outer_batch,
        outer_height, outer_channel, outer_width, inner_channel,
        inner_height, inner_width, inner_batch_block, inner_channel_block.
      axes_simpl. reflexivity.
  - rewrite Forall_forall in HF. split.
    + intros _. apply HF. exact Hy.
    + intros Hk. unfold is_stage_of, same_as in E. apply Nat.eqb_neq in E.
      unfold key in Hk. contradiction.
Qed.

Lemma first_axis_pragma_frame (s s' : Schedule) (o : Operation) (p : string) :
  (a <- first_axis s o ;; pragma s o a p) = Ok s' -> frame_step s s'.
Proof.
  intros H. bind_inv H as a Ha. apply (annotate_frame s s' o a _ H).
Qed.

Lemma set_compute_scopes_frame (env : Env) (s s' : Schedule)
    (output conv : Operation) (c : Classified) (cre : list Operation)
    (t : Tiles) :
  set_compute_scopes env s output conv c cre t = Ok s' -> frame_step s s'.
Proof.
  unfold set_compute_scopes. intros H.
  bind_inv H as s1 Hconv. bind_inv H as s2 Hew.
  apply (frame_step_trans s s1 s'); [apply (compute_at_frame _ _ _ _ _ Hconv)|].
  apply (frame_step_trans s1 s2 s').
  - eapply for_each_frame; [|exact Hew].
    intros s0 o s0' Hb. apply (compute_at_frame _ _ _ _ _ Hb).
  - eapply for_each_frame; [|exact H].
    intros s0 o s0' Hb. bind_inv Hb as sa Hca.
    apply (frame_step_trans s0 sa s0');
      [apply (compute_at_frame _ _ _ _ _ Hca)|].
    apply (first_axis_pragma_frame sa s0' o _ Hb).
Qed.

Lemma frame_step_Forall (P : Stage -> Prop) (s s' : Schedule) :
  frame_stable P -> frame_step s s' ->
  Forall P (stages s) -> Forall P (stages s').
Proof. intros HP [_ [H _]]. apply H. exact HP. Qed.

Lemma virtual_thread_after_tile (cfg : Config) (knob : string)
    (s s' : Schedule) (output : Operation) (outer : IterVar) :
  virtual_thread cfg knob s output outer (outer_batch output) = Ok s' ->
  Forall (after_tile (op_id output)) (stages s) ->
  Forall (after_tile (op_id output)) (stages s').
Proof.
  unfold virtual_thread. intros H HF.
  bind_inv H as e He. bind_inv H as n Hn.
  destruct (n >? 1); [|injection H as <-; exact HF].
  bind_inv H as [[o v_t] s1] Hsplit.
  bind_inv H as s2 Hre.
  apply split_inv in Hsplit. destruct Hsplit as [st [Hg [_ [E ->]]]].
  injection E as -> ->.
  pose proof (get_stage_Ok s output st Hg) as [_ Hk].
  assert (H1 : Forall (after_tile (op_id output))
                 (stages (set_stage s output
                    (MkStage (op st)
                       (replace_leaf outer [SplitOuter outer; SplitInner outer]
                          (leaf_iter_vars st))
                       (relations st ++ [(outer, n)]) (scope st) (attach st)
                       (iter_var_attrs st))))).
  { apply (set_stage_Forall_upd _ s output st _ HF Hg).
    intros [_ Hleaf]. split; [intros Hne; exfalso; apply Hne; exact Hk|].
    intros _. cbn [leaf_iter_vars].
    apply is_leaf_replace_leaf; [apply Hleaf; exact Hk|reflexivity]. }
  apply reorder_inv in Hre. destruct Hre as [st1 [Hg1 [_ [_ ->]]]].
  pose proof (get_stage_Ok _ output st1 Hg1) as [_ Hk1].
  apply (frame_step_Forall _ _ s' (after_tile_frame_stable (op_id output))
           (annotate_frame _ _ _ _ _ H)).
  apply (set_stage_Forall_upd _ _ output st1 _ H1 Hg1).
  intros [_ Hleaf]. split; [intros Hne; exfalso; apply Hne; exact Hk1|].
  intros _. cbn [leaf_iter_vars].
  apply is_leaf_reorder_leaves; [apply Hleaf; exact Hk1|].
  unfold outer_batch. axes_simpl. reflexivity.
Qed.

(** ** Reduction staging *)

Lemma reduce_axis_four (o : Operation) :
  List.length (reduce_extents o) = 4%nat ->
  reduce_axis o = [ReduceAxis (op_id o) 0; ReduceAxis (op_id o) 1;
                   ReduceAxis (op_id o) 2; ReduceAxis (op_id o) 3].
Proof.
  intros H. unfold reduce_axis. rewrite H. reflexivity.
Qed.

Lemma stage_reduction_inv (cfg : Config) (s s' : Schedule)
    (output conv cdata ckernel : Operation) (ko xbi : IterVar) :
  stage_reduction cfg s conv cdata ckernel = Ok (ko, xbi, s') ->
  Forall (after_tile (op_id output)) (stages s) ->
  exists st sz f s1,
    get_stage s conv = Ok st /\
    cfg_get cfg "tile_ci" = Ok (SplitEntity [sz; f]) /\
    ko = SplitOuter (k_o conv) /\
    xbi = DataAxis (op_id conv) 4 /\
    compute_at
      (set_stage s conv
         (MkStage (op st) (reduction_order conv) [(k_o conv, np_prod [f])]
            (scope st) (attach st) (iter_var_attrs st)))
      cdata conv ko = Ok s1 /\
    compute_at s1 ckernel conv ko = Ok s'.
Proof.
  unfold stage_reduction. intros H HF.
  bind_inv H as st Hst.
  bind_inv H as [[[[[x_bo x_co] x_i] x_j] x_bi] x_ci] Hax.
  bind_inv H as [[[k_o' d_i'] d_j'] k_i'] Hred.
  bind_inv H as s1 Hre.
  bind_inv H as e He. bind_inv H as [r s2] Hap.
  bind_inv H as [k_o2 k_in] Hu.
  bind_inv H as s3 Hcd. bind_inv H as s4 Hck.
  injection H as <- <- <-.
  pose proof (get_stage_Ok s conv st Hst) as [Hin Hkey].
  apply unpack6_axis in Hax.
  destruct Hax as [Hlen [-> [-> [-> [-> [-> ->]]]]]].
  apply unpack4_reduce_axis in Hred.
  destruct Hred as [Hrlen [-> [-> [-> ->]]]].
  unfold key in Hkey. rewrite Hkey in *.
  destruct (apply_unpack2 e s1 s2 conv _ _ _ r Hap Hu) as [sz [f [-> Hsp]]].
  clear Hap Hu.
  apply reorder_inv in Hre. destruct Hre as [st0 [Hg0 [_ [Hall ->]]]].
  rewrite Hst in Hg0. injection Hg0 as <-.
  (* the convolution is not the output: its width axis is still a loop *)
  assert (Hwidth : is_leaf (DataAxis (op_id conv) 3) (leaf_iter_vars st) = true).
  { cbn [forallb] in Hall.
    repeat (apply andb_prop in Hall; destruct Hall as [? Hall]).
    assumption. }
  rewrite Forall_forall in HF. destruct (HF st Hin) as [Hprist Hout].
  assert (Hne : key st <> op_id output).
  { intros E. unfold key in E. rewrite Hkey in E.
    rewrite <- E in Hout. rewrite Hout in Hwidth; [discriminate|].
    unfold key. rewrite Hkey. reflexivity. }
  specialize (Hprist Hne).
  destruct (is_leaf_root_compute st _ Hprist Hwidth) as [Hkind Hleaves].
  destruct Hprist as [_ Hrel].
  rewrite Hleaves, Hrel, (axis_six (op st) Hlen),
    (reduce_axis_four (op st) Hrlen), Hkey in *.
  apply split_inv in Hsp. destruct Hsp as [st1 [Hg1 [_ [E ->]]]].
  rewrite get_stage_set_stage_same with (st := st) in Hg1
    by (first [exact Hkey | exact Hst]).
  injection Hg1 as <-. injection E as -> ->.
  rewrite set_stage_twice in Hcd by exact Hkey.
  cbn [op leaf_iter_vars relations scope attach iter_var_attrs] in Hcd.
  exists st, sz, f, s3.
  split; [exact Hst|]. split; [exact He|]. split; [reflexivity|].
  split; [reflexivity|]. split; [|exact Hck].
  rewrite <- Hcd. f_equal. f_equal. f_equal.
  unfold reduction_order, k_o, d_i, d_j, k_i. axes_simpl. reflexivity.
Qed.

Lemma space_definition_inv (cfg cfg' : Config) (s : Schedule)
    (conv : Operation) :
  space_definition cfg s conv = Ok cfg' ->
  space_map cfg' = space_map cfg ++ declared_space conv /\
  entity_map cfg' = entity_map cfg /\
  flop cfg' = flop cfg.
Proof.
  unfold space_definition. intros H.
  bind_inv H as st Hst.
  bind_inv H as [[[[[b c_o] x_i] x_j] x_bi] x_ci] Hax.
  bind_inv H as [[[c_i d1] d2] d3] Hred.
  injection H as <-.
  pose proof (get_stage_Ok s conv st Hst) as [_ Hkey]. unfold key in Hkey.
  apply unpack6_axis in Hax.
  destruct Hax as [_ [-> [-> [-> [-> [_ _]]]]]].
  apply unpack4_reduce_axis in Hred. destruct Hred as [_ [-> _]].
  rewrite Hkey. unfold define_split, define_knob, declared_space, k_o.
  cbn [space_map entity_map flop]. rewrite <- !app_assoc.
  repeat split.
Qed.

Lemma use_vta_instructions_inv (env : Env) (s s' : Schedule)
    (output conv cdata ckernel : Operation) (x_bi x_co1 : IterVar) :
  use_vta_instructions env s output conv cdata ckernel x_bi x_co1 = Ok s' ->
  exists a1 s1 a2 s2 s3,
    annotate s cdata a1 (Pragma (dma_copy env)) = Ok s1 /\
    annotate s1 ckernel a2 (Pragma (dma_copy env)) = Ok s2 /\
    annotate s2 conv x_bi (Tensorize (gemm env)) = Ok s3 /\
    annotate s3 output x_co1 (Pragma (dma_copy env)) = Ok s'.
Proof.
  unfold use_vta_instructions, pragma, tensorize. intros H.
  bind_inv H as a1 Ha1. bind_inv H as s1 Hs1.
  bind_inv H as a2 Ha2. bind_inv H as s2 Hs2.
  bind_inv H as s3 Hs3.
  exists a1, s1, a2, s2, s3. auto.
Qed.

Lemma set_stage_Forall_key (P : Stage -> Prop) (s : Schedule) (t : Operation)
    (st' : Stage) :
  P st' -> (forall y, key y <> op_id t -> P y) ->
  Forall P (stages (set_stage s t st')).
Proof.
  intros Hst Hother. unfold set_stage. cbn [stages]. apply Forall_forall.
  intros x Hx. apply in_map_iff in Hx. destruct Hx as [y [<- _]].
  destruct (is_stage_of t y) eqn:E; [exact Hst|].
  apply Hother. unfold is_stage_of, same_as in E. apply Nat.eqb_neq in E.
  exact E.
Qed.

Lemma reduction_staged_frame_stable (conv : Operation) (f : Z) :
  frame_stable (reduction_staged conv f).
Proof. intros st sc a attrs H. exact H. Qed.

(** C7, as stated, fails in its parenthesis: in the run on [ex_out] the
    tunable tile_ci is declared for the first reduce axis of the
    convolution, [k_o], whose extent 4 is the number of input outer
    channels, and not for the input-inner-channel axis [k_i]. *)
Lemma tile_ci_declared_for_outer_channel :
  schedule_conv2d_packed ex_env ex_cfg [ex_out] = Ok ex_run /\
  assoc "tile_ci" (space_map (fst ex_run))
  = Some (DefineSplit (k_o ex_conv) 2) /\
  dom_extent ex_conv (k_o ex_conv) = index (shape ex_data) 1 /\
  dom_extent ex_conv (k_i ex_conv) = index_last (shape ex_data) /\
  k_o ex_conv <> k_i ex_conv.
Proof.
  split; [vm_compute; reflexivity|].
  split; [reflexivity|]. split; [reflexivity|]. split; [reflexivity|].
  discriminate.
Qed.

(** C7, amended: in a successful [schedule_conv2d_packed] the loops of the
    convolution stage are reordered so that the input-outer-channel
    reduction axis [k_o] is outermost among the reduction axes and the
    input-inner-channel reduction axis [k_i] is innermost; the 2-way split
    tile_ci, which the configuration space declares for that same axis
    [k_o] (the first reduce axis), is applied to [k_o], and the cached
    activation and weight buffers are attached at the resulting outer
    axis. *)
Theorem reduction_staging :
  forall (env : Env) (cfg cfg' : Config) (outs : list Operation)
         (s : Schedule),
    schedule_conv2d_packed env cfg outs = Ok (cfg', s) ->
    exists tr sz f st,
      is_trace env cfg outs cfg' s tr /\
      space_map cfg' = space_map cfg ++ declared_space (tr_conv tr) /\
      cfg_get cfg' "tile_ci" = Ok (SplitEntity [sz; f]) /\
      get_stage s (tr_conv tr) = Ok st /\
      leaf_iter_vars st = reduction_order (tr_conv tr) /\
      relations st = [(k_o (tr_conv tr), np_prod [f])] /\
      attached_at s (tr_cdata tr) (tr_conv tr)
        (SplitOuter (k_o (tr_conv tr))) /\
      attached_at s (tr_ckernel tr) (tr_conv tr)
        (SplitOuter (k_o (tr_conv tr))).
Proof.
  intros env cfg cfg' outs s H.
  destruct (schedule_conv2d_packed_trace env cfg cfg' outs s H) as [tr Htr].
  pose proof Htr as Htr0.
  destruct Htr as [_ [_ [_ [Hspace [Hsetup [Htile [Hatt [Hoc [Hh [Hred Hvta]]]]]]]]]].
  set (output := tr_output tr) in *. set (conv := tr_conv tr) in *.
  pose proof (setup_scopes_pristine env _ _ _ _ _ _ _ Hsetup
                (create_schedule_pristine [output])) as Hp.
  destruct (tile_inv cfg' (tr_scoped tr) (tr_tiled tr) output
              (tr_tiles tr) Htile Hp)
    as [sto [f_co [f_h [f_w [Hsto [_ [Ht Hs']]]]]]].
  pose proof (get_stage_Ok _ _ _ Hsto) as [_ Hko].
  assert (Ha1 : Forall (after_tile (op_id output)) (stages (tr_tiled tr)))
    by (rewrite Hs'; apply (tiled_after_tile _ _ _ _ _ _ Hko Hp)).
  assert (Ha2 : Forall (after_tile (op_id output)) (stages (tr_attached tr))).
  { apply (frame_step_Forall _ _ _ (after_tile_frame_stable (op_id output))
             (set_compute_scopes_frame env _ _ _ _ _ _ _ Hatt) Ha1). }
  rewrite Ht in Hoc, Hh. cbn [output_tiles t_co0 t_bo t_i0] in Hoc, Hh.
  pose proof (virtual_thread_after_tile _ _ _ _ _ _ Hoc Ha2) as Ha3.
  pose proof (virtual_thread_after_tile _ _ _ _ _ _ Hh Ha3) as Ha4.
  destruct (stage_reduction_inv cfg' _ _ output conv _ _ _ _ Hred Ha4)
    as [st [sz [f [s1 [Hst [Hcfg [Hko' [Hxbi [Hcd Hck]]]]]]]]].
  pose proof (get_stage_Ok _ _ _ Hst) as [_ Hkc].
  destruct (use_vta_instructions_inv env _ _ _ _ _ _ _ _ Hvta)
    as [a1 [v1 [a2 [v2 [v3 [Hv1 [Hv2 [Hv3 Hv4]]]]]]]].
  rewrite Hko' in *.
  (* the steps after the split only touch attach points and annotations *)
  assert (Hframe : frame_step
            (set_stage (tr_threaded tr) conv
               (MkStage (op st) (reduction_order conv)
                  [(k_o conv, np_prod [f])] (scope st) (attach st)
                  (iter_var_attrs st))) s).
  { apply (frame_step_trans _ s1 _); [apply (compute_at_frame _ _ _ _ _ Hcd)|].
    apply (frame_step_trans _ (tr_reduced tr) _);
      [apply (compute_at_frame _ _ _ _ _ Hck)|].
    apply (frame_step_trans _ v1 _); [apply (annotate_frame _ _ _ _ _ Hv1)|].
    apply (frame_step_trans _ v2 _); [apply (annotate_frame _ _ _ _ _ Hv2)|].
    apply (frame_step_trans _ v3 _); [apply (annotate_frame _ _ _ _ _ Hv3)|].
    apply (annotate_frame _ _ _ _ _ Hv4). }
  assert (Hstaged : Forall (reduction_staged conv (np_prod [f])) (stages s)).
  { apply (frame_step_Forall _ _ _
             (reduction_staged_frame_stable conv (np_prod [f])) Hframe).
    apply set_stage_Forall_key.
    - intros _. split; reflexivity.
    - intros y Hy Hk. contradiction. }
  assert (Hex : exists stf, get_stage s conv = Ok stf).
  { apply get_stage_keys. destruct Hframe as [Hkeys _]. rewrite Hkeys.
    eapply get_stage_In_keys.
    apply get_stage_set_stage_same with (st := st); [exact Hkc|exact Hst]. }
  destruct Hex as [stf Hstf].
  pose proof (get_stage_Ok _ _ _ Hstf) as [Hinf Hkf].
  rewrite Forall_forall in Hstaged.
  destruct (Hstaged stf Hinf Hkf) as [Hleaves Hrel].
  (* attach points of the cached buffers *)
  destruct (attached_at_compute_at _ _ _ conv (tr_cdata tr) _ Hcd)
    as [Hcd1 _].
  destruct (attached_at_compute_at _ _ _ conv (tr_cdata tr) _ Hck)
    as [_ Hcd2].
  destruct (attached_at_compute_at _ _ _ conv (tr_ckernel tr) _ Hck)
    as [Hck1 _].
  assert (Hkeep : forall x,
             attached_at (tr_reduced tr) x conv (SplitOuter (k_o conv)) ->
             attached_at s x conv (SplitOuter (k_o conv))).
  { intros x Hx.
    apply (attached_at_annotate _ _ _ _ _ _ _ _ Hv4).
    apply (attached_at_annotate _ _ _ _ _ _ _ _ Hv3).
    apply (attached_at_annotate _ _ _ _ _ _ _ _ Hv2).
    apply (attached_at_annotate _ _ _ _ _ _ _ _ Hv1). exact Hx. }
  destruct (space_definition_inv cfg cfg' _ conv Hspace) as [Hsm _].
  exists tr, sz, f, stf.
  split; [exact Htr0|]. split; [exact Hsm|]. split; [exact Hcfg|].
  split; [exact Hstf|]. split; [exact Hleaves|]. split; [exact Hrel|].
  split; apply Hkeep; auto.
Qed.

Lemma reduction_staging_witness :
  exists tr sz f st,
    is_trace ex_env ex_cfg [ex_out] (fst ex_run) (snd ex_run) tr /\
    space_map (fst ex_run) = space_map ex_cfg ++ declared_space (tr_conv tr) /\
    cfg_get (fst ex_run) "tile_ci" = Ok (SplitEntity [sz; f]) /\
    get_stage (snd ex_run) (tr_conv tr) = Ok st /\
    leaf_iter_vars st = reduction_order (tr_conv tr) /\
    relations st = [(k_o (tr_conv tr), np_prod [f])] /\
    attached_at (snd ex_run) (tr_cdata tr) (tr_conv tr)
      (SplitOuter (k_o (tr_conv tr))) /\
    attached_at (snd ex_run) (tr_ckernel tr) (tr_conv tr)
      (SplitOuter (k_o (tr_conv tr))).
Proof.
  apply (reduction_staging ex_env ex_cfg (fst ex_run) [ex_out] (snd ex_run)).
  vm_compute. reflexivity.
Defined.

(** ** The stages of a new schedule *)

Lemma max_id_inputs (o : Operation) :
  max_id o
  = Nat.max (op_id o)
      (fold_right (fun x m => Nat.max (max_id x) m) O (input_tensors o)).
Proof.
  destruct o as [id kind name tag dt sh red ins].
  cbn [max_id op_id input_tensors]. reflexivity.
Qed.

Lemma max_id_self (o : Operation) : (op_id o <= max_id o)%nat.
Proof. rewrite max_id_inputs. apply Nat.le_max_l. Qed.

Lemma max_id_input (o t : Operation) :
  In t (input_tensors o) -> (max_id t <= max_id o)%nat.
Proof.
  intros Ht. rewrite (max_id_inputs o).
  etransitivity; [|apply Nat.le_max_r].
  induction (input_tensors o) as [|x l IH]; [destruct Ht|].
  cbn [fold_right]. destruct Ht as [->|Ht].
  - apply Nat.le_max_l.
  - etransitivity; [apply IH; exact Ht|apply Nat.le_max_r].
Qed.

Lemma dfs_adds_refl (bound : nat) (acc : list nat * list Operation) :
  dfs_adds bound acc acc.
Proof.
  split; [auto|]. exists []. rewrite app_nil_r. split; [reflexivity|constructor].
Qed.

Lemma dfs_adds_trans (b1 b2 : nat) (a1 a2 a3 : list nat * list Operation) :
  (b1 <= b2)%nat ->
  dfs_adds b1 a1 a2 -> dfs_adds b2 a2 a3 -> dfs_adds b2 a1 a3.
Proof.
  intros Hb [V1 [n1 [E1 F1]]] [V2 [n2 [E2 F2]]]. split; [auto|].
  exists (n1 ++ n2). split; [rewrite E2, E1, app_assoc; reflexivity|].
  apply Forall_app. split.
  - eapply Forall_impl; [|exact F1]. intros x [Hx Hle]. split; [exact Hx|lia].
  - eapply Forall_impl; [|exact F2]. intros x [Hx Hle]. split; [|exact Hle].
    intros Hin. apply Hx. apply V1. exact Hin.
Qed.

Lemma post_dfs_inputs_adds (bound : nat) (l : list Operation) :
  Forall (fun t => (max_id t <= bound)%nat /\
                   forall acc, dfs_adds (max_id t) acc (post_dfs t acc)) l ->
  forall acc,
    dfs_adds bound acc
      ((fix go (l : list Operation) (acc : list nat * list Operation)
          : list nat * list Operation :=
          match l with
          | [] => acc
          | x :: l' => go l' (post_dfs x acc)
          end) l acc).
Proof.
  induction 1 as [|t l [Hle Ht] _ IH]; intros acc.
  - apply dfs_adds_refl.
  - apply (dfs_adds_trans bound bound acc (post_dfs t acc) _ (le_n _)).
    + destruct (Ht acc) as [V [n [E F]]]. split; [exact V|].
      exists n. split; [exact E|]. eapply Forall_impl; [|exact F].
      intros x [Hx Hb]. split; [exact Hx|lia].
    + apply IH.
Qed.

Lemma post_dfs_adds (o : Operation) :
  forall acc, dfs_adds (max_id o) acc (post_dfs o acc).
Proof.
  induction o as [o IH] using Operation_nested_ind. intros acc.
  destruct o as [id kind name tag dt sh red ins].
  cbn [post_dfs op_id input_tensors]. cbn [input_tensors] in IH.
  set (o := MkOp id kind name tag dt sh red ins) in *.
  destruct (existsb (Nat.eqb id) (fst acc)) eqn:Hv; [apply dfs_adds_refl|].
  assert (Hins : Forall (fun t => (max_id t <= max_id o)%nat /\
                    forall acc, dfs_adds (max_id t) acc (post_dfs t acc)) ins).
  { apply Forall_forall. intros t Ht. split.
    - apply (max_id_input o t Ht).
    - rewrite Forall_forall in IH. apply (IH t Ht). }
  destruct (post_dfs_inputs_adds (max_id o) ins Hins (id :: fst acc, snd acc))
    as [V [n [E F]]].
  cbn [fst snd] in V, E, F. split.
  - cbn [fst]. intros k Hk. apply V. right. exact Hk.
  - exists (n ++ [o]). cbn [snd]. split; [rewrite E, app_assoc; reflexivity|].
    apply Forall_app. split.
    + eapply Forall_impl; [|exact F]. intros x [Hx Hb]. split; [|exact Hb].
      intros Hin. apply Hx. right. exact Hin.
    + constructor; [|constructor]. split; [|apply (max_id_self o)].
      intros Hin. change (op_id o) with id in Hin.
      assert (existsb (Nat.eqb id) (fst acc) = true); [|congruence].
      apply existsb_exists. exists id. split; [exact Hin|apply Nat.eqb_refl].
Qed.

Lemma find_app_none {A : Type} (p : A -> bool) (l1 l2 : list A) :
  find p l1 = None -> find p (l1 ++ l2) = find p l2.
Proof.
  induction l1 as [|x l1 IH]; [reflexivity|]. cbn [find app].
  destruct (p x); [discriminate|exact IH].
Qed.

(** In the schedule created for one output, the stage found under the
    identity of the output is the stage of the output operation itself. *)
Lemma create_schedule_output (output : Operation) :
  get_stage (create_schedule [output]) output = Ok (new_stage output) /\
  fresh (create_schedule [output]).
Proof.
  unfold create_schedule, post_order, get_stage, fresh, stage_keys.
  cbn [stages next_id fold_left].
  destruct output as [id kind name tag dt sh red ins].
  cbn [post_dfs op_id input_tensors existsb fst snd].
  set (o := MkOp id kind name tag dt sh red ins) in *.
  assert (Hins : Forall (fun t => (max_id t <= max_id o)%nat /\
                    forall acc, dfs_adds (max_id t) acc (post_dfs t acc)) ins).
  { apply Forall_forall. intros t Ht. split.
    - apply (max_id_input o t Ht).
    - apply post_dfs_adds. }
  destruct (post_dfs_inputs_adds (max_id o) ins Hins ([id], []))
    as [_ [n [E F]]].
  cbn [fst snd app] in E, F. rewrite E. split.
  - rewrite map_app.
    assert (Hn : find (is_stage_of o) (map new_stage n) = None).
    { clear E. induction F as [|x l [Hx _] _ IHl]; [reflexivity|].
      cbn [map find]. unfold is_stage_of at 1, same_as.
      cbn [op new_stage].
      destruct (Nat.eqb (op_id x) (op_id o)) eqn:E.
      - apply Nat.eqb_eq in E. exfalso. apply Hx. left. symmetry. exact E.
      - exact IHl. }
    rewrite (find_app_none _ _ _ Hn). cbn [map find].
    unfold is_stage_of, same_as.
    cbn [op new_stage]. rewrite Nat.eqb_refl. reflexivity.
  - rewrite map_map. apply Forall_forall. intros k Hk.
    apply in_map_iff in Hk. destruct Hk as [x [<- Hx]].
    unfold key, fresh_id. cbn [op new_stage fold_right].
    rewrite Nat.max_0_r. apply Nat.lt_succ_r.
    apply in_app_or in Hx. destruct Hx as [Hx|[<-|[]]].
    + rewrite Forall_forall in F. apply (F x Hx).
    + apply (max_id_self o).
Qed.

(** ** Steps that keep the loop nests *)

Lemma same_signature_refl (o : Operation) : same_signature o o.
Proof. repeat split. Qed.

Lemma same_signature_trans (o1 o2 o3 : Operation) :
  same_signature o1 o2 -> same_signature o2 o3 -> same_signature o1 o3.
Proof.
  intros [A1 [B1 [C1 D1]]] [A2 [B2 [C2 D2]]]. repeat split; congruence.
Qed.

Lemma keeps_loops_refl (s : Schedule) : keeps_loops s s.
Proof.
  intros x st H. exists st. split; [exact H|].
  split; [apply same_signature_refl|]. split; reflexivity.
Qed.

Lemma keeps_loops_trans (s1 s2 s3 : Schedule) :
  keeps_loops s1 s2 -> keeps_loops s2 s3 -> keeps_loops s1 s3.
Proof.
  intros L1 L2 x st H.
  destruct (L1 x st H) as [st2 [H2 [Hs2 [Hl2 Hr2]]]].
  destruct (L2 x st2 H2) as [st3 [H3 [Hs3 [Hl3 Hr3]]]].
  exists st3. split; [exact H3|].
  split; [apply (same_signature_trans _ _ _ Hs2 Hs3)|]. split; congruence.
Qed.

Lemma keeps_loops_loops_at (s s' : Schedule) (x : Operation)
    (leaves : list IterVar) (splits : list (IterVar * Z)) :
  keeps_loops s s' -> loops_at s x leaves splits -> loops_at s' x leaves splits.
Proof.
  intros L [st [Hg [Hl Hr]]].
  destruct (L x st Hg) as [st' [Hg' [_ [Hl' Hr']]]].
  exists st'. split; [exact Hg'|]. split; congruence.
Qed.

Lemma frame_loop_step (s s' : Schedule) : frame_step s s' -> loop_step s s'.
Proof.
  intros [K [_ [N L]]]. split; [exact K|]. split; [exact N|].
  intros x st H. destruct (L x st H) as [st' [H' [Ho [Hl Hr]]]].
  exists st'. split; [exact H'|]. rewrite Ho.
  split; [apply same_signature_refl|]. auto.
Qed.

Lemma loop_step_refl (s : Schedule) : loop_step s s.
Proof. apply frame_loop_step, frame_step_refl. Qed.

Lemma loop_step_trans (s1 s2 s3 : Schedule) :
  loop_step s1 s2 -> loop_step s2 s3 -> loop_step s1 s3.
Proof.
  intros [K1 [N1 L1]] [K2 [N2 L2]].
  split; [congruence|]. split; [congruence|].
  apply (keeps_loops_trans s1 s2 s3 L1 L2).
Qed.

Lemma loop_step_fresh (s s' : Schedule) :
  loop_step s s' -> fresh s -> fresh s'.
Proof. intros [K [N _]]. unfold fresh. rewrite K, N. auto. Qed.

Lemma loop_step_loops_at (s s' : Schedule) (x : Operation)
    (leaves : list IterVar) (splits : list (IterVar * Z)) :
  loop_step s s' -> loops_at s x leaves splits -> loops_at s' x leaves splits.
Proof. intros [_ [_ L]]. apply keeps_loops_loops_at. exact L. Qed.

Lemma loop_grow_step (s s' : Schedule) : loop_step s s' -> grow_step s s'.
Proof.
  intros H Hf. split; [apply (loop_step_fresh s s' H Hf)|apply H].
Qed.

Lemma grow_step_refl (s : Schedule) : grow_step s s.
Proof. intros Hf. split; [exact Hf|apply keeps_loops_refl]. Qed.

Lemma grow_step_trans (s1 s2 s3 : Schedule) :
  grow_step s1 s2 -> grow_step s2 s3 -> grow_step s1 s3.
Proof.
  intros G1 G2 Hf. destruct (G1 Hf) as [Hf2 L1].
  destruct (G2 Hf2) as [Hf3 L2].
  split; [exact Hf3|apply (keeps_loops_trans s1 s2 s3 L1 L2)].
Qed.

Lemma find_map_preserving {A : Type} (p : A -> bool) (g : A -> A)
    (l : list A) :
  (forall y, p (g y) = p y) ->
  find p (map g l) = option_map g (find p l).
Proof.
  intros H. induction l as [|y l IH]; [reflexivity|].
  cbn [map find]. rewrite H. destruct (p y); [reflexivity|exact IH].
Qed.

Lemma auto_inline_frame (s : Schedule) : frame_step s (AutoInlineInjective s).
Proof.
  unfold AutoInlineInjective.
  set (g := fun st : Stage =>
              if negb (is_scheduled st) && IsInjective (op st)
                 && negb (is_output s st)
              then MkStage (op st) (leaf_iter_vars st) (relations st)
                     (scope st) kInline (iter_var_attrs st)
              else st).
  assert (Hop : forall st, op (g st) = op st)
    by (intros st; unfold g; destruct (_ && _ && _); reflexivity).
  split; [|split; [|split]].
  - unfold stage_keys. cbn [stages]. rewrite map_map. apply map_ext.
    intros st. unfold key. rewrite Hop. reflexivity.
  - intros P HP HF. cbn [stages]. apply Forall_forall. intros x Hx.
    apply in_map_iff in Hx. destruct Hx as [y [<- Hy]].
    rewrite Forall_forall in HF. specialize (HF y Hy). unfold g.
    destruct (_ && _ && _); [apply HP; exact HF|exact HF].
  - reflexivity.
  - intros x st Hx. unfold get_stage in *. cbn [stages].
    rewrite (find_map_preserving (is_stage_of x) g (stages s)).
    + destruct (find (is_stage_of x) (stages s)); [|discriminate].
      injection Hx as ->. exists (g st). split; [reflexivity|].
      unfold g. destruct (_ && _ && _); repeat split; reflexivity.
    + intros y. unfold is_stage_of. rewrite Hop. reflexivity.
Qed.

Lemma reader_update_loop_step (s : Schedule) (r : Operation) (st : Stage)
    (o' : Operation) :
  get_stage s r = Ok st ->
  same_signature (op st) o' ->
  loop_step s
    (set_stage s r
       (MkStage o' (leaf_iter_vars st) (relations st) (scope st) (attach st)
          (iter_var_attrs st))).
Proof.
  intros Hg Ho. pose proof (get_stage_Ok s r st Hg) as [_ Hk].
  assert (Hk' : key (MkStage o' (leaf_iter_vars st) (relations st) (scope st)
                       (attach st) (iter_var_attrs st)) = op_id r).
  { destruct Ho as [Hid _]. unfold key in *. cbn [op]. congruence. }
  split; [apply set_stage_keys; exact Hk'|]. split; [reflexivity|].
  intros x sx Hx. rewrite get_stage_set_stage by exact Hk'. rewrite Hx.
  destruct (is_stage_of r sx) eqn:E.
  - rewrite (get_stage_same_key s x r sx st Hx Hg E).
    eexists. split; [reflexivity|]. split; [exact Ho|]. split; reflexivity.
  - exists sx. split; [reflexivity|].
    split; [apply same_signature_refl|]. split; reflexivity.
Qed.

Lemma find_insert_after (x t : Operation) (c : Stage) (l : list Stage) :
  is_stage_of x c = false ->
  find (is_stage_of x) (insert_after t c l) = find (is_stage_of x) l.
Proof.
  intros Hc. induction l as [|y l IH]; [reflexivity|].
  cbn [insert_after]. destruct (is_stage_of t y).
  - cbn [find]. rewrite Hc. reflexivity.
  - cbn [find]. rewrite IH. reflexivity.
Qed.

Lemma keys_insert_after (t : Operation) (c : Stage) (l : list Stage) :
  forall k, In k (map key (insert_after t c l)) ->
            k = key c \/ In k (map key l).
Proof.
  induction l as [|y l IH]; intros k Hk; [destruct Hk|].
  cbn [insert_after] in Hk. destruct (is_stage_of t y).
  - cbn [map In] in *. destruct Hk as [<-|[<-|Hk]]; auto.
  - cbn [map In] in *. destruct Hk as [<-|Hk]; [auto|].
    destruct (IH k Hk); auto.
Qed.

Lemma cache_read_grow (s s' : Schedule) (tensor c : Operation) (sc : string)
    (readers : list Operation) :
  cache_read s tensor sc readers = Ok (c, s') -> grow_step s s'.
Proof.
  unfold cache_read. intros H Hf.
  bind_inv H as stt Ht. bind_inv H as s1 Hloop.
  injection H as <- <-.
  assert (Hstep : loop_step s s1).
  { eapply (for_each_rel loop_step);
      [apply loop_step_refl | apply loop_step_trans | | exact Hloop].
    intros s0 r s0' _ Hb. bind_inv Hb as st Hst.
    destruct (reads (op st) tensor); cbn [negb] in Hb; [|discriminate].
    injection Hb as <-. apply (reader_update_loop_step s0 r st _ Hst).
    repeat split. }
  pose proof (loop_step_fresh s s1 Hstep Hf) as Hf1.
  destruct Hstep as [K [N L]]. split.
  - unfold fresh, stage_keys in *. cbn [stages next_id].
    apply Forall_forall. intros k Hk. apply keys_insert_after in Hk.
    destruct Hk as [->|Hk].
    + unfold key. cbn [op op_id]. rewrite N. lia.
    + rewrite Forall_forall in Hf1. specialize (Hf1 k Hk). lia.
  - intros x st Hg.
    destruct (L x st Hg) as [st1 [Hg1 Hsame]].
    exists st1. split; [|exact Hsame].
    unfold get_stage in *. cbn [stages].
    rewrite find_insert_after; [exact Hg1|].
    unfold is_stage_of, same_as. cbn [op op_id]. apply Nat.eqb_neq.
    apply (get_stage_In_keys s x st) in Hg.
    unfold fresh in Hf. rewrite Forall_forall in Hf. specialize (Hf _ Hg). lia.
Qed.

(** ** _schedule_add on an integral output *)

Lemma factors_Ok_pos (n : Z) (fs : list Z) : factors n = Ok fs -> 1 <= n.
Proof.
  unfold factors. intros H.
  destruct (filter (fun i => n mod i =? 0) (range 1 (Z.sqrt n + 1)))
    as [|i l] eqn:E; [discriminate|].
  assert (Hi : In i (filter (fun i => n mod i =? 0) (range 1 (Z.sqrt n + 1))))
    by (rewrite E; left; reflexivity).
  apply filter_In in Hi. destruct Hi as [Hr _]. apply In_range in Hr.
  assert (Hs : 0 < Z.sqrt n) by lia.
  apply (proj1 (Z.sqrt_pos n)) in Hs. lia.
Qed.

Lemma selection_largest (ceiling n f : Z) (fs : list Z) :
  1 <= ceiling ->
  factors n = Ok fs -> select_factor ceiling fs = Ok f ->
  largest_divisor_upto ceiling n f.
Proof.
  intros Hc Hfs Hf. pose proof (factors_Ok_pos n fs Hfs) as Hn.
  destruct (tile_factor_largest_divisor ceiling n Hn Hc)
    as [fs' [f' [Hfs' [Hf' Hl]]]].
  rewrite Hfs in Hfs'. injection Hfs' as <-.
  rewrite Hf in Hf'. injection Hf' as <-. exact Hl.
Qed.

Lemma add_cache_reads_grow (env : Env) (l : list (Operation * Tensor)) :
  forall s cs s', add_cache_reads env l s = Ok (cs, s') -> grow_step s s'.
Proof.
  induction l as [|[consumer tensor] l IH]; intros s cs s' H.
  - injection H as <- <-. apply grow_step_refl.
  - cbn [add_cache_reads] in H. bind_inv H as [c s1] Hc.
    bind_inv H as [cs' s2] Hrest. injection H as <- <-.
    apply (grow_step_trans s s1 s2).
    + apply (cache_read_grow s s1 tensor c _ _ Hc).
    + apply (IH s1 cs' s2 Hrest).
Qed.

Lemma schedule_add_int_inv (env : Env) (s s' : Schedule) (output : Operation) :
  schedule_add_int env s output = Ok s' ->
  Forall pristine (stages s) ->
  fresh s ->
  exists st h w fs_h f_h fs_w f_w,
    get_stage s output = Ok st /\
    index (shape (op st)) 2 = Ok h /\
    index (shape (op st)) 3 = Ok w /\
    factors h = Ok fs_h /\ select_factor 28 fs_h = Ok f_h /\
    factors w = Ok fs_w /\ select_factor 14 fs_w = Ok f_w /\
    loops_at s' output (tiled_order output ++ reduce_axis (op st))
      [(DataAxis (op_id output) 1, 1); (DataAxis (op_id output) 2, f_h);
       (DataAxis (op_id output) 3, f_w)].
Proof.
  unfold schedule_add_int. intros H HF Hfresh.
  bind_inv H as st Hst.
  bind_inv H as [[[[[x_bo x_co] x_i] x_j] x_bi] x_ci] Hax.
  bind_inv H as x_co_max Hcm. bind_inv H as x_i_max Him.
  bind_inv H as x_j_max Hjm.
  bind_inv H as [[x_co0 x_co1] s1] Hs1.
  bind_inv H as i_factors Hif. bind_inv H as i_factor Hisel.
  bind_inv H as j_factors Hjf. bind_inv H as j_factor Hjsel.
  bind_inv H as [[x_i0 x_i1] s2] Hs2.
  bind_inv H as [[x_j0 x_j1] s3] Hs3.
  bind_inv H as s4 Hre.
  bind_inv H as s5 Hew.
  bind_inv H as [cre s6] Hcr.
  bind_inv H as s7 Hcp.
  bind_inv H as s8 Hco.
  pose proof (get_stage_Ok s output st Hst) as [Hin Hkey].
  unfold key in Hkey.
  assert (Hp : pristine st) by (rewrite Forall_forall in HF; apply HF, Hin).
  apply unpack6_axis in Hax.
  destruct Hax as [Hlen [-> [-> [-> [-> [-> ->]]]]]]. rewrite Hkey in *.
  cbn [dom_extent] in Him, Hjm.
  (* first split *)
  apply split_inv in Hs1. destruct Hs1 as [st0 [Hg0 [Hleaf [E1 ->]]]].
  rewrite Hst in Hg0. injection Hg0 as <-. injection E1 as -> ->.
  destruct (is_leaf_root_compute st _ Hp Hleaf) as [Hkind Hleaves].
  destruct Hp as [_ Hrel].
  rewrite Hleaves, Hrel, (axis_six (op st) Hlen), Hkey in *.
  (* second split *)
  apply split_inv in Hs2. destruct Hs2 as [st1 [Hg1 [_ [E2 ->]]]].
  rewrite get_stage_set_stage_same with (st := st) in Hg1
    by (first [exact Hkey | exact Hst]).
  injection Hg1 as <-. injection E2 as -> ->.
  rewrite set_stage_twice in Hs3 by exact Hkey.
  cbn [op leaf_iter_vars relations scope attach iter_var_attrs] in *.
  (* third split *)
  apply split_inv in Hs3. destruct Hs3 as [st2 [Hg2 [_ [E3 ->]]]].
  rewrite get_stage_set_stage_same with (st := st) in Hg2
    by (first [exact Hkey | exact Hst]).
  injection Hg2 as <-. injection E3 as -> ->.
  rewrite set_stage_twice in Hre by exact Hkey.
  cbn [op leaf_iter_vars relations scope attach iter_var_attrs] in *.
  (* reorder *)
  apply reorder_inv in Hre. destruct Hre as [st3 [Hg3 [_ [_ ->]]]].
  rewrite get_stage_set_stage_same with (st := st) in Hg3
    by (first [exact Hkey | exact Hst]).
  injection Hg3 as <-.
  rewrite set_stage_twice in Hew by exact Hkey.
  cbn [op leaf_iter_vars relations scope attach iter_var_attrs] in Hew.
  set (tiled := MkStage (op st) _ _ (scope st) (attach st) (iter_var_attrs st))
    in Hew.
  assert (Hl4 : loops_at (set_stage s output tiled) output
                  (tiled_order output ++ reduce_axis (op st))
                  [(DataAxis (op_id output) 1, 1);
                   (DataAxis (op_id output) 2, i_factor);
                   (DataAxis (op_id output) 3, j_factor)]).
  { exists tiled. split.
    - apply get_stage_set_stage_same with (st := st); [exact Hkey|exact Hst].
    - split; [|reflexivity]. unfold tiled. cbn [leaf_iter_vars].
      unfold tiled_order, outer_batch, outer_height, outer_channel,
        outer_width, inner_channel, inner_height, inner_width,
        inner_batch_block, inner_channel_block.
      axes_simpl.
      rewrite reorder_leaves_nonmembers; [reflexivity|].
      apply reduce_axis_not_data. repeat constructor. }
  assert (Hf4 : fresh (set_stage s output tiled)).
  { unfold fresh. rewrite set_stage_keys by exact Hkey. exact Hfresh. }
  (* the steps that follow keep the loop nests *)
  assert (H45 : loop_step (set_stage s output tiled) s5).
  { apply frame_loop_step. eapply for_each_frame; [|exact Hew].
    intros s0 eo s0' Hb. bind_inv Hb as sa Hsa. bind_inv Hb as a Ha.
    bind_inv Hb as sb Hsb.
    apply (frame_step_trans s0 sa s0'); [apply (set_scope_frame _ _ _ _ Hsa)|].
    apply (frame_step_trans sa sb s0'); [apply (annotate_frame _ _ _ _ _ Hsb)|].
    apply (compute_at_frame _ _ _ _ _ Hb). }
  destruct (add_cache_reads_grow env _ s5 cre s6 Hcr
              (loop_step_fresh _ _ H45 Hf4)) as [Hf6 Hl6].
  assert (H67 : loop_step s6 s7).
  { apply frame_loop_step. eapply for_each_frame; [|exact Hcp].
    intros s0 t s0' Hb. bind_inv Hb as a Ha. bind_inv Hb as sa Hsa.
    apply (frame_step_trans s0 sa s0'); [apply (annotate_frame _ _ _ _ _ Hsa)|].
    apply (compute_at_frame _ _ _ _ _ Hb). }
  assert (H78 : loop_step s7 s8).
  { apply frame_loop_step. eapply for_each_frame; [|exact Hco].
    intros s0 t s0' Hb. apply (compute_inline_frame _ _ _ Hb). }
  assert (H8 : loop_step s8 s')
    by (apply frame_loop_step, (annotate_frame _ _ _ _ _ H)).
  exists st, x_i_max, x_j_max, i_factors, i_factor, j_factors, j_factor.
  repeat (split; [assumption|]).
  apply (loop_step_loops_at s8 s' _ _ _ H8).
  apply (loop_step_loops_at s7 s8 _ _ _ H78).
  apply (loop_step_loops_at s6 s7 _ _ _ H67).
  apply (keeps_loops_loops_at s5 s6 _ _ _ Hl6).
  apply (loop_step_loops_at _ s5 _ _ _ H45). exact Hl4.
Qed.

(** C8: for a fused add with an integral output dtype and constant height
    and width extents, [_schedule_add] splits the height axis of the output
    by the largest divisor of the height extent that does not exceed 28 and
    the width axis by the largest divisor of the width extent that does not
    exceed 14; the selection succeeds on every positive extent; for the
    extents 56 and 56 the factors are 28 and 14. *)
Theorem schedule_add_tile_factors :
  (forall (env : Env) (output : Operation) (s : Schedule)
          (b c h w bi ci : Z),
      contains "int" (dtype output) = true ->
      shape output = [b; c; h; w; bi; ci] ->
      _schedule_add env [output] = Ok s ->
      exists f_h f_w,
        largest_divisor_upto 28 h f_h /\
        largest_divisor_upto 14 w f_w /\
        loops_at s output (tiled_order output ++ reduce_axis output)
          [(DataAxis (op_id output) 1, 1);
           (DataAxis (op_id output) 2, f_h);
           (DataAxis (op_id output) 3, f_w)]) /\
  (forall n, 1 <= n ->
      exists fs f_h f_w,
        factors n = Ok fs /\
        select_factor 28 fs = Ok f_h /\ largest_divisor_upto 28 n f_h /\
        select_factor 14 fs = Ok f_w /\ largest_divisor_upto 14 n f_w) /\
  (exists fs,
      factors 56 = Ok fs /\
      select_factor 28 fs = Ok 28 /\ select_factor 14 fs = Ok 14).
Proof.
  split; [|split].
  - intros env output s b c h w bi ci Hint Hshape H.
    unfold _schedule_add in H.
    change (assert (Nat.eqb (List.length [output]) 1)) with (Ok tt) in H.
    change (index [output] 0) with (Ok output) in H.
    cbn [bind] in H. rewrite Hint in H.
    destruct (create_schedule_output output) as [Hout Hfresh].
    pose proof (auto_inline_frame (create_schedule [output])) as Hframe.
    destruct (schedule_add_int_inv env _ s output H
                (frame_step_pristine _ _ Hframe
                   (create_schedule_pristine [output]))
                (loop_step_fresh _ _ (frame_loop_step _ _ Hframe) Hfresh))
      as [st [h' [w' [fs_h [f_h [fs_w [f_w
            [Hst [Hh [Hw [Hfh [Hsh [Hfw [Hsw Hloops]]]]]]]]]]]]]].
    destruct Hframe as [_ [_ [_ Hlook]]].
    destruct (Hlook output (new_stage output) Hout)
      as [st' [Hst' [Hop _]]].
    rewrite Hst in Hst'. injection Hst' as <-.
    cbn [op new_stage] in Hop. rewrite Hop in *. rewrite Hshape in Hh, Hw.
    injection Hh as <-. injection Hw as <-.
    exists f_h, f_w.
    split; [apply (selection_largest 28 h f_h fs_h ltac:(lia) Hfh Hsh)|].
    split; [apply (selection_largest 14 w f_w fs_w ltac:(lia) Hfw Hsw)|].
    exact Hloops.
  - intros n Hn.
    destruct (tile_factor_largest_divisor 28 n Hn ltac:(lia))
      as [fs [f_h [Hfs [Hsh Hlh]]]].
    destruct (tile_factor_largest_divisor 14 n Hn ltac:(lia))
      as [fs' [f_w [Hfs' [Hsw Hlw]]]].
    rewrite Hfs in Hfs'. injection Hfs' as <-.
    exists fs, f_h, f_w. auto 6.
  - eexists. split; [vm_compute; reflexivity|]. split; reflexivity.
Qed.

Lemma schedule_add_tile_factors_witness :
  (exists f_h f_w,
      largest_divisor_upto 28 56 f_h /\
      largest_divisor_upto 14 56 f_w /\
      loops_at ex_add_run ex_int_add
        (tiled_order ex_int_add ++ reduce_axis ex_int_add)
        [(DataAxis (op_id ex_int_add) 1, 1);
         (DataAxis (op_id ex_int_add) 2, f_h);
         (DataAxis (op_id ex_int_add) 3, f_w)]) /\
  (exists fs f_h f_w,
      factors 56 = Ok fs /\
      select_factor 28 fs = Ok f_h /\ largest_divisor_upto 28 56 f_h /\
      select_factor 14 fs = Ok f_w /\ largest_divisor_upto 14 56 f_w).
Proof.
  split.
  - apply (proj1 schedule_add_tile_factors ex_env ex_int_add ex_add_run
             1 4 56 56 1 16).
    + reflexivity.
    + reflexivity.
    + vm_compute. reflexivity.
  - apply (proj1 (proj2 schedule_add_tile_factors) 56). lia.
Defined.

(** ** Scopes and cached copies keep the loop nests *)

Lemma reduce_axis_signature (o o' : Operation) :
  same_signature o o' -> reduce_axis o' = reduce_axis o.
Proof.
  intros [Hid [_ [_ Hred]]]. unfold reduce_axis. rewrite Hid, Hred.
  reflexivity.
Qed.

Lemma cache_read_inputs_grow (env : Env) (l : list (Operation * Tensor)) :
  forall s cs s', cache_read_inputs env l s = Ok (cs, s') -> grow_step s s'.
Proof.
  induction l as [|[consumer tensor] l IH]; intros s cs s' H.
  - injection H as <- <-. apply grow_step_refl.
  - cbn [cache_read_inputs] in H. bind_inv H as [c s1] Hc.
    bind_inv H as [cs' s2] Hrest. injection H as <- <-.
    apply (grow_step_trans s s1 s2).
    + apply (cache_read_grow s s1 tensor c _ _ Hc).
    + apply (IH s1 cs' s2 Hrest).
Qed.

Lemma frame_grow_step (s s' : Schedule) : frame_step s s' -> grow_step s s'.
Proof. intros H. apply loop_grow_step, frame_loop_step, H. Qed.

Lemma setup_scopes_grow (env : Env) (s s' : Schedule)
    (conv2d_stage cdata ckernel : Operation) (c : Classified)
    (cre : list Operation) :
  setup_scopes env s conv2d_stage c = Ok (cdata, ckernel, cre, s') ->
  grow_step s s'.
Proof.
  unfold setup_scopes. intros H.
  bind_inv H as [data kernel] Hun.
  bind_inv H as [data' pad_data] Hpad.
  bind_inv H as [cdata0 s1] Hcd.
  bind_inv H as [ckernel0 s2] Hck.
  bind_inv H as s3 Hsc.
  bind_inv H as [cre0 s4] Hcre.
  bind_inv H as s5 Hew.
  bind_inv H as s6 Hco.
  injection H as <- <- <- <-.
  apply (grow_step_trans s s1 s6).
  { destruct pad_data as [pd|].
    - bind_inv Hcd as sp Hsp. injection Hcd as <- <-.
      apply frame_grow_step, (set_scope_frame s sp pd _ Hsp).
    - apply (cache_read_grow s s1 data' cdata0 _ _ Hcd). }
  apply (grow_step_trans s1 s2 s6);
    [apply (cache_read_grow s1 s2 kernel ckernel0 _ _ Hck)|].
  apply (grow_step_trans s2 s3 s6);
    [apply frame_grow_step, (set_scope_frame s2 s3 _ _ Hsc)|].
  apply (grow_step_trans s3 s4 s6);
    [apply (cache_read_inputs_grow env _ s3 cre0 s4 Hcre)|].
  apply (grow_step_trans s4 s5 s6).
  - apply frame_grow_step. eapply for_each_frame; [|exact Hew].
    intros s0 o s0' Hb. apply (ewise_scope_frame env s0 s0' o Hb).
  - apply frame_grow_step. eapply for_each_frame; [|exact Hco].
    intros s0 o s0' Hb. apply (compute_inline_frame s0 s0' o Hb).
Qed.

(** C6: in a successful [schedule_conv2d_packed], the output stage after
    tiling has its axes in the order outer_batch, outer_height,
    outer_channel, outer_width, inner_channel, inner_height, inner_width,
    inner_batch_block, inner_channel_block (followed by the reduce axes of
    the output operation, if it has any), and the steps that follow attach
    the convolution stage, every elementwise stage and every cached copy of
    an elementwise input at the outer_width axis of the output stage. *)
Theorem output_tiling_and_attach_points :
  forall (env : Env) (cfg cfg' : Config) (outs : list Operation)
         (s : Schedule),
    schedule_conv2d_packed env cfg outs = Ok (cfg', s) ->
    exists tr,
      is_trace env cfg outs cfg' s tr /\
      tr_tiles tr = output_tiles (tr_output tr) /\
      (exists st,
          get_stage (tr_tiled tr) (tr_output tr) = Ok st /\
          leaf_iter_vars st
          = tiled_order (tr_output tr) ++ reduce_axis (tr_output tr)) /\
      (forall x,
          x = tr_conv tr \/ In x (ewise_ops (tr_classified tr)) \/
          In x (tr_cache_read_ewise tr) ->
          attached_at (tr_attached tr) x (tr_output tr)
            (outer_width (tr_output tr))).
Proof.
  intros env cfg cfg' outs s H.
  destruct (schedule_conv2d_packed_trace env cfg cfg' outs s H) as [tr Htr].
  exists tr. split; [exact Htr|].
  destruct Htr as [_ [_ [_ [_ [Hsetup [Htile [Hatt _]]]]]]].
  pose proof (setup_scopes_pristine env _ _ _ _ _ _ _ Hsetup
                (create_schedule_pristine [tr_output tr])) as Hp.
  destruct (tile_inv cfg' (tr_scoped tr) (tr_tiled tr) (tr_output tr)
              (tr_tiles tr) Htile Hp)
    as [st [f_co [f_h [f_w [Hst [_ [Ht Hs']]]]]]].
  split; [exact Ht|]. split.
  - exists (tiled_stage (tr_output tr) st f_co f_h f_w). split.
    + rewrite Hs'. apply get_stage_set_stage_same with (st := st);
        [|exact Hst].
      apply (get_stage_Ok _ _ _ Hst).
    + destruct (create_schedule_output (tr_output tr)) as [Hout Hfresh].
      destruct (setup_scopes_grow env _ _ _ _ _ _ _ Hsetup Hfresh)
        as [_ Hkeep].
      destruct (Hkeep _ _ Hout) as [st' [Hst' [Hsig _]]].
      rewrite Hst in Hst'. injection Hst' as <-.
      cbn [tiled_stage leaf_iter_vars]. f_equal.
      apply (reduce_axis_signature _ _ Hsig).
  - intros x Hx.
    pose proof (set_compute_scopes_attached env _ _ _ _ _ _ _ Hatt x Hx) as Ha.
    rewrite Ht in Ha. exact Ha.
Qed.

Lemma output_tiling_and_attach_points_witness :
  exists tr,
    is_trace ex_env ex_cfg [ex_out] (fst ex_run) (snd ex_run) tr /\
    tr_tiles tr = output_tiles (tr_output tr) /\
    (exists st,
        get_stage (tr_tiled tr) (tr_output tr) = Ok st /\
        leaf_iter_vars st
        = tiled_order (tr_output tr) ++ reduce_axis (tr_output tr)) /\
    (forall x,
        x = tr_conv tr \/ In x (ewise_ops (tr_classified tr)) \/
        In x (tr_cache_read_ewise tr) ->
        attached_at (tr_attached tr) x (tr_output tr)
          (outer_width (tr_output tr))).
Proof.
  apply (output_tiling_and_attach_points ex_env ex_cfg (fst ex_run) [ex_out]
           (snd ex_run)).
  vm_compute. reflexivity.
Defined.


(** * Further properties of the three functions *)

(** ** conv2d_packed: outcome *)

Lemma conv2d_packed_Ok_inv (ipl : string -> bool) cfg data kernel sh sw ph pw
    dil layout out_dtype r :
  conv2d_packed ipl cfg data kernel (sh, sw) (ph, pw) dil layout out_dtype
  = Ok r ->
  ipl layout = true /\ dil = (1, 1) /\
  List.length (shape data) = 6%nat /\ List.length (shape kernel) = 6%nat.
Proof.
  unfold conv2d_packed. intros H.
  destruct (ipl layout) eqn:Hl; cbn [negb] in H; [|discriminate].
  bind_inv H as u Hdil. apply assert_Ok in Hdil.
  bind_inv H as pad_data Hpad.
  bind_inv H as u1 Hd. apply assert_Ok, Nat.eqb_eq in Hd.
  bind_inv H as u2 Hk. apply assert_Ok, Nat.eqb_eq in Hk.
  split; [reflexivity|]. split; [|split; assumption].
  destruct dil as [d1 d2]. unfold pair_eqb in Hdil. cbn [fst snd] in Hdil.
  apply andb_prop in Hdil. destruct Hdil as [H1 H2].
  apply Z.eqb_eq in H1, H2. subst. reflexivity.
Qed.

Lemma length_six {A : Type} (l : list A) :
  List.length l = 6%nat -> exists a b c d e f, l = [a; b; c; d; e; f].
Proof.
  destruct l as [|a [|b [|c [|d [|e [|f [|g l]]]]]]]; try discriminate.
  intros _. exists a, b, c, d, e, f. reflexivity.
Qed.

Lemma conv2d_packed_zero_stride_any (ipl : string -> bool) cfg data kernel
    sh sw ph pw layout out_dtype :
  ipl layout = true ->
  List.length (shape data) = 6%nat ->
  List.length (shape kernel) = 6%nat -> sh = 0 \/ sw = 0 ->
  conv2d_packed ipl cfg data kernel (sh, sw) (ph, pw) (1, 1) layout out_dtype
  = Raise TVMError.
Proof.
  intros Hl Hd Hk Hs.
  destruct (length_six _ Hd) as [b [ci [h [w [bi [cii Hd']]]]]].
  destruct (length_six _ Hk) as [ko [kci [kh [kw [koi [kii Hk']]]]]].
  apply (conv2d_packed_zero_stride ipl cfg data kernel layout out_dtype
           sh sw ph pw b ci h w bi cii ko kci kh kw koi kii Hl Hd' Hk' Hs).
Qed.

Lemma conv2d_packed_Ok_valid (ipl : string -> bool) cfg data kernel sh sw
    ph pw dil layout out_dtype r :
  conv2d_packed ipl cfg data kernel (sh, sw) (ph, pw) dil layout out_dtype
  = Ok r ->
  ipl layout = true /\ dil = (1, 1) /\
  List.length (shape data) = 6%nat /\ List.length (shape kernel) = 6%nat /\
  sh <> 0 /\ sw <> 0.
Proof.
  intros Hr.
  destruct (conv2d_packed_Ok_inv ipl cfg data kernel sh sw ph pw dil layout
              out_dtype r Hr) as [Hl [Hdil [Hd Hk]]].
  repeat (split; [assumption|]). subst dil.
  destruct (Z.eq_dec sh 0) as [E1|E1];
    [|destruct (Z.eq_dec sw 0) as [E2|E2]]; [| |split; assumption];
    exfalso;
    rewrite (conv2d_packed_zero_stride_any ipl cfg data kernel sh sw ph pw
               layout out_dtype Hl Hd Hk) in Hr by tauto; discriminate.
Qed.

Lemma conv2d_packed_bad_rank (ipl : string -> bool) cfg data kernel sh sw pw
    layout out_dtype :
  ipl layout = true ->
  List.length (shape data) <> 6%nat \/ List.length (shape kernel) <> 6%nat ->
  conv2d_packed ipl cfg data kernel (sh, sw) (0, pw) (1, 1) layout out_dtype
  = Raise AssertionError.
Proof.
  intros Hl Hr. unfold conv2d_packed. rewrite Hl.
  cbn [negb pair_eqb fst snd Z.eqb Pos.eqb andb assert bind].
  destruct (Nat.eqb (List.length (shape data)) 6) eqn:Ed; cbn [bind];
    [|reflexivity].
  destruct (Nat.eqb (List.length (shape kernel)) 6) eqn:Ek; cbn [bind];
    [|reflexivity].
  apply Nat.eqb_eq in Ed, Ek. destruct Hr; contradiction.
Qed.

(** X1: [conv2d_packed] returns only when the layout is packed, the
    dilation is (1,1), the activation and the kernel have rank 6 and both
    strides are non-zero.  An unpacked layout is refused before anything
    else, with InvalidShapeError; then a dilation other than (1,1) fails its
    assertion; and with no height padding, so that no pad is built, an
    activation or a kernel of another rank fails the rank assertions. *)
Theorem conv2d_packed_outcome :
  forall (ipl : string -> bool) cfg data kernel sh sw ph pw dil layout
         out_dtype,
    (forall r,
        conv2d_packed ipl cfg data kernel (sh, sw) (ph, pw) dil layout
          out_dtype = Ok r ->
        ipl layout = true /\ dil = (1, 1) /\
        List.length (shape data) = 6%nat /\
        List.length (shape kernel) = 6%nat /\ sh <> 0 /\ sw <> 0) /\
    (ipl layout = false ->
     conv2d_packed ipl cfg data kernel (sh, sw) (ph, pw) dil layout out_dtype
     = Raise InvalidShapeError) /\
    (ipl layout = true -> dil <> (1, 1) ->
     conv2d_packed ipl cfg data kernel (sh, sw) (ph, pw) dil layout out_dtype
     = Raise AssertionError) /\
    (ipl layout = true -> dil = (1, 1) -> ph = 0 ->
     List.length (shape data) <> 6%nat \/
     List.length (shape kernel) <> 6%nat ->
     conv2d_packed ipl cfg data kernel (sh, sw) (ph, pw) dil layout out_dtype
     = Raise AssertionError).
Proof.
  intros ipl cfg data kernel sh sw ph pw dil layout out_dtype.
  split; [|split; [|split]].
  - intros r Hr.
    apply (conv2d_packed_Ok_valid ipl cfg data kernel sh sw ph pw dil layout
             out_dtype r Hr).
  - intros Hl. unfold conv2d_packed. rewrite Hl. reflexivity.
  - intros Hl Hdil. unfold conv2d_packed. rewrite Hl. cbn [negb].
    destruct dil as [d1 d2]. unfold pair_eqb. cbn [fst snd].
    destruct (d1 =? 1) eqn:E1; [destruct (d2 =? 1) eqn:E2|]; try reflexivity.
    apply Z.eqb_eq in E1, E2. subst. contradiction.
  - intros Hl -> -> Hr.
    apply (conv2d_packed_bad_rank ipl cfg data kernel sh sw pw layout
             out_dtype Hl Hr).
Qed.

Lemma conv2d_packed_outcome_witness :
  (any_layout "NCHW1n16c" = true /\ (1, 1) = (1, 1) /\
   List.length (shape ex_data) = 6%nat /\
   List.length (shape ex_kernel) = 6%nat /\ 1 <> 0 /\ 1 <> 0) /\
  conv2d_packed (String.eqb "NCHW1n16c") ex_cfg ex_data ex_kernel (1, 1)
    (1, 1) (1, 1) "NCHW" "int32" = Raise InvalidShapeError /\
  conv2d_packed any_layout ex_cfg ex_data ex_kernel (1, 1) (1, 1) (2, 2)
    "NCHW1n16c" "int32" = Raise AssertionError /\
  conv2d_packed any_layout ex_cfg (placeholder 0 "data" "int8" [1; 64; 16; 16])
    ex_kernel (1, 1) (0, 0) (1, 1) "NCHW1n16c" "int32"
  = Raise AssertionError.
Proof.
  split; [|split; [|split]].
  - apply (proj1 (conv2d_packed_outcome any_layout ex_cfg ex_data ex_kernel
                    1 1 1 1 (1, 1) "NCHW1n16c" "int32")
             (add_flop ex_cfg 18874368, ex_conv)).
    vm_compute. reflexivity.
  - apply (proj1 (proj2 (conv2d_packed_outcome (String.eqb "NCHW1n16c")
                           ex_cfg ex_data ex_kernel 1 1 1 1 (1, 1)
                           "NCHW" "int32"))).
    reflexivity.
  - apply (proj1 (proj2 (proj2 (conv2d_packed_outcome any_layout ex_cfg
                                  ex_data ex_kernel 1 1 1 1 (2, 2)
                                  "NCHW1n16c" "int32")))).
    + reflexivity.
    + discriminate.
  - apply (proj2 (proj2 (proj2 (conv2d_packed_outcome any_layout ex_cfg
                                  (placeholder 0 "data" "int8" [1; 64; 16; 16])
                                  ex_kernel 1 1 0 0 (1, 1)
                                  "NCHW1n16c" "int32")))).
    + reflexivity.
    + reflexivity.
    + reflexivity.
    + left. discriminate.
Defined.

(** ** conv2d_packed: what the declaration depends on *)

(** X2: [conv2d_packed] never looks at the input-channel extents of the
    kernel ([kernel.shape[1]] and [kernel.shape[5]]): it neither compares
    them with the channel extents of the activation nor uses them.  A kernel
    that differs only there is accepted as well, with the same output
    shape, the same reduction extents (those of the activation's channels
    and of the kernel window) and the same recorded cost. *)
Theorem conv2d_packed_ignores_kernel_input_channels :
  forall (ipl : string -> bool) cfg data kernel kernel' strides padding dil
         layout out_dtype cfg1 res1 ko kci kci' kh kw koi kii kii',
    shape kernel = [ko; kci; kh; kw; koi; kii] ->
    shape kernel' = [ko; kci'; kh; kw; koi; kii'] ->
    conv2d_packed ipl cfg data kernel strides padding dil layout out_dtype
    = Ok (cfg1, res1) ->
    exists cfg2 res2,
      conv2d_packed ipl cfg data kernel' strides padding dil layout out_dtype
      = Ok (cfg2, res2) /\
      shape res2 = shape res1 /\
      reduce_extents res2 = reduce_extents res1 /\
      flop cfg2 = flop cfg1.
Proof.
  intros ipl cfg data kernel kernel' [sh sw] [ph pw] dil layout out_dtype
         cfg1 res1 ko kci kci' kh kw koi kii kii' Hk Hk' Hrun.
  destruct (conv2d_packed_Ok_valid ipl cfg data kernel sh sw ph pw dil layout
              out_dtype _ Hrun)
    as [Hl [-> [Hd [_ [Hsh Hsw]]]]].
  destruct (length_six _ Hd) as [b [ci [h [w [bi [cii Hd']]]]]].
  rewrite (conv2d_packed_run ipl cfg data kernel layout out_dtype
             sh sw ph pw b ci h w bi cii ko kci kh kw koi kii
             Hl Hd' Hk Hsh Hsw) in Hrun.
  cbv zeta in Hrun. injection Hrun as <- <-.
  eexists _, _. split.
  - apply (conv2d_packed_run ipl cfg data kernel' layout out_dtype
             sh sw ph pw b ci h w bi cii ko kci' kh kw koi kii'
             Hl Hd' Hk' Hsh Hsw).
  - cbn [shape reduce_extents]. split; [reflexivity|].
    split; reflexivity.
Qed.

Lemma conv2d_packed_ignores_kernel_input_channels_witness :
  exists cfg2 res2,
    conv2d_packed any_layout ex_cfg ex_data ex_kernel_narrow (1, 1) (1, 1)
      (1, 1) "NCHW1n16c" "int32" = Ok (cfg2, res2) /\
    shape res2 = shape ex_conv /\
    reduce_extents res2 = reduce_extents ex_conv /\
    flop cfg2 = flop (add_flop ex_cfg 18874368).
Proof.
  apply (conv2d_packed_ignores_kernel_input_channels any_layout ex_cfg ex_data
           ex_kernel ex_kernel_narrow (1, 1) (1, 1) (1, 1) "NCHW1n16c"
           "int32" (add_flop ex_cfg 18874368) ex_conv 4 4 2 3 3 16 16 8).
  - reflexivity.
  - reflexivity.
  - vm_compute. reflexivity.
Defined.

(** ** What a successful [schedule_conv2d_packed] needs *)

Lemma trace_tiled (env : Env) (cfg cfg' : Config) (outs : list Operation)
    (s : Schedule) (tr : Trace) :
  is_trace env cfg outs cfg' s tr ->
  exists st f_co f_h f_w,
    get_stage (tr_scoped tr) (tr_output tr) = Ok st /\
    List.length (shape (op st)) = 6%nat /\
    same_signature (tr_output tr) (op st) /\
    tr_tiles tr = output_tiles (tr_output tr) /\
    tr_tiled tr
    = set_stage (tr_scoped tr) (tr_output tr)
        (tiled_stage (tr_output tr) st f_co f_h f_w) /\
    Forall pristine (stages (tr_scoped tr)) /\
    Forall (after_tile (op_id (tr_output tr))) (stages (tr_attached tr)) /\
    Forall (after_tile (op_id (tr_output tr))) (stages (tr_threaded tr)).
Proof.
  intros Htr.
  destruct Htr as [_ [_ [_ [_ [Hsetup [Htile [Hatt [Hoc [Hh _]]]]]]]]].
  set (output := tr_output tr) in *.
  pose proof (setup_scopes_pristine env _ _ _ _ _ _ _ Hsetup
                (create_schedule_pristine [output])) as Hp.
  destruct (tile_inv cfg' (tr_scoped tr) (tr_tiled tr) output
              (tr_tiles tr) Htile Hp)
    as [sto [f_co [f_h [f_w [Hsto [Hlen [Ht Hs']]]]]]].
  pose proof (get_stage_Ok _ _ _ Hsto) as [_ Hko].
  assert (Ha1 : Forall (after_tile (op_id output)) (stages (tr_tiled tr)))
    by (rewrite Hs'; apply (tiled_after_tile _ _ _ _ _ _ Hko Hp)).
  assert (Ha2 : Forall (after_tile (op_id output)) (stages (tr_attached tr))).
  { apply (frame_step_Forall _ _ _ (after_tile_frame_stable (op_id output))
             (set_compute_scopes_frame env _ _ _ _ _ _ _ Hatt) Ha1). }
  rewrite Ht in Hoc, Hh. cbn [output_tiles t_co0 t_bo t_i0] in Hoc, Hh.
  pose proof (virtual_thread_after_tile _ _ _ _ _ _ Hoc Ha2) as Ha3.
  pose proof (virtual_thread_after_tile _ _ _ _ _ _ Hh Ha3) as Ha4.
  destruct (create_schedule_output output) as [Hout Hfresh].
  destruct (setup_scopes_grow env _ _ _ _ _ _ _ Hsetup Hfresh)
    as [_ Hkeep].
  destruct (Hkeep _ _ Hout) as [st' [Hst' [Hsig _]]].
  rewrite Hsto in Hst'. injection Hst' as <-.
  exists sto, f_co, f_h, f_w.
  repeat (split; [assumption|]). exact Ha4.
Qed.

(** The reorder of the convolution stage names the width axis of the
    convolution, which is no longer a loop of the output stage. *)
Lemma stage_reduction_not_output (cfg : Config) (s s' : Schedule)
    (output conv cdata ckernel : Operation) (ko xbi : IterVar) :
  stage_reduction cfg s conv cdata ckernel = Ok (ko, xbi, s') ->
  Forall (after_tile (op_id output)) (stages s) ->
  op_id conv <> op_id output.
Proof.
  unfold stage_reduction. intros H HF E.
  bind_inv H as st Hst.
  bind_inv H as [[[[[x_bo x_co] x_i] x_j] x_bi] x_ci] Hax.
  bind_inv H as [[[k_o' d_i'] d_j'] k_i'] Hred.
  bind_inv H as s1 Hre.
  pose proof (get_stage_Ok s conv st Hst) as [Hin Hkey].
  apply unpack6_axis in Hax.
  destruct Hax as [Hlen [-> [-> [-> [-> [-> ->]]]]]].
  unfold key in Hkey. rewrite Hkey in *.
  apply reorder_inv in Hre. destruct Hre as [st0 [Hg0 [_ [Hall _]]]].
  rewrite Hst in Hg0. injection Hg0 as <-.
  assert (Hwidth : is_leaf (DataAxis (op_id conv) 3) (leaf_iter_vars st) = true).
  { cbn [forallb] in Hall.
    repeat (apply andb_prop in Hall; destruct Hall as [? Hall]).
    assumption. }
  rewrite Forall_forall in HF. destruct (HF st Hin) as [_ Hout].
  rewrite E in Hwidth. rewrite Hout in Hwidth; [discriminate|].
  unfold key. rewrite Hkey. exact E.
Qed.

Lemma trace_conv_not_output (env : Env) (cfg cfg' : Config)
    (outs : list Operation) (s : Schedule) (tr : Trace) :
  is_trace env cfg outs cfg' s tr ->
  op_id (tr_conv tr) <> op_id (tr_output tr).
Proof.
  intros Htr.
  destruct (trace_tiled env cfg cfg' outs s tr Htr)
    as [st [f_co [f_h [f_w [_ [_ [_ [_ [_ [_ [_ Ha]]]]]]]]]]].
  destruct Htr as [_ [_ [_ [_ [_ [_ [_ [_ [_ [Hred _]]]]]]]]]].
  apply (stage_reduction_not_output _ _ _ _ _ _ _ _ _ Hred Ha).
Qed.

Lemma trace_conv_reached (env : Env) (cfg cfg' : Config)
    (outs : list Operation) (s : Schedule) (tr : Trace) :
  is_trace env cfg outs cfg' s tr ->
  In (tr_conv tr) (calls (tr_output tr)) /\
  op_tag (tr_conv tr) = conv2d_tag.
Proof.
  intros [_ [Hc [Hres _]]].
  apply traverse_Ok in Hc. destruct Hc as [Htags Hc].
  rewrite Hc in Hres. cbn [classified_by conv2d_res no_ops app] in Hres.
  assert (Hin : In (tr_conv tr) (filter is_conv_call (calls (tr_output tr))))
    by (rewrite Hres; left; reflexivity).
  apply filter_In in Hin. destruct Hin as [Hin Hconv].
  split; [exact Hin|].
  rewrite forallb_forall in Htags. specialize (Htags _ Hin).
  unfold tag_ok in Htags. unfold is_conv_call in Hconv.
  apply negb_true_iff in Hconv. rewrite Hconv in Htags.
  apply String.eqb_eq. exact Htags.
Qed.

Lemma trace_conv_unique (env : Env) (cfg cfg' : Config)
    (outs : list Operation) (s : Schedule) (tr : Trace) :
  is_trace env cfg outs cfg' s tr ->
  filter is_conv_call (calls (tr_output tr)) = [tr_conv tr].
Proof.
  intros [_ [Hc [Hres _]]].
  apply traverse_Ok in Hc. destruct Hc as [_ Hc].
  rewrite Hc in Hres. cbn [classified_by conv2d_res no_ops app] in Hres.
  exact Hres.
Qed.

Lemma trace_output_broadcast (env : Env) (cfg cfg' : Config)
    (outs : list Operation) (s : Schedule) (tr : Trace) :
  is_trace env cfg outs cfg' s tr ->
  is_broadcast (op_tag (tr_output tr)) = true.
Proof.
  intros Htr.
  pose proof (trace_conv_not_output env cfg cfg' outs s tr Htr) as Hne.
  destruct (trace_conv_reached env cfg cfg' outs s tr Htr) as [Hin _].
  destruct (is_broadcast (op_tag (tr_output tr))) eqn:Hb; [reflexivity|].
  exfalso. apply Hne.
  destruct (tr_output tr) as [id kind name tag dt sh red ins].
  cbn [calls op_tag] in Hin, Hb. rewrite Hb in Hin.
  destruct Hin as [<-|[]]. reflexivity.
Qed.

Lemma schedule_conv2d_packed_success (env : Env) (cfg cfg' : Config)
    (outs : list Operation) (s : Schedule) :
  schedule_conv2d_packed env cfg outs = Ok (cfg', s) ->
  exists output conv data kernel in0 rest,
    outs = [output] /\
    input_tensors output = in0 :: rest /\
    contains "int" (dtype in0) = true /\
    is_broadcast (op_tag output) = true /\
    List.length (shape output) = 6%nat /\
    reached output conv /\
    op_tag conv = conv2d_tag /\
    op_id conv <> op_id output /\
    input_tensors conv = [data; kernel] /\
    filter is_conv_call (calls output) = [conv] /\
    (forall x, reached output x -> is_broadcast (op_tag x) = false ->
               x = conv).
Proof.
  intros H.
  destruct (schedule_conv2d_packed_trace env cfg cfg' outs s H) as [tr Htr].
  pose proof (trace_conv_not_output env cfg cfg' outs s tr Htr) as Hne.
  destruct (trace_conv_reached env cfg cfg' outs s tr Htr) as [Hin Htag].
  pose proof (trace_output_broadcast env cfg cfg' outs s tr Htr) as Hb.
  pose proof (trace_conv_unique env cfg cfg' outs s tr Htr) as Huniq.
  destruct (trace_tiled env cfg cfg' outs s tr Htr)
    as [st [f_co [f_h [f_w [_ [Hlen [[_ [_ [Hsh _]]] _]]]]]]].
  destruct Htr as [Houts [_ [_ [_ [Hsetup _]]]]].
  (* the two inputs of the convolution *)
  unfold setup_scopes in Hsetup.
  bind_inv Hsetup as [data kernel] Hun.
  assert (Hins : input_tensors (tr_conv tr) = [data; kernel]).
  { destruct (input_tensors (tr_conv tr)) as [|a [|b [|? ?]]];
      try discriminate.
    injection Hun as -> ->. reflexivity. }
  (* the assertion on the first input of the output *)
  subst outs. unfold schedule_conv2d_packed in H.
  change (assert (Nat.eqb (List.length [tr_output tr]) 1)) with (Ok tt) in H.
  change (index [tr_output tr] 0) with (Ok (tr_output tr)) in H.
  cbn [bind] in H.
  bind_inv H as in0 Hin0. bind_inv H as u Hint. apply assert_Ok in Hint.
  assert (Hfirst : exists rest, input_tensors (tr_output tr) = in0 :: rest).
  { unfold index in Hin0.
    destruct (input_tensors (tr_output tr)) as [|a rest]; [discriminate|].
    injection Hin0 as ->. exists rest. reflexivity. }
  destruct Hfirst as [rest Hfirst].
  exists (tr_output tr), (tr_conv tr), data, kernel, in0, rest.
  split; [reflexivity|]. split; [exact Hfirst|]. split; [exact Hint|].
  split; [exact Hb|]. split; [rewrite <- Hsh; exact Hlen|].
  split; [apply reached_calls; exact Hin|].
  split; [exact Htag|]. split; [exact Hne|]. split; [exact Hins|].
  split; [exact Huniq|].
  intros x Hx Hnb. apply reached_calls in Hx.
  assert (Hf : In x (filter is_conv_call (calls (tr_output tr)))).
  { apply filter_In. split; [exact Hx|].
    unfold is_conv_call. rewrite Hnb. reflexivity. }
  rewrite Huniq in Hf. destruct Hf as [<-|[]]. reflexivity.
Qed.

(** X3: a run of [schedule_conv2d_packed] that returns was given one output;
    the output operation is tagged broadcast or elementwise and has rank 6,
    its first input has an integer dtype, and exactly one convolution is
    reached from it, which is not the output itself and reads exactly two
    tensors.  Exactly one: the traversal from the output meets an operation
    that is not tagged broadcast or elementwise once, at that convolution,
    and every such operation reached from the output is that convolution. *)
Theorem schedule_conv2d_packed_needs_elementwise_output :
  forall (env : Env) (cfg cfg' : Config) (outs : list Operation)
         (s : Schedule),
    schedule_conv2d_packed env cfg outs = Ok (cfg', s) ->
    exists output conv data kernel in0 rest,
      outs = [output] /\
      input_tensors output = in0 :: rest /\
      contains "int" (dtype in0) = true /\
      is_broadcast (op_tag output) = true /\
      List.length (shape output) = 6%nat /\
      reached output conv /\
      op_tag conv = conv2d_tag /\
      op_id conv <> op_id output /\
      input_tensors conv = [data; kernel] /\
      filter is_conv_call (calls output) = [conv] /\
      (forall x, reached output x -> is_broadcast (op_tag x) = false ->
                 x = conv).
Proof.
  intros env cfg cfg' outs s H.
  apply (schedule_conv2d_packed_success env cfg cfg' outs s H).
Qed.

Lemma schedule_conv2d_packed_needs_elementwise_output_witness :
  exists output conv data kernel in0 rest,
    [ex_out] = [output] /\
    input_tensors output = in0 :: rest /\
    contains "int" (dtype in0) = true /\
    is_broadcast (op_tag output) = true /\
    List.length (shape output) = 6%nat /\
    reached output conv /\
    op_tag conv = conv2d_tag /\
    op_id conv <> op_id output /\
    input_tensors conv = [data; kernel] /\
    filter is_conv_call (calls output) = [conv] /\
    (forall x, reached output x -> is_broadcast (op_tag x) = false ->
               x = conv).
Proof.
  apply (schedule_conv2d_packed_needs_elementwise_output ex_env ex_cfg
           (fst ex_run) [ex_out] (snd ex_run)).
  vm_compute. reflexivity.
Defined.

Lemma conv2d_packed_result_tag (ipl : string -> bool) cfg data kernel strides
    padding dil layout out_dtype cfg1 res :
  conv2d_packed ipl cfg data kernel strides padding dil layout out_dtype
  = Ok (cfg1, res) ->
  op_tag res = conv2d_tag /\ op_name res = "res" /\ dtype res = out_dtype /\
  is_compute res = true /\
  exists pad_data, input_tensors res = [pad_data; kernel].
Proof.
  destruct strides as [sh sw]. destruct padding as [ph pw]. intros Hrun.
  destruct (conv2d_packed_Ok_valid ipl cfg data kernel sh sw ph pw dil layout
              out_dtype _ Hrun)
    as [Hl [-> [Hd [Hk [Hsh Hsw]]]]].
  destruct (length_six _ Hd) as [b [ci [h [w [bi [cii Hd']]]]]].
  destruct (length_six _ Hk) as [ko [kci [kh [kw [koi [kii Hk']]]]]].
  rewrite (conv2d_packed_run ipl cfg data kernel layout out_dtype
             sh sw ph pw b ci h w bi cii ko kci kh kw koi kii
             Hl Hd' Hk' Hsh Hsw) in Hrun.
  injection Hrun as _ <-. cbn [op_tag op_name dtype is_compute op_kind
                               input_tensors].
  repeat (split; [reflexivity|]). eexists. reflexivity.
Qed.

(** X4: the tensor returned by [conv2d_packed] cannot be scheduled on its
    own: [schedule_conv2d_packed] raises on every configuration when the
    output is the convolution itself, with no elementwise operation after
    it. *)
Theorem schedule_of_bare_convolution_fails :
  forall (ipl : string -> bool) (env : Env) (cfg0 cfg : Config)
         (data kernel : Tensor) (strides padding dil : Z * Z)
         (layout out_dtype : string) (cfg1 : Config) (res : Tensor),
    conv2d_packed ipl cfg0 data kernel strides padding dil layout out_dtype
    = Ok (cfg1, res) ->
    exists e, schedule_conv2d_packed env cfg [res] = Raise e.
Proof.
  intros ipl env cfg0 cfg data kernel strides padding dil layout out_dtype
    cfg1 res Hrun.
  destruct (conv2d_packed_result_tag ipl cfg0 data kernel strides padding dil
              layout out_dtype cfg1 res Hrun) as [Htag _].
  destruct (schedule_conv2d_packed env cfg [res]) as [[cfg' s]|e] eqn:E;
    [|exists e; reflexivity].
  exfalso.
  destruct (schedule_conv2d_packed_success env cfg cfg' [res] s E)
    as [output [conv [d [k [in0 [rest [Ho [_ [_ [Hb _]]]]]]]]]].
  injection Ho as <-. rewrite Htag in Hb. discriminate.
Qed.

Lemma schedule_of_bare_convolution_fails_witness :
  exists e, schedule_conv2d_packed ex_env ex_cfg [ex_conv] = Raise e.
Proof.
  apply (schedule_of_bare_convolution_fails any_layout ex_env ex_cfg ex_cfg
           ex_data ex_kernel (1, 1) (1, 1) (1, 1) "NCHW1n16c" "int32"
           (add_flop ex_cfg 18874368) ex_conv).
  vm_compute. reflexivity.
Defined.

(** ** The tile factors of [_schedule_add] at the edges *)

Lemma factors_nonpositive (n : Z) : n <= 0 -> factors n = Raise TypeError.
Proof.
  intros Hn. unfold factors.
  assert (Hs : Z.sqrt n = 0).
  { destruct (Z.eq_dec n 0) as [->|Hne]; [reflexivity|].
    apply Z.sqrt_neg. lia. }
  rewrite Hs. reflexivity.
Qed.

Lemma schedule_add_stage (output : Operation) :
  exists st,
    get_stage (AutoInlineInjective (create_schedule [output])) output = Ok st /\
    op st = output /\
    leaf_iter_vars st = root_iter_vars output /\
    relations st = [].
Proof.
  destruct (create_schedule_output output) as [Hout _].
  destruct (auto_inline_frame (create_schedule [output])) as [_ [_ [_ Hlook]]].
  destruct (Hlook output (new_stage output) Hout) as [st [Hst [Hop [Hl Hr]]]].
  exists st. auto.
Qed.

Lemma schedule_add_int_prefix (env : Env) (s : Schedule) (output : Operation)
    (st : Stage) (b c h w bi ci : Z) :
  get_stage s output = Ok st ->
  op st = output ->
  leaf_iter_vars st = root_iter_vars output ->
  is_compute output = true ->
  shape output = [b; c; h; w; bi; ci] ->
  exists K,
    schedule_add_int env s output
    = (i_factors <- factors h ;;
       i_factor <- select_factor 28 i_factors ;;
       j_factors <- factors w ;;
       K i_factor j_factors).
Proof.
  intros Hst Hop Hl Hc Hsh.
  unfold schedule_add_int. rewrite Hst. cbn [bind]. rewrite Hop.
  unfold axis. rewrite Hsh.
  cbn [List.length seq map unpack6 bind dom_extent index nth_error].
  unfold split. rewrite Hst. cbn [bind]. unfold require_leaf.
  rewrite Hl. unfold root_iter_vars.
  unfold is_compute in Hc. destruct (op_kind output); [discriminate|].
  unfold axis. rewrite Hsh. cbn [List.length seq map app].
  axes_simpl. cbn [bind].
  eexists (fun i_factor j_factors => _). reflexivity.
Qed.

(** X5: for an integral output of rank 6 whose height or width extent is
    zero, [_schedule_add] raises a TypeError: [factors] reduces an empty
    sequence of divisor pairs. *)
Theorem schedule_add_empty_extent :
  forall (env : Env) (output : Operation) (b c h w bi ci : Z),
    is_compute output = true ->
    contains "int" (dtype output) = true ->
    shape output = [b; c; h; w; bi; ci] ->
    0 <= h -> 0 <= w -> h = 0 \/ w = 0 ->
    _schedule_add env [output] = Raise TypeError.
Proof.
  intros env output b c h w bi ci Hc Hint Hsh Hh0 Hw0 Hz.
  unfold _schedule_add.
  change (assert (Nat.eqb (List.length [output]) 1)) with (Ok tt).
  change (index [output] 0) with (Ok output).
  cbn [bind]. rewrite Hint.
  destruct (schedule_add_stage output) as [st [Hst [Hop [Hl _]]]].
  destruct (schedule_add_int_prefix env _ output st b c h w bi ci
              Hst Hop Hl Hc Hsh) as [K ->].
  destruct (Z_le_gt_dec h 0) as [Hh|Hh].
  - rewrite (factors_nonpositive h Hh). reflexivity.
  - destruct (tile_factor_largest_divisor 28 h ltac:(lia) ltac:(lia))
      as [fs [f [Hfs [Hsel _]]]].
    rewrite Hfs. cbn [bind]. rewrite Hsel. cbn [bind].
    rewrite (factors_nonpositive w ltac:(lia)). reflexivity.
Qed.

Lemma schedule_add_empty_extent_witness :
  _schedule_add ex_env [ex_empty_add] = Raise TypeError.
Proof.
  apply (schedule_add_empty_extent ex_env ex_empty_add 1 4 0 56 1 16).
  - reflexivity.
  - reflexivity.
  - reflexivity.
  - lia.
  - lia.
  - left. reflexivity.
Defined.

Lemma largest_divisor_within (ceiling n f : Z) :
  1 <= n -> n <= ceiling -> largest_divisor_upto ceiling n f -> f = n.
Proof.
  intros Hn Hc [[Hf1 _] [Hdiv Hmax]].
  assert (n <= f) by (apply Hmax; [lia|apply Z.divide_refl|lia]).
  assert (f <= n) by (apply Z.divide_pos_le; [lia|exact Hdiv]).
  lia.
Qed.

Lemma largest_divisor_prime (ceiling n f : Z) :
  no_proper_divisor n -> ceiling < n -> largest_divisor_upto ceiling n f ->
  f = 1.
Proof.
  intros Hp Hc [[Hf1 Hfc] [Hdiv _]].
  destruct (Hp f Hf1 Hdiv) as [E|E]; lia.
Qed.

Lemma schedule_add_loops (env : Env) (output : Operation) (s : Schedule)
    (b c h w bi ci : Z) :
  contains "int" (dtype output) = true ->
  shape output = [b; c; h; w; bi; ci] ->
  _schedule_add env [output] = Ok s ->
  exists f_h f_w,
    1 <= h /\ 1 <= w /\
    largest_divisor_upto 28 h f_h /\
    largest_divisor_upto 14 w f_w /\
    loops_at s output (tiled_order output ++ reduce_axis output)
      [(DataAxis (op_id output) 1, 1);
       (DataAxis (op_id output) 2, f_h);
       (DataAxis (op_id output) 3, f_w)].
Proof.
  intros Hint Hshape H.
  unfold _schedule_add in H.
  change (assert (Nat.eqb (List.length [output]) 1)) with (Ok tt) in H.
  change (index [output] 0) with (Ok output) in H.
  cbn [bind] in H. rewrite Hint in H.
  destruct (create_schedule_output output) as [Hout Hfresh].
  pose proof (auto_inline_frame (create_schedule [output])) as Hframe.
  destruct (schedule_add_int_inv env _ s output H
              (frame_step_pristine _ _ Hframe
                 (create_schedule_pristine [output]))
              (loop_step_fresh _ _ (frame_loop_step _ _ Hframe) Hfresh))
    as [st [h' [w' [fs_h [f_h [fs_w [f_w
          [Hst [Hh [Hw [Hfh [Hsh [Hfw [Hsw Hloops]]]]]]]]]]]]]].
  destruct Hframe as [_ [_ [_ Hlook]]].
  destruct (Hlook output (new_stage output) Hout)
    as [st' [Hst' [Hop _]]].
  rewrite Hst in Hst'. injection Hst' as <-.
  cbn [op new_stage] in Hop. rewrite Hop in *. rewrite Hshape in Hh, Hw.
  injection Hh as <-. injection Hw as <-.
  exists f_h, f_w.
  split; [apply (factors_Ok_pos h fs_h Hfh)|].
  split; [apply (factors_Ok_pos w fs_w Hfw)|].
  split; [apply (selection_largest 28 h f_h fs_h ltac:(lia) Hfh Hsh)|].
  split; [apply (selection_largest 14 w f_w fs_w ltac:(lia) Hfw Hsw)|].
  exact Hloops.
Qed.

(** X6: in a successful [_schedule_add] on an integral output, a height
    extent of at most 28 (a width extent of at most 14) is split by itself,
    so that the outer loop has one iteration, and a height above 28 (a
    width above 14) without proper divisor is split by 1. *)
Theorem schedule_add_small_and_prime_extents :
  forall (env : Env) (output : Operation) (s : Schedule)
         (b c h w bi ci : Z),
    contains "int" (dtype output) = true ->
    shape output = [b; c; h; w; bi; ci] ->
    _schedule_add env [output] = Ok s ->
    exists f_h f_w,
      loops_at s output (tiled_order output ++ reduce_axis output)
        [(DataAxis (op_id output) 1, 1);
         (DataAxis (op_id output) 2, f_h);
         (DataAxis (op_id output) 3, f_w)] /\
      (h <= 28 -> f_h = h) /\ (w <= 14 -> f_w = w) /\
      (no_proper_divisor h -> 28 < h -> f_h = 1) /\
      (no_proper_divisor w -> 14 < w -> f_w = 1).
Proof.
  intros env output s b c h w bi ci Hint Hshape H.
  destruct (schedule_add_loops env output s b c h w bi ci Hint Hshape H)
    as [f_h [f_w [Hh [Hw [Lh [Lw Hloops]]]]]].
  exists f_h, f_w. split; [exact Hloops|].
  split; [intros Hc; apply (largest_divisor_within 28 h f_h Hh Hc Lh)|].
  split; [intros Hc; apply (largest_divisor_within 14 w f_w Hw Hc Lw)|].
  split.
  - intros Hp Hc. apply (largest_divisor_prime 28 h f_h Hp Hc Lh).
  - intros Hp Hc. apply (largest_divisor_prime 14 w f_w Hp Hc Lw).
Qed.

Lemma no_proper_divisor_29 : no_proper_divisor 29.
Proof.
  intros d Hd Hdiv.
  assert (Hle : d <= 29) by (apply Z.divide_pos_le; [lia|exact Hdiv]).
  apply Z.mod_divide in Hdiv; [|lia].
  assert (Hin : In d (range 1 30)) by (apply In_range; lia).
  vm_compute in Hin.
  repeat (destruct Hin as [<-|Hin];
          [first [left; reflexivity | right; reflexivity | discriminate Hdiv]|]).
  destruct Hin.
Qed.

Lemma schedule_add_small_and_prime_extents_witness :
  exists f_h f_w,
    loops_at ex_odd_add_run ex_odd_add
      (tiled_order ex_odd_add ++ reduce_axis ex_odd_add)
      [(DataAxis (op_id ex_odd_add) 1, 1);
       (DataAxis (op_id ex_odd_add) 2, f_h);
       (DataAxis (op_id ex_odd_add) 3, f_w)] /\
    f_h = 1 /\ f_w = 7.
Proof.
  destruct (schedule_add_small_and_prime_extents ex_env ex_odd_add
              ex_odd_add_run 1 4 29 7 1 16)
    as [f_h [f_w [Hloops [_ [Hw [Hh _]]]]]].
  - reflexivity.
  - reflexivity.
  - vm_compute. reflexivity.
  - exists f_h, f_w. split; [exact Hloops|]. split.
    + apply Hh; [exact no_proper_divisor_29|lia].
    + apply Hw. lia.
Defined.

(** ** What the classifier of [_schedule_add] records *)

Lemma Forall_snoc {A : Type} (P : A -> Prop) (l : list A) (x : A) :
  Forall P l -> P x -> Forall P (l ++ [x]).
Proof.
  intros Hl Hx. apply Forall_app. split; [exact Hl|].
  constructor; [exact Hx|constructor].
Qed.

Lemma traverse_add_broadcast_inputs (output o : Operation) (l : list Tensor) :
  Forall
    (fun t => forall c,
       add_lists_ok output c ->
       add_lists_ok output (_traverse_add output t c)) l ->
  is_broadcast (op_tag o) = true ->
  (forall t, In t l -> In t (input_tensors o)) ->
  forall c,
    add_lists_ok output c ->
    add_lists_ok output
      ((fix inputs (l : list Tensor) (c : AddClassified) : AddClassified :=
          match l with
          | [] => c
          | tensor :: l' =>
              if is_placeholder tensor
              then inputs l'
                     (MkAddClassified (add_ewise_inputs c ++ [(o, tensor)])
                        (add_ewise_ops c) (add_const_ops c))
              else if is_cast_op tensor && negb (same_as o output)
              then inputs l'
                     (MkAddClassified (add_ewise_inputs c ++ [(o, tensor)])
                        (add_ewise_ops c) (add_const_ops c))
              else inputs l' (_traverse_add output tensor c)
          end) l c).
Proof.
  intros IH Hb. induction IH as [|t l Ht _ IHl]; intros Hsub c Hc.
  - exact Hc.
  - assert (Hin : In t (input_tensors o)) by (apply Hsub; left; reflexivity).
    assert (Hsub' : forall t', In t' l -> In t' (input_tensors o))
      by (intros t' Ht'; apply Hsub; right; exact Ht').
    destruct (is_placeholder t) eqn:Hp.
    + apply (IHl Hsub'). destruct Hc as [H1 [H2 H3]].
      split; [exact H1|]. split; [exact H2|].
      cbn [add_ewise_inputs]. apply Forall_snoc; [exact H3|].
      split; [exact Hb|]. split; [exact Hin|]. left. exact Hp.
    + destruct (is_cast_op t && negb (same_as o output)) eqn:Hcast.
      * apply (IHl Hsub'). destruct Hc as [H1 [H2 H3]].
        split; [exact H1|]. split; [exact H2|].
        cbn [add_ewise_inputs]. apply Forall_snoc; [exact H3|].
        apply andb_prop in Hcast. destruct Hcast as [Hcast Hno].
        apply negb_true_iff in Hno.
        split; [exact Hb|]. split; [exact Hin|]. right. cbn [fst snd].
        split; [|split; assumption].
        unfold is_placeholder in Hp. unfold is_compute.
        destruct (op_kind t); [discriminate|reflexivity].
      * apply (IHl Hsub'). apply Ht. exact Hc.
Qed.

Lemma traverse_add_other_inputs (output : Operation) (l : list Tensor) :
  Forall
    (fun t => forall c,
       add_lists_ok output c ->
       add_lists_ok output (_traverse_add output t c)) l ->
  forall c,
    add_lists_ok output c ->
    add_lists_ok output
      ((fix inputs (l : list Tensor) (c : AddClassified) : AddClassified :=
          match l with
          | [] => c
          | tensor :: l' =>
              if negb (is_placeholder tensor) && negb (is_cast_op tensor)
              then inputs l' (_traverse_add output tensor c)
              else inputs l' c
          end) l c).
Proof.
  intros IH. induction IH as [|t l Ht _ IHl]; intros c Hc.
  - exact Hc.
  - destruct (negb (is_placeholder t) && negb (is_cast_op t)).
    + apply IHl. apply Ht. exact Hc.
    + apply IHl. exact Hc.
Qed.

Lemma traverse_add_ok (output : Operation) :
  forall o c,
    add_lists_ok output c ->
    add_lists_ok output (_traverse_add output o c).
Proof.
  intros o. induction o as [o IH] using Operation_nested_ind. intros c Hc.
  destruct o as [id kind name tag dt sh red ins].
  cbn [_traverse_add op_tag input_tensors].
  cbn [input_tensors] in IH.
  set (o := MkOp id kind name tag dt sh red ins) in *.
  destruct (is_broadcast tag) eqn:Hb.
  - apply (traverse_add_broadcast_inputs output o ins IH Hb).
    + intros t Ht. exact Ht.
    + destruct Hc as [H1 [H2 H3]].
      destruct (same_as o output) eqn:Hs; cbn [negb]; [repeat split; assumption|].
      destruct (no_axis o) eqn:Hn.
      * split; [exact H1|]. split; [|exact H3].
        cbn [add_const_ops]. apply Forall_snoc; [exact H2|].
        repeat split; assumption.
      * destruct (is_cast_op o) eqn:Hcast; cbn [negb];
          [repeat split; assumption|].
        split; [|split; assumption].
        cbn [add_ewise_ops]. apply Forall_snoc; [exact H1|].
        repeat split; assumption.
  - apply (traverse_add_other_inputs output ins IH c Hc).
Qed.

(** X7: the classifier of [_schedule_add] only stages operations that are
    tagged broadcast or elementwise, are not the output, have iteration
    axes and are not casts; it only inlines operations without iteration
    axes; and every pair it caches is a tensor read by a broadcast or
    elementwise consumer, the tensor being a placeholder or, when the
    consumer is not the output, a cast. *)
Theorem schedule_add_classifier_lists :
  forall (output o : Operation) (c : AddClassified),
    add_lists_ok output c ->
    add_lists_ok output (_traverse_add output o c).
Proof.
  intros output o c Hc. apply (traverse_add_ok output o c Hc).
Qed.

Lemma schedule_add_classifier_lists_witness :
  add_lists_ok ex_cast_add
    (_traverse_add ex_cast_add ex_cast_add (MkAddClassified [] [] [])).
Proof.
  apply (schedule_add_classifier_lists ex_cast_add ex_cast_add
           (MkAddClassified [] [] [])).
  split; [|split]; constructor.
Defined.

(** ** The tunable that is declared and not applied *)

Lemma with_entity_agree (cfg : Config) (name : string) (e : Entity) :
  agree_off name (with_entity cfg name e) cfg.
Proof.
  intros n Hn. unfold cfg_get, with_entity. cbn [entity_map assoc].
  destruct (String.eqb name n) eqn:E; [|reflexivity].
  apply String.eqb_eq in E. congruence.
Qed.

Lemma without_entity_agree (cfg : Config) (name : string) :
  agree_off name (without_entity cfg name) cfg.
Proof.
  intros n Hn. unfold cfg_get, without_entity. cbn [entity_map].
  induction (entity_map cfg) as [|[k v] l IH]; [reflexivity|].
  cbn [filter fst assoc]. destruct (String.eqb k name) eqn:E; cbn [negb].
  - apply String.eqb_eq in E. subst k.
    destruct (String.eqb name n) eqn:E'; [|exact IH].
    apply String.eqb_eq in E'. congruence.
  - cbn [assoc]. destruct (String.eqb k n); [reflexivity|exact IH].
Qed.

Lemma space_definition_cases (s : Schedule) (conv : Operation) :
  (exists e, forall cfg, space_definition cfg s conv = Raise e) \/
  (forall cfg, exists cfg',
      space_definition cfg s conv = Ok cfg' /\
      entity_map cfg' = entity_map cfg).
Proof.
  unfold space_definition.
  destruct (get_stage s conv) as [st|e]; cbn [bind];
    [|left; exists e; reflexivity].
  destruct (unpack6 (axis (op st))) as [[[[[[b c_o] x_i] x_j] x_bi] x_ci]|e];
    cbn [bind]; [|left; exists e; reflexivity].
  destruct (unpack4 (reduce_axis (op st))) as [[[[c_i d1] d2] d3]|e];
    cbn [bind]; [|left; exists e; reflexivity].
  right. intros cfg. eexists. split; reflexivity.
Qed.

Lemma tile_agree (cfg1 cfg2 : Config) (s : Schedule) (output : Tensor) :
  agree_off "tile_b" cfg1 cfg2 -> tile cfg1 s output = tile cfg2 s output.
Proof.
  intros H. unfold tile.
  rewrite (H "tile_co"), (H "tile_h"), (H "tile_w") by discriminate.
  reflexivity.
Qed.

Lemma virtual_thread_agree (cfg1 cfg2 : Config) (knob : string)
    (s : Schedule) (output : Tensor) (outer x_bo : IterVar) :
  agree_off "tile_b" cfg1 cfg2 -> knob <> "tile_b" ->
  virtual_thread cfg1 knob s output outer x_bo
  = virtual_thread cfg2 knob s output outer x_bo.
Proof.
  intros H Hk. unfold virtual_thread. rewrite (H knob Hk). reflexivity.
Qed.

Lemma stage_reduction_agree (cfg1 cfg2 : Config) (s : Schedule)
    (conv cdata ckernel : Tensor) :
  agree_off "tile_b" cfg1 cfg2 ->
  stage_reduction cfg1 s conv cdata ckernel
  = stage_reduction cfg2 s conv cdata ckernel.
Proof.
  intros H. unfold stage_reduction.
  rewrite (H "tile_ci") by discriminate. reflexivity.
Qed.

Lemma schedule_conv2d_packed_agree (env : Env) (cfg1 cfg2 : Config)
    (outs : list Tensor) :
  agree_off "tile_b" cfg1 cfg2 ->
  schedule_of (schedule_conv2d_packed env cfg1 outs)
  = schedule_of (schedule_conv2d_packed env cfg2 outs).
Proof.
  intros Hagree. unfold schedule_of, schedule_conv2d_packed.
  destruct (assert (Nat.eqb (List.length outs) 1)); cbn [bind]; [|reflexivity].
  destruct (index outs 0) as [output|]; cbn [bind]; [|reflexivity].
  destruct (index (input_tensors output) 0) as [in0|]; cbn [bind];
    [|reflexivity].
  destruct (assert (contains "int" (dtype in0))); cbn [bind]; [|reflexivity].
  destruct (_traverse output output no_ops) as [c|]; cbn [bind];
    [|reflexivity].
  destruct (assert (Nat.eqb (List.length (conv2d_res c)) 1)); cbn [bind];
    [|reflexivity].
  destruct (index (conv2d_res c) 0) as [conv|]; cbn [bind]; [|reflexivity].
  destruct (space_definition_cases (create_schedule [output]) conv)
    as [[e He]|Hok]; [rewrite !He; reflexivity|].
  destruct (Hok cfg1) as [c1 [-> H1]]. destruct (Hok cfg2) as [c2 [-> H2]].
  cbn [bind].
  assert (Hget : agree_off "tile_b" c1 c2).
  { intros n Hn. unfold cfg_get. rewrite H1, H2. apply (Hagree n Hn). }
  destruct (setup_scopes env (create_schedule [output]) conv c)
    as [[[[cdata ckernel] cre] s1]|]; cbn [bind]; [|reflexivity].
  rewrite (tile_agree c1 c2 s1 output Hget).
  destruct (tile c2 s1 output) as [[t s2]|]; cbn [bind]; [|reflexivity].
  destruct (set_compute_scopes env s2 output conv c cre t) as [s3|];
    cbn [bind]; [|reflexivity].
  rewrite (virtual_thread_agree c1 c2 "oc_nthread" s3 output _ _ Hget)
    by discriminate.
  destruct (virtual_thread c2 "oc_nthread" s3 output (t_co0 t) (t_bo t))
    as [s4|]; cbn [bind]; [|reflexivity].
  rewrite (virtual_thread_agree c1 c2 "h_nthread" s4 output _ _ Hget)
    by discriminate.
  destruct (virtual_thread c2 "h_nthread" s4 output (t_i0 t) (t_bo t))
    as [s5|]; cbn [bind]; [|reflexivity].
  rewrite (stage_reduction_agree c1 c2 s5 conv cdata ckernel Hget).
  destruct (stage_reduction c2 s5 conv cdata ckernel) as [[[ko xbi] s6]|];
    cbn [bind]; [|reflexivity].
  destruct (use_vta_instructions env s6 output conv cdata ckernel xbi
              (t_co1 t)) as [s7|]; reflexivity.
Qed.

(** X8: the tunable tile_b, which [schedule_conv2d_packed] declares for
    the batch axis, is never applied: the schedule that is returned, or the
    exception that is raised, is the same whatever value the configuration
    gives to tile_b, and also when it gives none. *)
Theorem tile_b_is_never_applied :
  forall (env : Env) (cfg : Config) (outs : list Tensor),
    (forall e,
        schedule_of (schedule_conv2d_packed env (with_entity cfg "tile_b" e)
                       outs)
        = schedule_of (schedule_conv2d_packed env cfg outs)) /\
    schedule_of (schedule_conv2d_packed env (without_entity cfg "tile_b") outs)
    = schedule_of (schedule_conv2d_packed env cfg outs).
Proof.
  intros env cfg outs. split.
  - intros e. apply schedule_conv2d_packed_agree. apply with_entity_agree.
  - apply schedule_conv2d_packed_agree. apply without_entity_agree.
Qed.

Lemma stage_at_weaken (s : Schedule) (x : Operation) (P Q : Stage -> Prop) :
  (forall st, P st -> Q st) -> stage_at s x P -> stage_at s x Q.
Proof. intros H [st [Hg Hp]]. exists st. auto. Qed.

Lemma stage_at_and (s : Schedule) (x : Operation) (P Q : Stage -> Prop) :
  stage_at s x P -> stage_at s x Q -> stage_at s x (fun st => P st /\ Q st).
Proof.
  intros [st [Hg Hp]] [st' [Hg' Hq]]. rewrite Hg in Hg'. injection Hg' as <-.
  exists st. auto.
Qed.

Lemma stage_at_set_stage (s : Schedule) (t x : Operation) (st st' : Stage)
    (P : Stage -> Prop) :
  get_stage s t = Ok st -> key st' = op_id t ->
  (op_id x = op_id t -> P st -> P st') ->
  stage_at s x P -> stage_at (set_stage s t st') x P.
Proof.
  intros Hg Hk HP [sx [Hx Hpx]].
  exists (if is_stage_of t sx then st' else sx). split.
  - rewrite get_stage_set_stage by exact Hk. rewrite Hx. reflexivity.
  - destruct (is_stage_of t sx) eqn:E; [|exact Hpx].
    rewrite (get_stage_same_key s x t sx st Hx Hg E) in Hpx.
    apply HP; [|exact Hpx].
    apply get_stage_Ok in Hx. destruct Hx as [_ Hkx].
    unfold is_stage_of, same_as in E. apply Nat.eqb_eq in E.
    unfold key in Hkx. congruence.
Qed.

Lemma split_stage_at (s s' : Schedule) (t x : Operation) (p : IterVar)
    (f : Z) (r : IterVar * IterVar) (P : Stage -> Prop) :
  split s t p f = Ok (r, s') ->
  (op_id x = op_id t -> ignores_loops P) ->
  stage_at s x P -> stage_at s' x P.
Proof.
  intros H HP Hx. apply split_inv in H. destruct H as [st [Hg [_ [_ ->]]]].
  apply (stage_at_set_stage s t x st _ P Hg);
    [apply (get_stage_Ok _ _ _ Hg)| |exact Hx].
  intros E Hp. apply (HP E st _ _ Hp).
Qed.

Lemma reorder_stage_at (s s' : Schedule) (t x : Operation)
    (order : list IterVar) (P : Stage -> Prop) :
  reorder s t order = Ok s' ->
  (op_id x = op_id t -> ignores_loops P) ->
  stage_at s x P -> stage_at s' x P.
Proof.
  intros H HP Hx. apply reorder_inv in H. destruct H as [st [Hg [_ [_ ->]]]].
  apply (stage_at_set_stage s t x st _ P Hg);
    [apply (get_stage_Ok _ _ _ Hg)| |exact Hx].
  intros E Hp. apply (HP E st _ _ Hp).
Qed.

Lemma compute_at_stage_at (s s' : Schedule) (t parent x : Operation)
    (a : IterVar) (P : Stage -> Prop) :
  compute_at s t parent a = Ok s' ->
  (op_id x = op_id t -> ignores_attach P) ->
  stage_at s x P -> stage_at s' x P.
Proof.
  intros H HP Hx. apply compute_at_inv in H.
  destruct H as [st [pst [Hg [_ [_ ->]]]]].
  apply (stage_at_set_stage s t x st _ P Hg);
    [apply (get_stage_Ok _ _ _ Hg)| |exact Hx].
  intros E Hp. apply (HP E st _ Hp).
Qed.

Lemma compute_inline_stage_at (s s' : Schedule) (t x : Operation)
    (P : Stage -> Prop) :
  compute_inline s t = Ok s' ->
  (op_id x = op_id t -> ignores_attach P) ->
  stage_at s x P -> stage_at s' x P.
Proof.
  intros H HP Hx. apply compute_inline_inv in H. destruct H as [st [Hg ->]].
  apply (stage_at_set_stage s t x st _ P Hg);
    [apply (get_stage_Ok _ _ _ Hg)| |exact Hx].
  intros E Hp. apply (HP E st _ Hp).
Qed.

Lemma set_scope_stage_at (s s' : Schedule) (t x : Operation) (sc : string)
    (P : Stage -> Prop) :
  set_scope s t sc = Ok s' ->
  (op_id x = op_id t ->
   forall st, P st ->
     P (MkStage (op st) (leaf_iter_vars st) (relations st) sc (attach st)
          (iter_var_attrs st))) ->
  stage_at s x P -> stage_at s' x P.
Proof.
  intros H HP Hx. apply set_scope_inv in H. destruct H as [st [Hg ->]].
  apply (stage_at_set_stage s t x st _ P Hg);
    [apply (get_stage_Ok _ _ _ Hg)| |exact Hx].
  intros E Hp. apply (HP E st Hp).
Qed.

Lemma annotate_stage_at (s s' : Schedule) (t x : Operation) (v : IterVar)
    (a : IterVarAttr) (P : Stage -> Prop) :
  annotate s t v a = Ok s' ->
  (op_id x = op_id t -> grows_with_attrs P) ->
  stage_at s x P -> stage_at s' x P.
Proof.
  intros H HP Hx. apply annotate_inv in H. destruct H as [st [Hg [_ ->]]].
  apply (stage_at_set_stage s t x st _ P Hg);
    [apply (get_stage_Ok _ _ _ Hg)| |exact Hx].
  intros E Hp. apply (HP E st _ Hp).
Qed.

(** What a successful primitive establishes. *)

Lemma set_scope_scoped (s s' : Schedule) (t : Operation) (sc : string) :
  set_scope s t sc = Ok s' -> stage_at s' t (scoped sc).
Proof.
  intros H. apply set_scope_inv in H. destruct H as [st [Hg ->]].
  eexists. split.
  - apply get_stage_set_stage_same with (st := st); [|exact Hg].
    apply (get_stage_Ok _ _ _ Hg).
  - reflexivity.
Qed.

Lemma annotate_annotated (s s' : Schedule) (t : Operation) (v : IterVar)
    (a : IterVarAttr) :
  annotate s t v a = Ok s' -> stage_at s' t (annotated v a).
Proof.
  intros H. apply annotate_inv in H. destruct H as [st [Hg [_ ->]]].
  eexists. split.
  - apply get_stage_set_stage_same with (st := st); [|exact Hg].
    apply (get_stage_Ok _ _ _ Hg).
  - unfold annotated. cbn [iter_var_attrs]. apply in_or_app. right.
    left. reflexivity.
Qed.

Lemma first_axis_Ok (s : Schedule) (t : Operation) (a : IterVar) :
  first_axis s t = Ok a -> a = DataAxis (op_id t) 0.
Proof.
  unfold first_axis. intros H. bind_inv H as st Hst.
  apply get_stage_Ok in Hst. destruct Hst as [_ Hk]. unfold key in Hk.
  unfold axis, index in H.
  destruct (shape (op st)) as [|d sh]; [discriminate|].
  cbn in H. injection H as <-. rewrite Hk. reflexivity.
Qed.

Lemma annotated_settled (v : IterVar) (a : IterVarAttr) :
  settled (annotated v a) /\ ignores_op (annotated v a) /\
  ignores_scope (annotated v a).
Proof.
  unfold settled, ignores_loops, ignores_attach, grows_with_attrs,
    ignores_op, ignores_scope, annotated.
  repeat split; intros; cbn [iter_var_attrs]; try assumption.
  apply in_or_app. left. assumption.
Qed.

Lemma scoped_settled (sc : string) :
  settled (scoped sc) /\ ignores_op (scoped sc).
Proof.
  unfold settled, ignores_loops, ignores_attach, grows_with_attrs,
    ignores_op, scoped.
  repeat split; intros; cbn [scope]; assumption.
Qed.

Lemma has_loops_ignores (l : list IterVar) (r : list (IterVar * Z)) :
  ignores_op (has_loops l r) /\ ignores_scope (has_loops l r) /\
  ignores_attach (has_loops l r) /\ grows_with_attrs (has_loops l r).
Proof.
  unfold ignores_op, ignores_scope, ignores_attach, grows_with_attrs,
    has_loops.
  repeat split; intros; cbn [leaf_iter_vars relations]; tauto.
Qed.

(** ** The steps of the schedule, one stage at a time *)

Lemma for_each_stage_at {A : Type} (body : Schedule -> A -> result Schedule)
    (l : list A) (x : Operation) (P : Stage -> Prop) :
  (forall s a s', In a l -> body s a = Ok s' ->
                  stage_at s x P -> stage_at s' x P) ->
  forall s s', for_each l body s = Ok s' -> stage_at s x P -> stage_at s' x P.
Proof.
  intros Hbody.
  apply (for_each_rel (fun s s' => stage_at s x P -> stage_at s' x P)).
  - auto.
  - auto.
  - exact Hbody.
Qed.

Lemma apply_sizes_stage_at (t x : Operation) (P : Stage -> Prop)
    (rest : list Z) :
  (op_id x = op_id t -> ignores_loops P) ->
  forall s a r s',
    apply_sizes s t a rest = Ok (r, s') -> stage_at s x P -> stage_at s' x P.
Proof.
  intros HP. induction rest as [|z rest IH]; intros s a r s' H Hx.
  - injection H as _ <-. exact Hx.
  - cbn [apply_sizes] in H. bind_inv H as [[ax0 ax1] s1] Hs.
    bind_inv H as [ret s2] Hr. injection H as _ <-.
    apply (IH s1 ax1 ret s2 Hr).
    apply (split_stage_at s s1 t x a _ _ P Hs HP Hx).
Qed.

Lemma apply_stage_at (e : Entity) (s s' : Schedule) (t x : Operation)
    (a : IterVar) (r : list IterVar) (P : Stage -> Prop) :
  apply e s t a = Ok (r, s') ->
  (op_id x = op_id t -> ignores_loops P) ->
  stage_at s x P -> stage_at s' x P.
Proof.
  intros H HP. destruct e as [size|v]; [|discriminate].
  apply (apply_sizes_stage_at t x P (tl size) HP s a r s' H).
Qed.

Lemma tile_stage_at (cfg : Config) (s s' : Schedule) (output x : Operation)
    (t : Tiles) (P : Stage -> Prop) :
  tile cfg s output = Ok (t, s') ->
  (op_id x = op_id output -> ignores_loops P) ->
  stage_at s x P -> stage_at s' x P.
Proof.
  unfold tile. intros H HP Hx.
  bind_inv H as st Hst.
  bind_inv H as [[[[[x_bo x_co] x_i] x_j] x_bi] x_ci] Hax.
  bind_inv H as e1 He1. bind_inv H as [r1 s1] Hr1.
  bind_inv H as [x_co0 x_co1] Hu1.
  bind_inv H as e2 He2. bind_inv H as [r2 s2] Hr2.
  bind_inv H as [x_i0 x_i1] Hu2.
  bind_inv H as e3 He3. bind_inv H as [r3 s3] Hr3.
  bind_inv H as [x_j0 x_j1] Hu3.
  bind_inv H as s4 Hre. injection H as _ <-.
  apply (reorder_stage_at s3 s4 output x _ P Hre HP).
  apply (apply_stage_at e3 s2 s3 output x _ _ P Hr3 HP).
  apply (apply_stage_at e2 s1 s2 output x _ _ P Hr2 HP).
  apply (apply_stage_at e1 s s1 output x _ _ P Hr1 HP). exact Hx.
Qed.

Lemma set_compute_scopes_stage_at (env : Env) (s s' : Schedule)
    (output conv x : Operation) (c : Classified) (cre : list Tensor)
    (t : Tiles) (P : Stage -> Prop) :
  set_compute_scopes env s output conv c cre t = Ok s' ->
  ignores_attach P -> grows_with_attrs P ->
  stage_at s x P -> stage_at s' x P.
Proof.
  unfold set_compute_scopes. intros H Ha Hg Hx.
  bind_inv H as s1 H1. bind_inv H as s2 H2.
  apply (for_each_stage_at _ _ x P) with (s := s2) (s' := s') in H.
  - exact H.
  - intros s0 tensor s0' _ Hb Hx0. bind_inv Hb as sa Hsa.
    bind_inv Hb as a Hax.
    apply (annotate_stage_at sa s0' tensor x a _ P Hb (fun _ => Hg)).
    apply (compute_at_stage_at s0 sa tensor output x _ P Hsa (fun _ => Ha)).
    exact Hx0.
  - apply (for_each_stage_at _ _ x P) with (s := s1) (s' := s2) in H2.
    + exact H2.
    + intros s0 o s0' _ Hb Hx0.
      apply (compute_at_stage_at s0 s0' o output x _ P Hb (fun _ => Ha)).
      exact Hx0.
    + apply (compute_at_stage_at s s1 conv output x _ P H1 (fun _ => Ha)).
      exact Hx.
Qed.

Lemma virtual_thread_stage_at (cfg : Config) (knob : string) (s s' : Schedule)
    (output x : Operation) (outer x_bo : IterVar) (P : Stage -> Prop) :
  virtual_thread cfg knob s output outer x_bo = Ok s' ->
  (op_id x = op_id output -> ignores_loops P) ->
  (op_id x = op_id output -> grows_with_attrs P) ->
  stage_at s x P -> stage_at s' x P.
Proof.
  unfold virtual_thread, bind_thread. intros H Hl Hg Hx.
  bind_inv H as e He. bind_inv H as n Hn.
  destruct (n >? 1); [|injection H as <-; exact Hx].
  bind_inv H as [[o v_t] s1] Hsplit. bind_inv H as s2 Hre.
  apply (annotate_stage_at s2 s' output x _ _ P H Hg).
  apply (reorder_stage_at s1 s2 output x _ P Hre Hl).
  apply (split_stage_at s s1 output x _ _ _ P Hsplit Hl). exact Hx.
Qed.

Lemma stage_reduction_stage_at (cfg : Config) (s s' : Schedule)
    (conv cdata ckernel x : Operation) (ko xbi : IterVar)
    (P : Stage -> Prop) :
  stage_reduction cfg s conv cdata ckernel = Ok (ko, xbi, s') ->
  (op_id x = op_id conv -> ignores_loops P) ->
  ignores_attach P ->
  stage_at s x P -> stage_at s' x P.
Proof.
  unfold stage_reduction. intros H Hl Ha Hx.
  bind_inv H as st Hst.
  bind_inv H as [[[[[x_bo x_co] x_i] x_j] x_bi] x_ci] Hax.
  bind_inv H as [[[k_o' d_i'] d_j'] k_i'] Hred.
  bind_inv H as s1 Hre.
  bind_inv H as e He. bind_inv H as [r s2] Hap.
  bind_inv H as [k_o2 k_in] Hu.
  bind_inv H as s3 Hcd. bind_inv H as s4 Hck.
  injection H as _ _ <-.
  apply (compute_at_stage_at s3 s4 ckernel conv x _ P Hck (fun _ => Ha)).
  apply (compute_at_stage_at s2 s3 cdata conv x _ P Hcd (fun _ => Ha)).
  apply (apply_stage_at e s1 s2 conv x _ _ P Hap Hl).
  apply (reorder_stage_at s s1 conv x _ P Hre Hl). exact Hx.
Qed.

Lemma use_vta_instructions_stage_at (env : Env) (s s' : Schedule)
    (output conv cdata ckernel x : Operation) (x_bi x_co1 : IterVar)
    (P : Stage -> Prop) :
  use_vta_instructions env s output conv cdata ckernel x_bi x_co1 = Ok s' ->
  grows_with_attrs P ->
  stage_at s x P -> stage_at s' x P.
Proof.
  intros H Hg Hx.
  destruct (use_vta_instructions_inv env _ _ _ _ _ _ _ _ H)
    as [a1 [v1 [a2 [v2 [v3 [Hv1 [Hv2 [Hv3 Hv4]]]]]]]].
  apply (annotate_stage_at v3 s' output x _ _ P Hv4 (fun _ => Hg)).
  apply (annotate_stage_at v2 v3 conv x _ _ P Hv3 (fun _ => Hg)).
  apply (annotate_stage_at v1 v2 ckernel x _ _ P Hv2 (fun _ => Hg)).
  apply (annotate_stage_at s v1 cdata x _ _ P Hv1 (fun _ => Hg)). exact Hx.
Qed.

(** From the attach points to the end of the schedule. *)
Lemma trace_after_attach (env : Env) (cfg cfg' : Config)
    (outs : list Operation) (s : Schedule) (tr : Trace) (x : Operation)
    (P : Stage -> Prop) :
  is_trace env cfg outs cfg' s tr -> settled P ->
  stage_at (tr_attached tr) x P -> stage_at s x P.
Proof.
  intros Htr [Hl [Ha Hg]] Hx.
  destruct Htr as [_ [_ [_ [_ [_ [_ [_ [Hoc [Hh [Hred Hvta]]]]]]]]]].
  apply (use_vta_instructions_stage_at env _ _ _ _ _ _ x _ _ P Hvta Hg).
  apply (stage_reduction_stage_at _ _ _ _ _ _ x _ _ P Hred (fun _ => Hl) Ha).
  apply (virtual_thread_stage_at _ _ _ _ _ x _ _ P Hh
           (fun _ => Hl) (fun _ => Hg)).
  apply (virtual_thread_stage_at _ _ _ _ _ x _ _ P Hoc
           (fun _ => Hl) (fun _ => Hg)).
  exact Hx.
Qed.

(** From the memory scopes to the end of the schedule. *)
Lemma trace_after_scopes (env : Env) (cfg cfg' : Config)
    (outs : list Operation) (s : Schedule) (tr : Trace) (x : Operation)
    (P : Stage -> Prop) :
  is_trace env cfg outs cfg' s tr -> settled P ->
  stage_at (tr_scoped tr) x P -> stage_at s x P.
Proof.
  intros Htr HP Hx.
  apply (trace_after_attach env cfg cfg' outs s tr x P Htr HP).
  destruct HP as [Hl [Ha Hg]].
  destruct Htr as [_ [_ [_ [_ [_ [Htile [Hatt _]]]]]]].
  apply (set_compute_scopes_stage_at env _ _ _ _ x _ _ _ P Hatt Ha Hg).
  apply (tile_stage_at _ _ _ _ x _ P Htile (fun _ => Hl)). exact Hx.
Qed.

Lemma reorder_leaves_nil (members l : list IterVar) :
  reorder_leaves [] members l = l.
Proof.
  induction l as [|x l IH]; [reflexivity|].
  cbn [reorder_leaves]. rewrite IH. destruct (is_leaf x members); reflexivity.
Qed.

Lemma virtual_thread_loops (cfg : Config) (knob : string) (s s' : Schedule)
    (output : Operation) (outer x_bo : IterVar) (L : list IterVar)
    (R : list (IterVar * Z)) :
  virtual_thread cfg knob s output outer x_bo = Ok s' ->
  stage_at s output (has_loops L R) ->
  exists n,
    cfg_get cfg knob = Ok (OtherOptionEntity n) /\
    stage_at s' output
      (has_loops
         (if n >? 1
          then reorder_leaves [SplitInner outer; x_bo] [SplitInner outer; x_bo]
                 (replace_leaf outer [SplitOuter outer; SplitInner outer] L)
          else L)
         (if n >? 1 then R ++ [(outer, n)] else R)) /\
    (1 < n ->
     stage_at s' output (annotated (SplitInner outer) (Bind "cthread"))).
Proof.
  unfold virtual_thread, bind_thread. intros H [st [Hst [HL HR]]].
  bind_inv H as e He. bind_inv H as n Hn.
  destruct e as [size|v]; [discriminate|]. injection Hn as ->.
  exists n. split; [exact He|].
  destruct (n >? 1) eqn:En.
  - bind_inv H as [[o v_t] s1] Hsplit. bind_inv H as s2 Hre.
    apply split_inv in Hsplit. destruct Hsplit as [st0 [Hg0 [_ [E ->]]]].
    rewrite Hst in Hg0. injection Hg0 as <-. injection E as -> ->.
    pose proof (get_stage_Ok _ _ _ Hst) as [_ Hk].
    apply reorder_inv in Hre. destruct Hre as [st1 [Hg1 [_ [_ ->]]]].
    rewrite get_stage_set_stage_same with (st := st) in Hg1
      by (first [exact Hk | exact Hst]).
    injection Hg1 as <-.
    rewrite set_stage_twice in H by exact Hk.
    cbn [op leaf_iter_vars relations scope attach iter_var_attrs] in H.
    split; [|intros _; apply (annotate_annotated _ _ _ _ _ H)].
    destruct (has_loops_ignores
                (reorder_leaves [SplitInner outer; x_bo]
                   [SplitInner outer; x_bo]
                   (replace_leaf outer [SplitOuter outer; SplitInner outer] L))
                (R ++ [(outer, n)])) as [_ [_ [_ Hg]]].
    apply (annotate_stage_at _ s' output output _ _ _ H (fun _ => Hg)).
    eexists. split.
    + apply get_stage_set_stage_same with (st := st); [exact Hk|exact Hst].
    + split; cbn [leaf_iter_vars relations]; congruence.
  - injection H as <-. split; [|lia].
    exists st. split; [exact Hst|]. split; assumption.
Qed.

Lemma threaded_order_eq (output : Operation) (R : list IterVar) (oc h : bool) :
  (let L1 :=
     if oc
     then reorder_leaves [channel_thread output; outer_batch output]
            [channel_thread output; outer_batch output]
            (replace_leaf (outer_channel output)
               [SplitOuter (outer_channel output); channel_thread output]
               (tiled_order output ++ R))
     else tiled_order output ++ R in
   if h
   then reorder_leaves [height_thread output; outer_batch output]
          [height_thread output; outer_batch output]
          (replace_leaf (outer_height output)
             [SplitOuter (outer_height output); height_thread output] L1)
   else L1)
  = threaded_order output oc h ++ R.
Proof.
  unfold threaded_order, tiled_order, channel_thread, height_thread,
    outer_batch, outer_height, outer_channel, outer_width, inner_channel,
    inner_height, inner_width, inner_batch_block, inner_channel_block.
  destruct oc, h; cbv zeta; axes_simpl; rewrite ?reorder_leaves_nil;
    reflexivity.
Qed.

Lemma split_relations (s s' : Schedule) (t : Operation) (p : IterVar) (f : Z)
    (r : IterVar * IterVar) (R : list (IterVar * Z)) :
  split s t p f = Ok (r, s') ->
  stage_at s t (fun st => relations st = R) ->
  stage_at s' t (fun st => relations st = R ++ [(p, f)]).
Proof.
  intros H [st [Hst HR]]. apply split_inv in H.
  destruct H as [st0 [Hg [_ [_ ->]]]].
  rewrite Hst in Hg. injection Hg as <-.
  eexists. split.
  - apply get_stage_set_stage_same with (st := st); [|exact Hst].
    apply (get_stage_Ok _ _ _ Hst).
  - cbn [relations]. rewrite HR. reflexivity.
Qed.

(** The tiles of the output stage are read from the configuration: each of
    tile_co, tile_h and tile_w is a split with two sizes, and the axis is
    split by the second. *)
Lemma tile_relations (cfg : Config) (s s' : Schedule) (output : Operation)
    (t : Tiles) (R : list (IterVar * Z)) :
  tile cfg s output = Ok (t, s') ->
  stage_at s output (fun st => relations st = R) ->
  exists z1 c1 z2 c2 z3 c3,
    cfg_get cfg "tile_co" = Ok (SplitEntity [z1; c1]) /\
    cfg_get cfg "tile_h" = Ok (SplitEntity [z2; c2]) /\
    cfg_get cfg "tile_w" = Ok (SplitEntity [z3; c3]) /\
    stage_at s' output
      (fun st =>
         relations st
         = R ++ [(DataAxis (op_id output) 1, np_prod [c1]);
                 (DataAxis (op_id output) 2, np_prod [c2]);
                 (DataAxis (op_id output) 3, np_prod [c3])]).
Proof.
  unfold tile. intros H HR.
  bind_inv H as st Hst.
  bind_inv H as [[[[[x_bo x_co] x_i] x_j] x_bi] x_ci] Hax.
  bind_inv H as e1 He1. bind_inv H as [r1 s1] Hr1.
  bind_inv H as [x_co0 x_co1] Hu1.
  bind_inv H as e2 He2. bind_inv H as [r2 s2] Hr2.
  bind_inv H as [x_i0 x_i1] Hu2.
  bind_inv H as e3 He3. bind_inv H as [r3 s3] Hr3.
  bind_inv H as [x_j0 x_j1] Hu3.
  bind_inv H as s4 Hre. injection H as _ <-.
  pose proof (get_stage_Ok s output st Hst) as [_ Hkey].
  unfold key in Hkey.
  apply unpack6_axis in Hax.
  destruct Hax as [_ [-> [-> [-> [-> [-> ->]]]]]]. rewrite Hkey in *.
  destruct (apply_unpack2 e1 s s1 output _ _ _ r1 Hr1 Hu1)
    as [z1 [c1 [-> Hs1]]].
  destruct (apply_unpack2 e2 s1 s2 output _ _ _ r2 Hr2 Hu2)
    as [z2 [c2 [-> Hs2]]].
  destruct (apply_unpack2 e3 s2 s3 output _ _ _ r3 Hr3 Hu3)
    as [z3 [c3 [-> Hs3]]].
  exists z1, c1, z2, c2, z3, c3.
  repeat (split; [assumption|]).
  pose proof (split_relations _ _ _ _ _ _ _ Hs1 HR) as H1.
  pose proof (split_relations _ _ _ _ _ _ _ Hs2 H1) as H2.
  pose proof (split_relations _ _ _ _ _ _ _ Hs3 H2) as H3.
  apply reorder_inv in Hre. destruct Hre as [st3 [Hg3 [_ [_ ->]]]].
  apply (stage_at_set_stage _ _ _ st3 _ _ Hg3);
    [apply (get_stage_Ok _ _ _ Hg3)|intros _ Hp; exact Hp|].
  apply (stage_at_weaken _ _ _ _) with (2 := H3).
  intros st' Hrel. rewrite Hrel, <- !app_assoc. reflexivity.
Qed.

Lemma trace_tile_factors (env : Env) (cfg cfg' : Config)
    (outs : list Operation) (s : Schedule) (tr : Trace) :
  is_trace env cfg outs cfg' s tr ->
  exists z1 c1 z2 c2 z3 c3,
    cfg_get cfg "tile_co" = Ok (SplitEntity [z1; c1]) /\
    cfg_get cfg "tile_h" = Ok (SplitEntity [z2; c2]) /\
    cfg_get cfg "tile_w" = Ok (SplitEntity [z3; c3]) /\
    stage_at (tr_tiled tr) (tr_output tr)
      (fun st =>
         relations st
         = [(DataAxis (op_id (tr_output tr)) 1, np_prod [c1]);
            (DataAxis (op_id (tr_output tr)) 2, np_prod [c2]);
            (DataAxis (op_id (tr_output tr)) 3, np_prod [c3])]).
Proof.
  intros Htr.
  destruct (trace_tiled env cfg cfg' outs s tr Htr)
    as [st [f_co [f_h [f_w [Hst [_ [_ [_ [_ [Hp _]]]]]]]]]].
  destruct Htr as [_ [_ [_ [Hspace [_ [Htile _]]]]]].
  assert (HR : stage_at (tr_scoped tr) (tr_output tr)
                 (fun st => relations st = [])).
  { exists st. split; [exact Hst|].
    apply get_stage_Ok in Hst. destruct Hst as [Hin _].
    rewrite Forall_forall in Hp. apply (Hp st Hin). }
  destruct (tile_relations _ _ _ _ _ _ Htile HR)
    as [z1 [c1 [z2 [c2 [z3 [c3 [H1 [H2 [H3 H4]]]]]]]]].
  destruct (space_definition_inv cfg cfg' _ _ Hspace) as [_ [Hent _]].
  unfold cfg_get in H1, H2, H3. rewrite Hent in H1, H2, H3.
  exists z1, c1, z2, c2, z3, c3. auto.
Qed.

Lemma trace_output_loops (env : Env) (cfg cfg' : Config)
    (outs : list Operation) (s : Schedule) (tr : Trace) :
  is_trace env cfg outs cfg' s tr ->
  exists z1 c1 z2 c2 z3 c3 n_oc n_h,
    cfg_get cfg "tile_co" = Ok (SplitEntity [z1; c1]) /\
    cfg_get cfg "tile_h" = Ok (SplitEntity [z2; c2]) /\
    cfg_get cfg "tile_w" = Ok (SplitEntity [z3; c3]) /\
    cfg_get cfg "oc_nthread" = Ok (OtherOptionEntity n_oc) /\
    cfg_get cfg "h_nthread" = Ok (OtherOptionEntity n_h) /\
    stage_at s (tr_output tr)
      (has_loops
         (threaded_order (tr_output tr) (n_oc >? 1) (n_h >? 1)
          ++ reduce_axis (tr_output tr))
         (threaded_splits (tr_output tr) (np_prod [c1]) (np_prod [c2])
            (np_prod [c3]) n_oc n_h)) /\
    (1 < n_oc ->
     stage_at s (tr_output tr)
       (annotated (channel_thread (tr_output tr)) (Bind "cthread"))) /\
    (1 < n_h ->
     stage_at s (tr_output tr)
       (annotated (height_thread (tr_output tr)) (Bind "cthread"))).
Proof.
  intros Htr.
  pose proof (trace_conv_not_output env cfg cfg' outs s tr Htr) as Hne.
  destruct (trace_tiled env cfg cfg' outs s tr Htr)
    as [st [f_co [f_h [f_w [Hst [_ [Hsig [Ht [Htiled _]]]]]]]]].
  destruct (trace_tile_factors env cfg cfg' outs s tr Htr)
    as [z1 [c1 [z2 [c2 [z3 [c3 [Hc1 [Hc2 [Hc3 Hrel]]]]]]]]].
  pose proof Htr as Htr0.
  destruct Htr as [_ [_ [_ [Hspace [_ [_ [Hatt [Hoc [Hh [Hred Hvta]]]]]]]]]].
  set (output := tr_output tr) in *.
  rewrite Ht in Hoc, Hh. cbn [output_tiles t_co0 t_bo t_i0] in Hoc, Hh.
  (* after tiling *)
  assert (H2 : stage_at (tr_tiled tr) output
                 (has_loops (tiled_order output ++ reduce_axis output)
                    [(DataAxis (op_id output) 1, np_prod [c1]);
                     (DataAxis (op_id output) 2, np_prod [c2]);
                     (DataAxis (op_id output) 3, np_prod [c3])])).
  { destruct Hrel as [st' [Hst' Hrel]]. exists st'. split; [exact Hst'|].
    split; [|exact Hrel].
    rewrite Htiled in Hst'.
    rewrite get_stage_set_stage_same with (st := st) in Hst';
      [|apply (get_stage_Ok _ _ _ Hst)|exact Hst].
    injection Hst' as <-. cbn [tiled_stage leaf_iter_vars].
    rewrite (reduce_axis_signature _ _ Hsig). reflexivity. }
  destruct (has_loops_ignores (tiled_order output ++ reduce_axis output)
              [(DataAxis (op_id output) 1, np_prod [c1]);
               (DataAxis (op_id output) 2, np_prod [c2]);
               (DataAxis (op_id output) 3, np_prod [c3])])
    as [_ [_ [Ha Hg]]].
  pose proof (set_compute_scopes_stage_at env _ _ _ _ output _ _ _ _ Hatt
                Ha Hg H2) as H3.
  (* the two virtual-threading blocks *)
  destruct (virtual_thread_loops _ _ _ _ _ _ _ _ _ Hoc H3)
    as [n_oc [Hcoc [H4 Hb4]]].
  destruct (virtual_thread_loops _ _ _ _ _ _ _ _ _ Hh H4)
    as [n_h [Hch [H5 Hb5]]].
  destruct (space_definition_inv cfg cfg' _ _ Hspace) as [_ [Hent _]].
  unfold cfg_get in Hcoc, Hch. rewrite Hent in Hcoc, Hch.
  exists z1, c1, z2, c2, z3, c3, n_oc, n_h.
  repeat (split; [assumption|]).
  assert (Htail : forall P,
             ignores_attach P -> grows_with_attrs P ->
             stage_at (tr_threaded tr) output P -> stage_at s output P).
  { intros P HPa HPg Hx.
    apply (use_vta_instructions_stage_at env _ _ _ _ _ _ output _ _ P
             Hvta HPg).
    apply (stage_reduction_stage_at _ _ _ _ _ _ output _ _ P Hred); auto.
    intros E. exfalso. apply Hne. symmetry. exact E. }
  split; [|split].
  - match type of H5 with stage_at _ _ (has_loops ?L ?R) =>
      destruct (has_loops_ignores L R) as [_ [_ [Ha5 Hg5]]]
    end.
    apply (Htail _ Ha5 Hg5) in H5.
    apply (stage_at_weaken _ _ _ _ ) with (2 := H5).
    intros st5 [HL HR]. split.
    + rewrite HL.
      apply (threaded_order_eq output (reduce_axis output)
               (n_oc >? 1) (n_h >? 1)).
    + rewrite HR. unfold threaded_splits.
      destruct (n_oc >? 1), (n_h >? 1); cbn [app]; reflexivity.
  - intros Hn. destruct (annotated_settled (channel_thread output)
                           (Bind "cthread")) as [[Hl [Ha' Hg']] _].
    apply (Htail _ Ha' Hg').
    apply (virtual_thread_stage_at _ _ _ _ _ output _ _ _ Hh
             (fun _ => Hl) (fun _ => Hg')).
    apply Hb4. exact Hn.
  - intros Hn. destruct (annotated_settled (height_thread output)
                           (Bind "cthread")) as [[Hl [Ha' Hg']] _].
    apply (Htail _ Ha' Hg'). apply Hb5. exact Hn.
Qed.

(** X9: in the schedule returned by [schedule_conv2d_packed], the output
    stage is split by the second sizes of the tunables tile_co, tile_h and
    tile_w, and its loops are the tiled order when no virtual-threading
    knob exceeds 1; each knob above 1 splits its outer axis (outer channel,
    outer height) by the knob value, moves the new inner axis in front of
    the outer batch axis and binds it to the virtual thread cthread.  With
    the channel knob alone the outer batch loop ends up fourth; with both
    knobs the second reorder leaves the order unchanged. *)
Theorem virtual_threading_loop_nest :
  forall (env : Env) (cfg cfg' : Config) (outs : list Operation)
         (s : Schedule),
    schedule_conv2d_packed env cfg outs = Ok (cfg', s) ->
    exists output z1 c1 z2 c2 z3 c3 n_oc n_h st,
      outs = [output] /\
      cfg_get cfg "tile_co" = Ok (SplitEntity [z1; c1]) /\
      cfg_get cfg "tile_h" = Ok (SplitEntity [z2; c2]) /\
      cfg_get cfg "tile_w" = Ok (SplitEntity [z3; c3]) /\
      cfg_get cfg "oc_nthread" = Ok (OtherOptionEntity n_oc) /\
      cfg_get cfg "h_nthread" = Ok (OtherOptionEntity n_h) /\
      get_stage s output = Ok st /\
      leaf_iter_vars st
      = threaded_order output (n_oc >? 1) (n_h >? 1) ++ reduce_axis output /\
      relations st
      = threaded_splits output (np_prod [c1]) (np_prod [c2]) (np_prod [c3])
          n_oc n_h /\
      (1 < n_oc ->
       In (channel_thread output, Bind "cthread") (iter_var_attrs st)) /\
      (1 < n_h ->
       In (height_thread output, Bind "cthread") (iter_var_attrs st)).
Proof.
  intros env cfg cfg' outs s H.
  destruct (schedule_conv2d_packed_trace env cfg cfg' outs s H) as [tr Htr].
  destruct (trace_output_loops env cfg cfg' outs s tr Htr)
    as [z1 [c1 [z2 [c2 [z3 [c3 [n_oc [n_h
          [H1 [H2 [H3 [Hoc [Hh [[st [Hst [HL HR]]] [Hb1 Hb2]]]]]]]]]]]]]]].
  destruct Htr as [Houts _].
  exists (tr_output tr), z1, c1, z2, c2, z3, c3, n_oc, n_h, st.
  repeat (split; [assumption|]). split.
  - intros Hn. destruct (Hb1 Hn) as [st' [Hst' Hin]].
    rewrite Hst in Hst'. injection Hst' as <-. exact Hin.
  - intros Hn. destruct (Hb2 Hn) as [st' [Hst' Hin]].
    rewrite Hst in Hst'. injection Hst' as <-. exact Hin.
Qed.

Lemma virtual_threading_loop_nest_witness :
  exists output z1 c1 z2 c2 z3 c3 n_oc n_h st,
    [ex_out] = [output] /\
    cfg_get ex_cfg "tile_co" = Ok (SplitEntity [z1; c1]) /\
    cfg_get ex_cfg "tile_h" = Ok (SplitEntity [z2; c2]) /\
    cfg_get ex_cfg "tile_w" = Ok (SplitEntity [z3; c3]) /\
    cfg_get ex_cfg "oc_nthread" = Ok (OtherOptionEntity n_oc) /\
    cfg_get ex_cfg "h_nthread" = Ok (OtherOptionEntity n_h) /\
    get_stage (snd ex_run) output = Ok st /\
    leaf_iter_vars st
    = threaded_order output (n_oc >? 1) (n_h >? 1) ++ reduce_axis output /\
    relations st
    = threaded_splits output (np_prod [c1]) (np_prod [c2]) (np_prod [c3])
        n_oc n_h /\
    (1 < n_oc ->
     In (channel_thread output, Bind "cthread") (iter_var_attrs st)) /\
    (1 < n_h ->
     In (height_thread output, Bind "cthread") (iter_var_attrs st)).
Proof.
  apply (virtual_threading_loop_nest ex_env ex_cfg (fst ex_run) [ex_out]
           (snd ex_run)).
  vm_compute. reflexivity.
Defined.

(** ** The accelerator instructions *)

Lemma for_each_keeps {A : Type} (body : Schedule -> A -> result Schedule)
    (l : list A) (Q : Schedule -> Prop) :
  (forall s a s', body s a = Ok s' -> Q s -> Q s') ->
  forall s s', for_each l body s = Ok s' -> Q s -> Q s'.
Proof.
  intros Hbody.
  apply (for_each_rel (fun s s' => Q s -> Q s')); [auto|auto|].
  intros s a s' _. apply Hbody.
Qed.

Lemma for_each_establish {A : Type} (body : Schedule -> A -> result Schedule)
    (l : list A) (Q : A -> Schedule -> Prop) :
  (forall s a s', body s a = Ok s' -> Q a s') ->
  (forall s a s' b, body s a = Ok s' -> Q b s -> Q b s') ->
  forall s s', for_each l body s = Ok s' -> forall a, In a l -> Q a s'.
Proof.
  intros Hest Hkeep. induction l as [|a l IH]; intros s s' H b Hb;
    [destruct Hb|].
  cbn [for_each] in H. bind_inv H as s1 H1.
  destruct Hb as [<-|Hb].
  - apply (for_each_keeps body l (Q a)) with (s := s1); [|exact H|].
    + intros s0 a0 s0' Hb0. apply (Hkeep s0 a0 s0' a Hb0).
    + apply (Hest s a s1 H1).
  - apply (IH s1 s' H b Hb).
Qed.

Lemma ewise_scope_loop (env : Env) (l : list Operation) (s s' : Schedule) :
  for_each l
    (fun s o =>
       s <- set_scope s o (acc_scope env) ;;
       a <- first_axis s o ;;
       pragma s o a (alu env)) s = Ok s' ->
  forall o, In o l ->
    stage_at s' o (scoped (acc_scope env)) /\
    stage_at s' o (annotated (DataAxis (op_id o) 0) (Pragma (alu env))).
Proof.
  apply (for_each_establish _ l
           (fun o s =>
              stage_at s o (scoped (acc_scope env)) /\
              stage_at s o (annotated (DataAxis (op_id o) 0)
                              (Pragma (alu env))))).
  - intros s0 o s0' Hb. bind_inv Hb as s1 Hsc. bind_inv Hb as a Ha.
    apply first_axis_Ok in Ha. subst a. unfold pragma in Hb. split.
    + destruct (scoped_settled (acc_scope env)) as [[_ [_ Hg]] _].
      apply (annotate_stage_at _ _ _ _ _ _ _ Hb (fun _ => Hg)).
      apply (set_scope_scoped _ _ _ _ Hsc).
    + apply (annotate_annotated _ _ _ _ _ Hb).
  - intros s0 o s0' b Hb [Hs Ha]. bind_inv Hb as s1 Hsc. bind_inv Hb as a Hax.
    unfold pragma in Hb. split.
    + destruct (scoped_settled (acc_scope env)) as [[_ [_ Hg]] _].
      apply (annotate_stage_at _ _ _ _ _ _ _ Hb (fun _ => Hg)).
      apply (set_scope_stage_at _ _ _ _ _ _ Hsc); [|exact Hs].
      intros _ st _. reflexivity.
    + destruct (annotated_settled (DataAxis (op_id b) 0) (Pragma (alu env)))
        as [[_ [_ Hg]] [_ Hsc']].
      apply (annotate_stage_at _ _ _ _ _ _ _ Hb (fun _ => Hg)).
      apply (set_scope_stage_at _ _ _ _ _ _ Hsc); [|exact Ha].
      intros _ st Hst. apply (Hsc' st _ Hst).
Qed.

Lemma cached_attach_loop (env : Env) (output : Operation) (a : IterVar)
    (l : list Tensor) (s s' : Schedule) :
  for_each l
    (fun s tensor =>
       s <- compute_at s tensor output a ;;
       v <- first_axis s tensor ;;
       pragma s tensor v (dma_copy env)) s = Ok s' ->
  forall t, In t l ->
    stage_at s' t (annotated (DataAxis (op_id t) 0) (Pragma (dma_copy env))).
Proof.
  apply (for_each_establish _ l
           (fun t s =>
              stage_at s t (annotated (DataAxis (op_id t) 0)
                              (Pragma (dma_copy env))))).
  - intros s0 t s0' Hb. bind_inv Hb as s1 Hat. bind_inv Hb as v Hv.
    apply first_axis_Ok in Hv. subst v.
    apply (annotate_annotated _ _ _ _ _ Hb).
  - intros s0 t s0' b Hb Ha. bind_inv Hb as s1 Hat. bind_inv Hb as v Hv.
    destruct (annotated_settled (DataAxis (op_id b) 0)
                (Pragma (dma_copy env))) as [[_ [Hatt Hg]] _].
    apply (annotate_stage_at _ _ _ _ _ _ _ Hb (fun _ => Hg)).
    apply (compute_at_stage_at _ _ _ _ _ _ _ Hat (fun _ => Hatt)). exact Ha.
Qed.

(** ** Cached copies *)

Lemma find_insert_after_new (x t : Operation) (c : Stage) (l : list Stage) :
  is_stage_of x c = true ->
  Forall (fun y => is_stage_of x y = false) l ->
  (exists y, In y l /\ is_stage_of t y = true) ->
  find (is_stage_of x) (insert_after t c l) = Some c.
Proof.
  intros Hc HF. induction HF as [|y l Hy HF IH]; intros [z [Hz Ht]];
    [destruct Hz|].
  cbn [insert_after]. destruct (is_stage_of t y) eqn:E.
  - cbn [find]. rewrite Hy, Hc. reflexivity.
  - cbn [find]. rewrite Hy. apply IH. exists z. split; [|exact Ht].
    destruct Hz as [<-|Hz]; [congruence|exact Hz].
Qed.

Lemma next_id_set_stage (s : Schedule) (t : Operation) (st : Stage) :
  next_id (set_stage s t st) = next_id s.
Proof. reflexivity. Qed.

Lemma readers_loop_inv (tensor cache : Operation) (readers : list Operation) :
  forall s s1,
    for_each readers
      (fun s0 r =>
         st <- get_stage s0 r ;;
         if negb (reads (op st) tensor) then Raise TVMError else
         Ok (set_stage s0 r
               (MkStage (replace_inputs (op st) tensor cache)
                  (leaf_iter_vars st) (relations st) (scope st)
                  (attach st) (iter_var_attrs st)))) s = Ok s1 ->
    stage_keys s1 = stage_keys s /\ next_id s1 = next_id s /\
    (forall r, In r readers -> In (op_id r) (stage_keys s)) /\
    (forall x P, ignores_op P -> stage_at s x P -> stage_at s1 x P).
Proof.
  induction readers as [|r readers IH]; intros s s1 Hloop.
  - injection Hloop as <-. split; [reflexivity|]. split; [reflexivity|].
    split; [intros r []|auto].
  - cbn [for_each] in Hloop. bind_inv Hloop as s0 Hr.
    bind_inv Hr as st Hst.
    destruct (reads (op st) tensor); cbn [negb] in Hr; [|discriminate].
    injection Hr as <-.
    pose proof (get_stage_Ok _ _ _ Hst) as [_ Hk].
    assert (Hk' : key (MkStage (replace_inputs (op st) tensor cache)
                         (leaf_iter_vars st) (relations st) (scope st)
                         (attach st) (iter_var_attrs st)) = op_id r)
      by exact Hk.
    destruct (IH _ s1 Hloop) as [K [N [Hrs Hkeep]]].
    rewrite (set_stage_keys s r _ Hk') in K, Hrs.
    split; [exact K|]. split; [exact N|]. split.
    + intros r' [<-|Hr']; [apply (get_stage_In_keys s r st Hst)|].
      apply Hrs. exact Hr'.
    + intros x P HP Hx. apply (Hkeep x P HP).
      apply (stage_at_set_stage s r x st _ P Hst Hk'); [|exact Hx].
      intros _ Hp. apply (HP st _ Hp).
Qed.

(** What a successful [cache_read] did: the readers, which all have a
    stage, were rewritten, and one stage was added for the copy. *)
Lemma cache_read_inv (s s' : Schedule) (tensor c : Operation) (sc : string)
    (readers : list Operation) :
  cache_read s tensor sc readers = Ok (c, s') ->
  exists s1,
    In (op_id tensor) (stage_keys s) /\
    c = MkOp (next_id s) ComputeOp (op_name tensor ++ "." ++ sc) ""
          (dtype tensor) (shape tensor) [] [tensor] /\
    stage_keys s1 = stage_keys s /\ next_id s1 = next_id s /\
    (forall r, In r readers -> In (op_id r) (stage_keys s)) /\
    (forall x P, ignores_op P -> stage_at s x P -> stage_at s1 x P) /\
    s' = MkSchedule
           (insert_after tensor
              (MkStage c (root_iter_vars c) [] sc kGroupRoot []) (stages s1))
           (outputs s1) (S (next_id s1)).
Proof.
  unfold cache_read. intros H.
  bind_inv H as stt Ht. bind_inv H as s1 Hloop.
  injection H as <- <-.
  exists s1. split; [apply (get_stage_In_keys s tensor stt Ht)|].
  split; [reflexivity|].
  destruct (readers_loop_inv tensor _ readers s s1 Hloop)
    as [K [N [Hrs Hkeep]]].
  repeat (split; [assumption|]). reflexivity.
Qed.

Lemma cache_read_stage_at (s s' : Schedule) (tensor c x : Operation)
    (sc : string) (readers : list Operation) (P : Stage -> Prop) :
  cache_read s tensor sc readers = Ok (c, s') ->
  fresh s -> ignores_op P ->
  stage_at s x P -> stage_at s' x P.
Proof.
  intros H Hf HP Hx.
  destruct (cache_read_inv s s' tensor c sc readers H)
    as [s1 [_ [Hc [K [N [_ [Hkeep ->]]]]]]].
  assert (Hlt : (op_id x < next_id s)%nat).
  { destruct Hx as [st [Hg _]]. apply get_stage_In_keys in Hg.
    unfold fresh in Hf. rewrite Forall_forall in Hf. apply (Hf _ Hg). }
  destruct (Hkeep x P HP Hx) as [st1 [Hg1 Hp1]].
  exists st1. split; [|exact Hp1].
  unfold get_stage in *. cbn [stages].
  rewrite find_insert_after; [exact Hg1|].
  unfold is_stage_of, same_as. cbn [op]. rewrite Hc. cbn [op_id].
  apply Nat.eqb_neq. lia.
Qed.

Lemma cache_read_new_stage (s s' : Schedule) (tensor c : Operation)
    (sc : string) (readers : list Operation) :
  cache_read s tensor sc readers = Ok (c, s') ->
  fresh s ->
  op_id c = next_id s /\ next_id s' = S (next_id s) /\ fresh s' /\
  input_tensors c = [tensor] /\ shape c = shape tensor /\
  (forall r, In r readers -> (op_id r < next_id s)%nat) /\
  get_stage s' c = Ok (MkStage c (root_iter_vars c) [] sc kGroupRoot []).
Proof.
  intros H Hf.
  destruct (cache_read_grow s s' tensor c sc readers H Hf) as [Hf' _].
  destruct (cache_read_inv s s' tensor c sc readers H)
    as [s1 [Ht [Hc [K [N [Hrs [_ ->]]]]]]].
  split; [rewrite Hc; reflexivity|].
  split; [cbn [next_id]; rewrite N; reflexivity|].
  split; [exact Hf'|].
  split; [rewrite Hc; reflexivity|]. split; [rewrite Hc; reflexivity|].
  unfold fresh in Hf. rewrite Forall_forall in Hf.
  split; [intros r Hr; apply Hf, Hrs, Hr|].
  unfold get_stage. cbn [stages].
  rewrite (find_insert_after_new c tensor _ (stages s1)); [reflexivity| | |].
  - unfold is_stage_of, same_as. cbn [op]. apply Nat.eqb_refl.
  - apply Forall_forall. intros y Hy.
    unfold is_stage_of, same_as. apply Nat.eqb_neq.
    assert (Hky : In (key y) (stage_keys s1))
      by (unfold stage_keys; apply in_map; exact Hy).
    rewrite K in Hky. specialize (Hf _ Hky). unfold key in Hf.
    rewrite Hc. cbn [op_id]. lia.
  - rewrite <- K in Ht. unfold stage_keys in Ht. apply in_map_iff in Ht.
    destruct Ht as [y [Hk Hy]]. exists y. split; [exact Hy|].
    unfold is_stage_of, same_as. apply Nat.eqb_eq. exact Hk.
Qed.

Lemma cache_read_inputs_stage_at (env : Env) (x : Operation)
    (P : Stage -> Prop) (l : list (Operation * Tensor)) :
  ignores_op P ->
  forall s cs s',
    cache_read_inputs env l s = Ok (cs, s') -> fresh s ->
    stage_at s x P -> stage_at s' x P.
Proof.
  intros HP. induction l as [|[consumer tensor] l IH]; intros s cs s' H Hf Hx.
  - injection H as _ <-. exact Hx.
  - cbn [cache_read_inputs] in H. bind_inv H as [c s1] Hc.
    bind_inv H as [cs' s2] Hrest. injection H as _ <-.
    destruct (cache_read_grow s s1 tensor c _ _ Hc Hf) as [Hf1 _].
    apply (IH s1 cs' s2 Hrest Hf1).
    apply (cache_read_stage_at s s1 tensor c x _ _ P Hc Hf HP Hx).
Qed.

Lemma cache_read_inputs_scoped (env : Env) (l : list (Operation * Tensor)) :
  forall s cs s',
    cache_read_inputs env l s = Ok (cs, s') -> fresh s ->
    forall t, In t cs -> stage_at s' t (scoped (acc_scope env)).
Proof.
  induction l as [|[consumer tensor] l IH]; intros s cs s' H Hf t Ht.
  - injection H as <- _. destruct Ht.
  - cbn [cache_read_inputs] in H. bind_inv H as [c s1] Hc.
    bind_inv H as [cs' s2] Hrest. injection H as <- <-.
    destruct (cache_read_new_stage s s1 tensor c _ _ Hc Hf)
      as [_ [_ [Hf1 [_ [_ [_ Hnew]]]]]].
    destruct Ht as [<-|Ht].
    + destruct (scoped_settled (acc_scope env)) as [_ Hop].
      apply (cache_read_inputs_stage_at env c _ l Hop s1 cs' s2 Hrest Hf1).
      eexists. split; [exact Hnew|reflexivity].
    + apply (IH s1 cs' s2 Hrest Hf1 t Ht).
Qed.

(** ** The memory scopes *)

Lemma calls_max_id (o : Operation) :
  forall x, In x (calls o) -> (op_id x <= max_id o)%nat.
Proof.
  induction o as [o IH] using Operation_nested_ind. intros x Hx.
  apply In_calls_inv in Hx. destruct Hx as [->|[_ [t [Ht [_ Hx]]]]].
  - apply max_id_self.
  - rewrite Forall_forall in IH. specialize (IH t Ht x Hx).
    pose proof (max_id_input o t Ht). lia.
Qed.

Lemma setup_scopes_steps (env : Env) (s s' : Schedule)
    (conv cdata ckernel : Operation) (c : Classified) (cre : list Operation) :
  setup_scopes env s conv c = Ok (cdata, ckernel, cre, s') ->
  exists data kernel s1 s2 s3 s4 s5,
    input_tensors conv = [data; kernel] /\
    ((is_compute data && contains "pad" (op_tag data) = true /\
      cdata = data /\ set_scope s data (inp_scope env) = Ok s1) \/
     (is_compute data && contains "pad" (op_tag data) = false /\
      cache_read s data (inp_scope env) [conv] = Ok (cdata, s1))) /\
    cache_read s1 kernel (wgt_scope env) [conv] = Ok (ckernel, s2) /\
    set_scope s2 conv (acc_scope env) = Ok s3 /\
    cache_read_inputs env (ewise_inputs c) s3 = Ok (cre, s4) /\
    for_each (ewise_ops c)
      (fun s o =>
         s <- set_scope s o (acc_scope env) ;;
         a <- first_axis s o ;;
         pragma s o a (alu env)) s4 = Ok s5 /\
    for_each (const_ops c) compute_inline s5 = Ok s'.
Proof.
  unfold setup_scopes. intros H.
  bind_inv H as [data kernel] Hun.
  bind_inv H as [data' pad_data] Hpad.
  bind_inv H as [cdata0 s1] Hcd.
  bind_inv H as [ckernel0 s2] Hck.
  bind_inv H as s3 Hsc.
  bind_inv H as [cre0 s4] Hcre.
  bind_inv H as s5 Hew.
  bind_inv H as s6 Hco.
  injection H as <- <- <- <-.
  assert (Hins : input_tensors conv = [data; kernel]).
  { destruct (input_tensors conv) as [|a [|b [|? ?]]]; try discriminate.
    injection Hun as -> ->. reflexivity. }
  exists data, kernel, s1, s2, s3, s4, s5.
  split; [exact Hins|]. split; [|auto 6].
  destruct (is_compute data && contains "pad" (op_tag data)).
  - left. bind_inv Hpad as temp Htemp. injection Hpad as <- <-.
    bind_inv Hcd as sp Hsp. injection Hcd as <- <-. auto.
  - right. injection Hpad as <- <-. auto.
Qed.

Lemma ewise_loop_stage_at (env : Env) (l : list Operation) (x : Operation)
    (P : Stage -> Prop) (s s' : Schedule) :
  for_each l
    (fun s o =>
       s <- set_scope s o (acc_scope env) ;;
       a <- first_axis s o ;;
       pragma s o a (alu env)) s = Ok s' ->
  grows_with_attrs P ->
  (forall o, In o l -> op_id x = op_id o ->
     forall st, P st ->
       P (MkStage (op st) (leaf_iter_vars st) (relations st) (acc_scope env)
            (attach st) (iter_var_attrs st))) ->
  stage_at s x P -> stage_at s' x P.
Proof.
  intros H Hg Hsc. revert s s' H.
  apply (for_each_stage_at _ l x P).
  intros s0 o s0' Ho Hb Hx. bind_inv Hb as s1 Hs1. bind_inv Hb as a Ha.
  unfold pragma in Hb.
  apply (annotate_stage_at _ _ _ _ _ _ _ Hb (fun _ => Hg)).
  apply (set_scope_stage_at _ _ _ _ _ _ Hs1); [|exact Hx].
  intros E. apply (Hsc o Ho E).
Qed.

Lemma inline_loop_stage_at (l : list Operation) (x : Operation)
    (P : Stage -> Prop) (s s' : Schedule) :
  for_each l compute_inline s = Ok s' ->
  ignores_attach P -> stage_at s x P -> stage_at s' x P.
Proof.
  intros H Ha. revert s s' H. apply (for_each_stage_at _ l x P).
  intros s0 o s0' _ Hb Hx.
  apply (compute_inline_stage_at _ _ _ _ _ Hb (fun _ => Ha) Hx).
Qed.

Lemma use_vta_instructions_annotated (env : Env) (s s' : Schedule)
    (output conv cdata ckernel : Operation) (x_bi x_co1 : IterVar) :
  use_vta_instructions env s output conv cdata ckernel x_bi x_co1 = Ok s' ->
  stage_at s' cdata
    (annotated (DataAxis (op_id cdata) 0) (Pragma (dma_copy env))) /\
  stage_at s' ckernel
    (annotated (DataAxis (op_id ckernel) 0) (Pragma (dma_copy env))) /\
  stage_at s' conv (annotated x_bi (Tensorize (gemm env))) /\
  stage_at s' output (annotated x_co1 (Pragma (dma_copy env))).
Proof.
  unfold use_vta_instructions, pragma, tensorize. intros H.
  bind_inv H as a1 Ha1. bind_inv H as s1 Hs1.
  bind_inv H as a2 Ha2. bind_inv H as s2 Hs2.
  bind_inv H as s3 Hs3.
  apply first_axis_Ok in Ha1, Ha2. subst a1 a2.
  assert (Hkeep : forall x v a t w b s0 s0',
             annotate s0 t w b = Ok s0' ->
             stage_at s0 x (annotated v a) -> stage_at s0' x (annotated v a)).
  { intros x v a t w b s0 s0' Hb Hx.
    destruct (annotated_settled v a) as [[_ [_ Hg]] _].
    apply (annotate_stage_at _ _ _ _ _ _ _ Hb (fun _ => Hg) Hx). }
  split; [|split; [|split]].
  - apply (Hkeep _ _ _ _ _ _ _ _ H).
    apply (Hkeep _ _ _ _ _ _ _ _ Hs3).
    apply (Hkeep _ _ _ _ _ _ _ _ Hs2).
    apply (annotate_annotated _ _ _ _ _ Hs1).
  - apply (Hkeep _ _ _ _ _ _ _ _ H).
    apply (Hkeep _ _ _ _ _ _ _ _ Hs3).
    apply (annotate_annotated _ _ _ _ _ Hs2).
  - apply (Hkeep _ _ _ _ _ _ _ _ H).
    apply (annotate_annotated _ _ _ _ _ Hs3).
  - apply (annotate_annotated _ _ _ _ _ H).
Qed.

Lemma trace_instructions (env : Env) (cfg cfg' : Config)
    (outs : list Operation) (s : Schedule) (tr : Trace) :
  is_trace env cfg outs cfg' s tr ->
  stage_at s (tr_cdata tr)
    (annotated (DataAxis (op_id (tr_cdata tr)) 0) (Pragma (dma_copy env))) /\
  stage_at s (tr_ckernel tr)
    (annotated (DataAxis (op_id (tr_ckernel tr)) 0)
       (Pragma (dma_copy env))) /\
  stage_at s (tr_conv tr)
    (annotated (DataAxis (op_id (tr_conv tr)) 4) (Tensorize (gemm env))) /\
  stage_at s (tr_output tr)
    (annotated (inner_channel (tr_output tr)) (Pragma (dma_copy env))) /\
  (forall o, In o (ewise_ops (tr_classified tr)) ->
     stage_at s o (annotated (DataAxis (op_id o) 0) (Pragma (alu env)))) /\
  (forall t, In t (tr_cache_read_ewise tr) ->
     stage_at s t (annotated (DataAxis (op_id t) 0) (Pragma (dma_copy env)))).
Proof.
  intros Htr.
  destruct (trace_tiled env cfg cfg' outs s tr Htr)
    as [st [f_co [f_h [f_w [_ [_ [_ [Ht [_ [_ [_ Hafter]]]]]]]]]]].
  pose proof Htr as Htr0.
  destruct Htr as [_ [_ [_ [_ [Hsetup [_ [Hatt [_ [_ [Hred Hvta]]]]]]]]]].
  destruct (stage_reduction_inv _ _ _ (tr_output tr) _ _ _ _ _ Hred Hafter)
    as [_ [_ [_ [_ [_ [_ [_ [Hxbi _]]]]]]]].
  rewrite Hxbi, Ht in Hvta. cbn [output_tiles t_co1] in Hvta.
  destruct (use_vta_instructions_annotated env _ _ _ _ _ _ _ _ Hvta)
    as [H1 [H2 [H3 H4]]].
  repeat (split; [assumption|]). split.
  - intros o Ho.
    destruct (setup_scopes_steps env _ _ _ _ _ _ _ Hsetup)
      as [data [kernel [s1 [s2 [s3 [s4 [s5 [_ [_ [_ [_ [_ [Hew Hco]]]]]]]]]]]]].
    destruct (annotated_settled (DataAxis (op_id o) 0) (Pragma (alu env)))
      as [Hset _].
    apply (trace_after_scopes env cfg cfg' outs s tr o _ Htr0 Hset).
    destruct Hset as [_ [Ha _]].
    apply (inline_loop_stage_at _ o _ _ _ Hco Ha).
    apply (ewise_scope_loop env _ _ _ Hew o Ho).
  - intros t Htc.
    destruct (annotated_settled (DataAxis (op_id t) 0)
                (Pragma (dma_copy env))) as [Hset _].
    apply (trace_after_attach env cfg cfg' outs s tr t _ Htr0 Hset).
    unfold set_compute_scopes in Hatt.
    bind_inv Hatt as sa Hsa. bind_inv Hatt as sb Hsb.
    apply (cached_attach_loop env _ _ _ _ _ Hatt t Htc).
Qed.

Lemma trace_ewise_ops_bound (env : Env) (cfg cfg' : Config)
    (outs : list Operation) (s : Schedule) (tr : Trace) :
  is_trace env cfg outs cfg' s tr ->
  forall o, In o (ewise_ops (tr_classified tr)) ->
    (op_id o < next_id (create_schedule [tr_output tr]))%nat.
Proof.
  intros [_ [Hc _]] o Ho.
  apply traverse_Ok in Hc. destruct Hc as [_ Hc]. rewrite Hc in Ho.
  cbn [classified_by ewise_ops no_ops app] in Ho.
  apply filter_In in Ho. destruct Ho as [Ho _].
  pose proof (calls_max_id _ _ Ho) as Hle.
  unfold create_schedule, fresh_id. cbn [next_id fold_right]. lia.
Qed.

Lemma trace_scopes (env : Env) (cfg cfg' : Config)
    (outs : list Operation) (s : Schedule) (tr : Trace) :
  is_trace env cfg outs cfg' s tr ->
  stage_at s (tr_conv tr) (scoped (acc_scope env)) /\
  stage_at s (tr_ckernel tr) (scoped (wgt_scope env)) /\
  (forall o, In o (ewise_ops (tr_classified tr)) ->
     stage_at s o (scoped (acc_scope env))) /\
  (forall t, In t (tr_cache_read_ewise tr) ->
     stage_at s t (scoped (acc_scope env))) /\
  exists data kernel,
    input_tensors (tr_conv tr) = [data; kernel] /\
    input_tensors (tr_ckernel tr) = [kernel] /\
    if is_compute data && contains "pad" (op_tag data)
    then tr_cdata tr = data /\
         (op_id data <> op_id (tr_conv tr) ->
          (forall o, In o (ewise_ops (tr_classified tr)) ->
             op_id o <> op_id data) ->
          stage_at s data (scoped (inp_scope env)))
    else input_tensors (tr_cdata tr) = [data] /\
         stage_at s (tr_cdata tr) (scoped (inp_scope env)).
Proof.
  intros Htr.
  pose proof (trace_ewise_ops_bound env cfg cfg' outs s tr Htr) as Hbound.
  pose proof Htr as Htr0.
  destruct Htr as [_ [_ [_ [_ [Hsetup _]]]]].
  destruct (create_schedule_output (tr_output tr)) as [_ Hf0].
  set (s0 := create_schedule [tr_output tr]) in *.
  destruct (setup_scopes_steps env _ _ _ _ _ _ _ Hsetup)
    as [data [kernel [s1 [s2 [s3 [s4 [s5
          [Hins [Hcd [Hck [Hsc [Hcre [Hew Hco]]]]]]]]]]]]].
  assert (H1 : fresh s1 /\ (next_id s0 <= next_id s1)%nat).
  { destruct Hcd as [[_ [_ Hsp]]|[_ Hcr]].
    - pose proof (set_scope_frame _ _ _ _ Hsp) as Hfr.
      split; [apply (frame_grow_step _ _ Hfr Hf0)|].
      destruct Hfr as [_ [_ [N _]]]. rewrite N. lia.
    - destruct (cache_read_new_stage _ _ _ _ _ _ Hcr Hf0)
        as [_ [N [Hf1 _]]].
      split; [exact Hf1|]. rewrite N. lia. }
  destruct H1 as [Hf1 Hn1].
  destruct (cache_read_new_stage _ _ _ _ _ _ Hck Hf1)
    as [Hidk [_ [Hf2 [Hink [_ [Hrk Hnewk]]]]]].
  assert (Hf3 : fresh s3)
    by (apply (frame_grow_step _ _ (set_scope_frame _ _ _ _ Hsc) Hf2)).
  (* from the scope of the convolution to the end *)
  assert (Htail : forall x P,
             settled P -> ignores_op P ->
             (forall o, In o (ewise_ops (tr_classified tr)) ->
                op_id x = op_id o ->
                forall st, P st ->
                  P (MkStage (op st) (leaf_iter_vars st) (relations st)
                       (acc_scope env) (attach st) (iter_var_attrs st))) ->
             stage_at s3 x P -> stage_at s x P).
  { intros x P Hset Hop Hsame Hx.
    apply (trace_after_scopes env cfg cfg' outs s tr x P Htr0 Hset).
    destruct Hset as [_ [Ha Hg]].
    apply (inline_loop_stage_at _ x P _ _ Hco Ha).
    apply (ewise_loop_stage_at env _ x P _ _ Hew Hg Hsame).
    apply (cache_read_inputs_stage_at env x P _ Hop _ _ _ Hcre Hf3 Hx). }
  destruct (scoped_settled (acc_scope env)) as [Hacc Hacc_op].
  destruct (scoped_settled (wgt_scope env)) as [Hwgt Hwgt_op].
  destruct (scoped_settled (inp_scope env)) as [Hinp Hinp_op].
  split; [|split; [|split; [|split]]].
  - apply (Htail _ _ Hacc Hacc_op); [intros; reflexivity|].
    apply (set_scope_scoped _ _ _ _ Hsc).
  - apply (Htail _ _ Hwgt Hwgt_op).
    + intros o Ho E. specialize (Hbound o Ho). exfalso. lia.
    + apply (set_scope_stage_at _ _ _ _ _ _ Hsc).
      * intros E. exfalso.
        specialize (Hrk (tr_conv tr) (or_introl eq_refl)). lia.
      * eexists. split; [exact Hnewk|reflexivity].
  - intros o Ho.
    apply (trace_after_scopes env cfg cfg' outs s tr o _ Htr0 Hacc).
    destruct Hacc as [_ [Ha _]].
    apply (inline_loop_stage_at _ o _ _ _ Hco Ha).
    apply (ewise_scope_loop env _ _ _ Hew o Ho).
  - intros t Ht.
    apply (trace_after_scopes env cfg cfg' outs s tr t _ Htr0 Hacc).
    destruct Hacc as [_ [Ha Hg]].
    apply (inline_loop_stage_at _ t _ _ _ Hco Ha).
    apply (ewise_loop_stage_at env _ t _ _ _ Hew Hg);
      [intros; reflexivity|].
    apply (cache_read_inputs_scoped env _ _ _ _ Hcre Hf3 t Ht).
  - exists data, kernel. split; [exact Hins|]. split; [exact Hink|].
    destruct Hcd as [[-> [Hcd Hsp]]|[-> Hcr]].
    + split; [exact Hcd|]. intros Hne Hothers.
      apply (Htail _ _ Hinp Hinp_op).
      * intros o Ho E. exfalso. apply (Hothers o Ho). symmetry. exact E.
      * apply (set_scope_stage_at _ _ _ _ _ _ Hsc);
          [intros E; contradiction|].
        apply (cache_read_stage_at _ _ _ _ _ _ _ _ Hck Hf1 Hinp_op).
        apply (set_scope_scoped _ _ _ _ Hsp).
    + destruct (cache_read_new_stage _ _ _ _ _ _ Hcr Hf0)
        as [Hidd [_ [_ [Hind [_ [Hrd Hnewd]]]]]].
      split; [exact Hind|].
      apply (Htail _ _ Hinp Hinp_op).
      * intros o Ho E. specialize (Hbound o Ho). exfalso. lia.
      * apply (set_scope_stage_at _ _ _ _ _ _ Hsc).
        -- intros E. exfalso.
           specialize (Hrd (tr_conv tr) (or_introl eq_refl)). lia.
        -- apply (cache_read_stage_at _ _ _ _ _ _ _ _ Hck Hf1 Hinp_op).
           eexists. split; [exact Hnewd|reflexivity].
Qed.

(** X10: in the schedule returned by [schedule_conv2d_packed], the cached
    activation and the cached weights carry the DMA-copy pragma on their
    first axis, the convolution stage is tensorized with the GEMM intrinsic
    on its inner batch axis, the output stage carries the DMA-copy pragma on
    its inner channel axis, every elementwise stage carries the ALU pragma
    on its first axis and every cached elementwise input the DMA-copy
    pragma on its first axis. *)
Theorem accelerator_instructions :
  forall (env : Env) (cfg cfg' : Config) (outs : list Operation)
         (s : Schedule),
    schedule_conv2d_packed env cfg outs = Ok (cfg', s) ->
    exists tr,
      is_trace env cfg outs cfg' s tr /\
      stage_at s (tr_cdata tr)
        (annotated (DataAxis (op_id (tr_cdata tr)) 0)
           (Pragma (dma_copy env))) /\
      stage_at s (tr_ckernel tr)
        (annotated (DataAxis (op_id (tr_ckernel tr)) 0)
           (Pragma (dma_copy env))) /\
      stage_at s (tr_conv tr)
        (annotated (DataAxis (op_id (tr_conv tr)) 4)
           (Tensorize (gemm env))) /\
      stage_at s (tr_output tr)
        (annotated (inner_channel (tr_output tr)) (Pragma (dma_copy env))) /\
      (forall o, In o (ewise_ops (tr_classified tr)) ->
         stage_at s o (annotated (DataAxis (op_id o) 0) (Pragma (alu env)))) /\
      (forall t, In t (tr_cache_read_ewise tr) ->
         stage_at s t
           (annotated (DataAxis (op_id t) 0) (Pragma (dma_copy env)))).
Proof.
  intros env cfg cfg' outs s H.
  destruct (schedule_conv2d_packed_trace env cfg cfg' outs s H) as [tr Htr].
  exists tr. split; [exact Htr|].
  apply (trace_instructions env cfg cfg' outs s tr Htr).
Qed.

Lemma accelerator_instructions_witness :
  exists tr,
    is_trace ex_env ex_cfg [ex_out] (fst ex_run) (snd ex_run) tr /\
    stage_at (snd ex_run) (tr_cdata tr)
      (annotated (DataAxis (op_id (tr_cdata tr)) 0)
         (Pragma (dma_copy ex_env))) /\
    stage_at (snd ex_run) (tr_ckernel tr)
      (annotated (DataAxis (op_id (tr_ckernel tr)) 0)
         (Pragma (dma_copy ex_env))) /\
    stage_at (snd ex_run) (tr_conv tr)
      (annotated (DataAxis (op_id (tr_conv tr)) 4)
         (Tensorize (gemm ex_env))) /\
    stage_at (snd ex_run) (tr_output tr)
      (annotated (inner_channel (tr_output tr)) (Pragma (dma_copy ex_env))) /\
    (forall o, In o (ewise_ops (tr_classified tr)) ->
       stage_at (snd ex_run) o
         (annotated (DataAxis (op_id o) 0) (Pragma (alu ex_env)))) /\
    (forall t, In t (tr_cache_read_ewise tr) ->
       stage_at (snd ex_run) t
         (annotated (DataAxis (op_id t) 0) (Pragma (dma_copy ex_env)))).
Proof.
  apply (accelerator_instructions ex_env ex_cfg (fst ex_run) [ex_out]
           (snd ex_run)).
  vm_compute. reflexivity.
Defined.

(** X11: in the schedule returned by [schedule_conv2d_packed], the
    convolution stage, every elementwise stage and every cached elementwise
    input are in the accumulator scope and the cached copy of the kernel is
    in the weight scope; the activation is staged in the input scope, as a
    cached copy when the convolution reads it directly and in place when
    the convolution reads a pad operation (whose identity must then differ
    from those of the convolution and of the elementwise operations). *)
Theorem memory_scopes :
  forall (env : Env) (cfg cfg' : Config) (outs : list Operation)
         (s : Schedule),
    schedule_conv2d_packed env cfg outs = Ok (cfg', s) ->
    exists tr,
      is_trace env cfg outs cfg' s tr /\
      stage_at s (tr_conv tr) (scoped (acc_scope env)) /\
      stage_at s (tr_ckernel tr) (scoped (wgt_scope env)) /\
      (forall o, In o (ewise_ops (tr_classified tr)) ->
         stage_at s o (scoped (acc_scope env))) /\
      (forall t, In t (tr_cache_read_ewise tr) ->
         stage_at s t (scoped (acc_scope env))) /\
      exists data kernel,
        input_tensors (tr_conv tr) = [data; kernel] /\
        input_tensors (tr_ckernel tr) = [kernel] /\
        if is_compute data && contains "pad" (op_tag data)
        then tr_cdata tr = data /\
             (op_id data <> op_id (tr_conv tr) ->
              (forall o, In o (ewise_ops (tr_classified tr)) ->
                 op_id o <> op_id data) ->
              stage_at s data (scoped (inp_scope env)))
        else input_tensors (tr_cdata tr) = [data] /\
             stage_at s (tr_cdata tr) (scoped (inp_scope env)).
Proof.
  intros env cfg cfg' outs s H.
  destruct (schedule_conv2d_packed_trace env cfg cfg' outs s H) as [tr Htr].
  exists tr. split; [exact Htr|].
  apply (trace_scopes env cfg cfg' outs s tr Htr).
Qed.

Lemma memory_scopes_witness :
  exists tr,
    is_trace ex_env ex_cfg [ex_out] (fst ex_run) (snd ex_run) tr /\
    stage_at (snd ex_run) (tr_conv tr) (scoped (acc_scope ex_env)) /\
    stage_at (snd ex_run) (tr_ckernel tr) (scoped (wgt_scope ex_env)) /\
    (forall o, In o (ewise_ops (tr_classified tr)) ->
       stage_at (snd ex_run) o (scoped (acc_scope ex_env))) /\
    (forall t, In t (tr_cache_read_ewise tr) ->
       stage_at (snd ex_run) t (scoped (acc_scope ex_env))) /\
    exists data kernel,
      input_tensors (tr_conv tr) = [data; kernel] /\
      input_tensors (tr_ckernel tr) = [kernel] /\
      if is_compute data && contains "pad" (op_tag data)
      then tr_cdata tr = data /\
           (op_id data <> op_id (tr_conv tr) ->
            (forall o, In o (ewise_ops (tr_classified tr)) ->
               op_id o <> op_id data) ->
            stage_at (snd ex_run) data (scoped (inp_scope ex_env)))
      else input_tensors (tr_cdata tr) = [data] /\
           stage_at (snd ex_run) (tr_cdata tr) (scoped (inp_scope ex_env)).
Proof.
  apply (memory_scopes ex_env ex_cfg (fst ex_run) [ex_out] (snd ex_run)).
  vm_compute. reflexivity.
Defined.

(** ** The staging of [_schedule_add] *)











Lemma attached_ignores (parent : Operation) (a : IterVar) :
  ignores_op (attached parent a) /\ ignores_loops (attached parent a) /\
  ignores_scope (attached parent a) /\ grows_with_attrs (attached parent a).
Proof.
  unfold ignores_op, ignores_loops, ignores_scope, grows_with_attrs, attached.
  repeat split; intros; cbn [attach]; assumption.
Qed.












(** X13: for an integral output that is a compute operation of a rank
    other than 6, [_schedule_add] raises a ValueError: the six axes cannot
    be unpacked. *)
Theorem schedule_add_wrong_rank :
  forall (env : Env) (output : Operation),
    is_compute output = true ->
    contains "int" (dtype output) = true ->
    List.length (shape output) <> 6%nat ->
    _schedule_add env [output] = Raise ValueError.
Proof.
  intros env output Hc Hint Hlen.
  unfold _schedule_add.
  change (assert (Nat.eqb (List.length [output]) 1)) with (Ok tt).
  change (index [output] 0) with (Ok output).
  cbn [bind]. rewrite Hint.
  destruct (schedule_add_stage output) as [st [Hst [Hop _]]].
  unfold schedule_add_int. rewrite Hst. cbn [bind]. rewrite Hop.
  unfold axis.
  destruct (shape output) as [|? [|? [|? [|? [|? [|? [|? ?]]]]]]];
    try reflexivity.
  exfalso. apply Hlen. reflexivity.
Qed.

Lemma schedule_add_wrong_rank_witness :
  _schedule_add ex_env [ex_flat_add] = Raise ValueError.
Proof.
  apply (schedule_add_wrong_rank ex_env ex_flat_add).
  - reflexivity.
  - reflexivity.
  - discriminate.
Defined.

(** ** The attach points at the end of the schedule *)

Lemma cache_read_inputs_ids (env : Env) (l : list (Operation * Tensor)) :
  forall s cs s',
    cache_read_inputs env l s = Ok (cs, s') -> fresh s ->
    forall t, In t cs -> (next_id s <= op_id t)%nat.
Proof.
  induction l as [|[consumer tensor] l IH]; intros s cs s' H Hf t Ht.
  - injection H as <- _. destruct Ht.
  - cbn [cache_read_inputs] in H. bind_inv H as [c s1] Hc.
    bind_inv H as [cs' s2] Hrest. injection H as <- <-.
    destruct (cache_read_new_stage s s1 tensor c _ _ Hc Hf)
      as [Hid [N [Hf1 _]]].
    destruct Ht as [<-|Ht]; [lia|].
    pose proof (IH s1 cs' s2 Hrest Hf1 t Ht). lia.
Qed.

(** The identities of the objects of a run: the cached copies are newer
    than the operations of the graph that the schedule touches. *)
Lemma trace_identities (env : Env) (cfg cfg' : Config)
    (outs : list Operation) (s : Schedule) (tr : Trace) :
  is_trace env cfg outs cfg' s tr ->
  exists data kernel,
    input_tensors (tr_conv tr) = [data; kernel] /\
    (forall x,
        x = tr_conv tr \/ In x (ewise_ops (tr_classified tr)) \/
        In x (tr_cache_read_ewise tr) ->
        op_id (tr_ckernel tr) <> op_id x /\
        (is_compute data && contains "pad" (op_tag data) = false ->
         op_id (tr_cdata tr) <> op_id x)) /\
    (is_compute data && contains "pad" (op_tag data) = true ->
     tr_cdata tr = data).
Proof.
  intros Htr.
  pose proof (trace_ewise_ops_bound env cfg cfg' outs s tr Htr) as Hbound.
  destruct Htr as [_ [_ [_ [_ [Hsetup _]]]]].
  destruct (create_schedule_output (tr_output tr)) as [_ Hf0].
  set (s0 := create_schedule [tr_output tr]) in *.
  destruct (setup_scopes_steps env _ _ _ _ _ _ _ Hsetup)
    as [data [kernel [s1 [s2 [s3 [s4 [s5
          [Hins [Hcd [Hck [Hsc [Hcre [Hew Hco]]]]]]]]]]]]].
  assert (H1 : fresh s1 /\ (next_id s0 <= next_id s1)%nat).
  { destruct Hcd as [[_ [_ Hsp]]|[_ Hcr]].
    - pose proof (set_scope_frame _ _ _ _ Hsp) as Hfr.
      split; [apply (frame_grow_step _ _ Hfr Hf0)|].
      destruct Hfr as [_ [_ [N _]]]. rewrite N. lia.
    - destruct (cache_read_new_stage _ _ _ _ _ _ Hcr Hf0)
        as [_ [N [Hf1 _]]].
      split; [exact Hf1|]. rewrite N. lia. }
  destruct H1 as [Hf1 Hn1].
  destruct (cache_read_new_stage _ _ _ _ _ _ Hck Hf1)
    as [Hidk [Nk [Hf2 [_ [_ [Hrk _]]]]]].
  pose proof (set_scope_frame _ _ _ _ Hsc) as Hfr3.
  destruct (frame_grow_step _ _ Hfr3 Hf2) as [Hf3 _].
  assert (N3 : next_id s3 = next_id s2)
    by (destruct Hfr3 as [_ [_ [N _]]]; exact N).
  pose proof (cache_read_inputs_ids env _ _ _ _ Hcre Hf3) as Hids.
  specialize (Hrk (tr_conv tr) (or_introl eq_refl)).
  exists data, kernel. split; [exact Hins|]. split.
  - intros x Hx. split.
    + destruct Hx as [->|[Hx|Hx]].
      * lia.
      * specialize (Hbound x Hx). lia.
      * specialize (Hids x Hx). lia.
    + intros Hpad. destruct Hcd as [[Hp _]|[_ Hcr]]; [congruence|].
      destruct (cache_read_new_stage _ _ _ _ _ _ Hcr Hf0)
        as [Hidd [Nd [_ [_ [_ [Hrd _]]]]]].
      specialize (Hrd (tr_conv tr) (or_introl eq_refl)).
      destruct Hx as [->|[Hx|Hx]].
      * lia.
      * specialize (Hbound x Hx). lia.
      * specialize (Hids x Hx). lia.
  - intros Hpad. destruct Hcd as [[_ [Hc _]]|[Hp _]]; [exact Hc|congruence].
Qed.

Lemma stage_reduction_attached (cfg : Config) (s s' : Schedule)
    (conv cdata ckernel x : Operation) (ko xbi : IterVar)
    (P : Stage -> Prop) :
  stage_reduction cfg s conv cdata ckernel = Ok (ko, xbi, s') ->
  ignores_loops P ->
  op_id cdata <> op_id x -> op_id ckernel <> op_id x ->
  stage_at s x P -> stage_at s' x P.
Proof.
  unfold stage_reduction. intros H Hl Hd Hk Hx.
  bind_inv H as st Hst.
  bind_inv H as [[[[[x_bo x_co] x_i] x_j] x_bi] x_ci] Hax.
  bind_inv H as [[[k_o' d_i'] d_j'] k_i'] Hred.
  bind_inv H as s1 Hre.
  bind_inv H as e He. bind_inv H as [r s2] Hap.
  bind_inv H as [k_o2 k_in] Hu.
  bind_inv H as s3 Hcd. bind_inv H as s4 Hck.
  injection H as _ _ <-.
  apply (compute_at_stage_at s3 s4 ckernel conv x _ P Hck).
  { intros E. exfalso. apply Hk. symmetry. exact E. }
  apply (compute_at_stage_at s2 s3 cdata conv x _ P Hcd).
  { intros E. exfalso. apply Hd. symmetry. exact E. }
  apply (apply_stage_at e s1 s2 conv x _ _ P Hap (fun _ => Hl)).
  apply (reorder_stage_at s s1 conv x _ P Hre (fun _ => Hl)). exact Hx.
Qed.

Lemma trace_final_attach (env : Env) (cfg cfg' : Config)
    (outs : list Operation) (s : Schedule) (tr : Trace) :
  is_trace env cfg outs cfg' s tr ->
  exists data kernel,
    input_tensors (tr_conv tr) = [data; kernel] /\
    forall x,
      x = tr_conv tr \/ In x (ewise_ops (tr_classified tr)) \/
      In x (tr_cache_read_ewise tr) ->
      (is_compute data && contains "pad" (op_tag data) = true ->
       op_id data <> op_id x) ->
      stage_at s x (attached (tr_output tr) (outer_width (tr_output tr))).
Proof.
  intros Htr.
  destruct (trace_identities env cfg cfg' outs s tr Htr)
    as [data [kernel [Hins [Hids Hpadc]]]].
  destruct (trace_tiled env cfg cfg' outs s tr Htr)
    as [st [f_co [f_h [f_w [_ [_ [_ [Ht _]]]]]]]].
  destruct Htr as [_ [_ [_ [_ [_ [_ [Hatt [Hoc [Hh [Hred Hvta]]]]]]]]]].
  exists data, kernel. split; [exact Hins|]. intros x Hx Hpad.
  destruct (Hids x Hx) as [Hk Hd].
  assert (Hd' : op_id (tr_cdata tr) <> op_id x).
  { destruct (is_compute data && contains "pad" (op_tag data)) eqn:E.
    - rewrite (Hpadc eq_refl). apply Hpad. reflexivity.
    - apply Hd. reflexivity. }
  destruct (attached_ignores (tr_output tr) (outer_width (tr_output tr)))
    as [_ [Hl [_ Hg]]].
  apply (use_vta_instructions_stage_at env _ _ _ _ _ _ x _ _ _ Hvta Hg).
  apply (stage_reduction_attached _ _ _ _ _ _ x _ _ _ Hred Hl Hd' Hk).
  apply (virtual_thread_stage_at _ _ _ _ _ x _ _ _ Hh
           (fun _ => Hl) (fun _ => Hg)).
  apply (virtual_thread_stage_at _ _ _ _ _ x _ _ _ Hoc
           (fun _ => Hl) (fun _ => Hg)).
  pose proof (set_compute_scopes_attached env _ _ _ _ _ _ _ Hatt x Hx) as Ha.
  rewrite Ht in Ha. exact Ha.
Qed.

(** X14: the attach points set by [schedule_conv2d_packed] hold in the
    schedule it returns: the convolution stage, every elementwise stage and
    every cached elementwise input are attached at the outer width axis of
    the output stage (when the convolution reads a pad operation, for the
    stages whose identity differs from that of the pad operation). *)
Theorem final_attach_points :
  forall (env : Env) (cfg cfg' : Config) (outs : list Operation)
         (s : Schedule),
    schedule_conv2d_packed env cfg outs = Ok (cfg', s) ->
    exists tr data kernel,
      is_trace env cfg outs cfg' s tr /\
      input_tensors (tr_conv tr) = [data; kernel] /\
      forall x,
        x = tr_conv tr \/ In x (ewise_ops (tr_classified tr)) \/
        In x (tr_cache_read_ewise tr) ->
        (is_compute data && contains "pad" (op_tag data) = true ->
         op_id data <> op_id x) ->
        stage_at s x (attached (tr_output tr) (outer_width (tr_output tr))).
Proof.
  intros env cfg cfg' outs s H.
  destruct (schedule_conv2d_packed_trace env cfg cfg' outs s H) as [tr Htr].
  destruct (trace_final_attach env cfg cfg' outs s tr Htr)
    as [data [kernel [Hins Hall]]].
  exists tr, data, kernel. auto.
Qed.

Lemma final_attach_points_witness :
  exists tr data kernel,
    is_trace ex_env ex_cfg [ex_out] (fst ex_run) (snd ex_run) tr /\
    input_tensors (tr_conv tr) = [data; kernel] /\
    forall x,
      x = tr_conv tr \/ In x (ewise_ops (tr_classified tr)) \/
      In x (tr_cache_read_ewise tr) ->
      (is_compute data && contains "pad" (op_tag data) = true ->
       op_id data <> op_id x) ->
      stage_at (snd ex_run) x
        (attached (tr_output tr) (outer_width (tr_output tr))).
Proof.
  apply (final_attach_points ex_env ex_cfg (fst ex_run) [ex_out]
           (snd ex_run)).
  vm_compute. reflexivity.
Defined.
